(** * chaos-chat: the ultrasonic frame codec, the peer table and the chat session

    A shallow embedding of [src/script.js]: the packet codec, the bit-stream
    decoder and the discovered-users table of [class UltrasonicComm], and
    the room, privacy and history logic of [class ChatManager].

    Conventions of the embedding.
    - A [Uint8Array] is a [list Z] whose elements lie in [0, 256); a store
      into one is written with its wrap-around [mod 256].
    - A received bit is the JS number 0 or 1, kept as a [Z]; the bit
      operators [>>], [<<], [&], [|], [^] are [Z.shiftr], [Z.shiftl],
      [Z.land], [Z.lor], [Z.lxor] (all operands stay far below 2^31, where
      the 32-bit JS operators and the unbounded ones agree).
    - Array indices and lengths are [nat]; reading past the end of an array
      gives [undefined], which the bit operators read as 0, hence the
      default 0 of [nth].
    - Time stamps of the audio clock (seconds) are rationals [Q], compared
      exactly; [Date.now()] (milliseconds) is a [Z] handed to the operation
      that reads it, as is every string drawn from [Math.random()].
    - A JS string is kept as the [string] of its UTF-8 bytes, so that
      [new TextEncoder().encode] lists the byte codes; the string methods
      that count UTF-16 code units ([match], [substr]) are exact on ASCII
      text, which is what identifiers and hexadecimal ciphertexts are.
    - A [Map] is a [gmap], a [Set] a [gset]; room objects live in a heap of
      locations, because [currentRoom] and the entries of [rooms] are
      references to the same objects.
    - A callback slot ([onMessageReceived], ...) is modelled installed, as
      [ChaosChatApp.initializeModules] does; a call of it is appended to a log.
    - An [async] method is run to completion without interleaving. *)

From Stdlib Require Import ZArith QArith List Lia String Ascii Bool.
From stdpp Require Import gmap strings list fin_maps.
Import ListNotations.

Open Scope Z_scope.

(** ** Datagrams

    The objects that [JSON.parse] yields, as the tagged union of the message
    types the application sends: [type] is the tag, the fields are those of
    that type. *)

Module Wire.

Inductive BeaconKind := heartbeat | discovery.

(** [{type: 'heartbeat' | 'discovery', userId, username, timestamp}]. *)
Record Beacon := {
  b_kind : BeaconKind;
  b_userId : string;
  b_username : string;
  b_timestamp : Z
}.

(** [{type: 'chat', messageId, roomId, fromUserId, fromUsername, content,
    messageType, isEncrypted, timestamp}]. *)
Record ChatData := {
  c_messageId : string;
  c_roomId : string;
  c_fromUserId : string;
  c_fromUsername : string;
  c_content : string;
  c_messageType : string;
  c_isEncrypted : bool;
  c_timestamp : Z
}.

(** [{type: 'invite', fromUserId, fromUsername, toUserId, roomId, roomName,
    isPrivate, timestamp}], with [encryptionKey] for a private room. *)
Record InviteData := {
  i_fromUserId : string;
  i_fromUsername : string;
  i_toUserId : string;
  i_roomId : string;
  i_roomName : string;
  i_isPrivate : bool;
  i_encryptionKey : option string;
  i_timestamp : Z
}.

(** [{type: 'join_room' | 'leave_room', userId, username, roomId, timestamp}]. *)
Record MemberData := {
  m_userId : string;
  m_username : string;
  m_roomId : string;
  m_timestamp : Z
}.

(** [{type: 'room_update', roomId, roomName, memberCount, isPrivate,
    createdBy, timestamp}]. *)
Record RoomUpdateData := {
  ru_roomId : string;
  ru_roomName : string;
  ru_memberCount : nat;
  ru_isPrivate : bool;
  ru_createdBy : string;
  ru_timestamp : Z
}.

(** [{type: 'private_key', roomId, encryptionKey, fromUserId, timestamp}]. *)
Record KeyData := {
  k_roomId : string;
  k_encryptionKey : string;
  k_fromUserId : string;
  k_timestamp : Z
}.

Inductive Datagram :=
| Announce (data : Beacon)
| Chat (data : ChatData)
| Invite (data : InviteData)
| JoinRoom (data : MemberData)
| LeaveRoom (data : MemberData)
| RoomUpdate (data : RoomUpdateData)
| PrivateKey (data : KeyData)
| Unknown (type : string).

(** What one event reads from its surroundings: [Date.now()], and the
    string it cuts out of [Math.random().toString(36)] when it needs an
    identifier. *)
Record Env := { now : Z; random : string }.

End Wire.

Import Wire.

(** ** class UltrasonicComm *)

Module UltrasonicComm.

(** [this.config]: the two FSK profiles; only [bitRate] is read by the
    decoder. *)
Inductive Mode := high | low.

Definition bitRate (mode : Mode) : Z :=
  match mode with high => 40 | low => 10 end.

(** [this.packetHeader] and [this.maxPayloadLength]. *)
Definition packetHeader : list Z := [1; 0; 1; 0; 1; 1; 0; 1].
Definition maxPayloadLength : Z := 32.

(** [calculateCRC(data)]: the XOR of the bytes, masked to eight bits. *)
Definition calculateCRC (data : list Z) : Z :=
  Z.land (fold_left Z.lxor data 0) 255.

(** [encodePacket(data)], from the point where [payload] holds the UTF-8
    bytes of [JSON.stringify(data)].  [None] is the thrown [Error]. *)
Definition encodePacket (payload : list Z) : option (list Z) :=
  if (maxPayloadLength <? Z.of_nat (length payload))%Z then None
  else Some (packetHeader
             ++ [Z.of_nat (length payload) mod 256]
             ++ payload
             ++ [calculateCRC payload]).

(** The inner loop of [createBitStream]: the eight bits of one byte, least
    significant first. *)
Definition byteBits (byte : Z) : list Z :=
  map (fun j => Z.land (Z.shiftr byte (Z.of_nat j)) 1) (seq 0 8).

(** [createBitStream(packet)]. *)
Definition createBitStream (packet : list Z) : list Z :=
  flat_map byteBits packet.

(** The loop [for (j = 0; j < 8; j++) byte |= bitBuffer[byteIndex + j] << j]
    that [matchHeader] and [extractPacket] (twice) run to reassemble a byte. *)
Definition readByte (bitBuffer : list Z) (byteIndex : nat) : Z :=
  fold_left
    (fun byte j => Z.lor byte (Z.shiftl (nth (byteIndex + j) bitBuffer 0) (Z.of_nat j)))
    (seq 0 8) 0.

(** The loop of [matchHeader] over the header bytes still to compare, [i]
    being the index of the first of them; it returns at the first mismatch. *)
Fixpoint matchHeaderFrom (bitBuffer : list Z) (startIndex : nat)
    (header : list Z) (i : nat) : bool :=
  match header with
  | [] => true
  | h :: header' =>
      if (readByte bitBuffer (startIndex + i * 8) =? h)%Z
      then matchHeaderFrom bitBuffer startIndex header' (S i)
      else false
  end.

(** [matchHeader(startIndex)]. *)
Definition matchHeader (bitBuffer : list Z) (startIndex : nat) : bool :=
  matchHeaderFrom bitBuffer startIndex packetHeader 0.

(** The object [{payload, length}] that [extractPacket] returns. *)
Record Packet := { payload : list Z; plength : nat }.

(** [array.slice(from, to)] for [from <= to <= array.length]. *)
Definition slice {A} (from to : nat) (l : list A) : list A :=
  firstn (to - from) (skipn from l).

(** [new Uint8Array(values)]. *)
Definition toUint8Array (values : list Z) : list Z :=
  map (fun v => v mod 256) values.

(** [extractPacket(startIndex)]; [None] is [null]. *)
Definition extractPacket (bitBuffer : list Z) (startIndex : nat) : option Packet :=
  let headerLen := (length packetHeader * 8)%nat in
  let lengthIndex := (startIndex + headerLen)%nat in
  if (length bitBuffer <? lengthIndex + 8)%nat then None else
  let payloadLength := readByte bitBuffer lengthIndex in
  if (maxPayloadLength <? payloadLength)%Z then None else
  let packetLen := (length packetHeader + 1 + Z.to_nat payloadLength + 1)%nat in
  let totalPacketBits := (packetLen * 8)%nat in
  if (length bitBuffer <? startIndex + totalPacketBits)%nat then None else
  let packetBytes :=
    map (fun i => readByte bitBuffer (startIndex + i * 8)) (seq 0 packetLen) in
  let payload :=
    slice (length packetHeader + 1) (length packetBytes - 1) packetBytes in
  let receivedCRC := nth (length packetBytes - 1) packetBytes 0 in
  let calculatedCRC := calculateCRC (toUint8Array payload) in
  if (receivedCRC =? calculatedCRC)%Z
  then Some {| payload := toUint8Array payload; plength := length packetBytes |}
  else None.

(** The start offsets [i = 0, 8, 16, ...] with
    [i <= bitBuffer.length - packetHeader.length * 8] that the loop of
    [tryDecodePacket] visits (the buffer holds at least 80 bits there). *)
Definition candidates (bitBuffer : list Z) : list nat :=
  map (fun k => (k * 8)%nat)
      (seq 0 (S ((length bitBuffer - length packetHeader * 8) / 8))).

(** The body of that loop: the first offset whose header matches and whose
    packet extracts, with the packet. *)
Fixpoint scan (bitBuffer : list Z) (offsets : list nat) : option (nat * Packet) :=
  match offsets with
  | [] => None
  | i :: offsets' =>
      if matchHeader bitBuffer i then
        match extractPacket bitBuffer i with
        | Some packet => Some (i, packet)
        | None => scan bitBuffer offsets'
        end
      else scan bitBuffer offsets'
  end.

(** [tryDecodePacket()]: the new buffer, and the packet handed to
    [handleReceivedPacket] when there is one. *)
Definition tryDecodePacket (bitBuffer : list Z) : list Z * option Packet :=
  if (length bitBuffer <? (length packetHeader + 2) * 8)%nat
  then (bitBuffer, None)
  else
    match scan bitBuffer (candidates bitBuffer) with
    | Some (i, packet) => (skipn (i + plength packet * 8) bitBuffer, Some packet)
    | None =>
        if (1000 <? length bitBuffer)%nat
        then (skipn (length bitBuffer - 500) bitBuffer, None)
        else (bitBuffer, None)
    end.

(** The receiving side of the object: [bitBuffer] ([None] while the field is
    undefined), [lastBitTime], and the payloads of the packets handed to
    [handleReceivedPacket], oldest first. *)
Record Receiver := {
  bitBuffer : option (list Z);
  lastBitTime : Q;
  received : list (list Z)
}.

Definition newReceiver : Receiver :=
  {| bitBuffer := None; lastBitTime := 0%Q; received := [] |}.

(** [processBit(bit, timestamp)]. *)
Definition processBit (mode : Mode) (r : Receiver) (bit : Z) (timestamp : Q) : Receiver :=
  let '(buffer0, last0) :=
    match bitBuffer r with
    | None => ([], timestamp)
    | Some b => (b, lastBitTime r)
    end in
  let timeDiff := (timestamp - last0)%Q in
  let expectedInterval := (1 / inject_Z (bitRate mode))%Q in
  let buffer1 :=
    if Qle_bool timeDiff (expectedInterval * 2)%Q then buffer0 else [] in
  let '(buffer2, packet) := tryDecodePacket (buffer1 ++ [bit]) in
  {| bitBuffer := Some buffer2;
     lastBitTime := timestamp;
     received := received r ++ match packet with
                               | Some p => [payload p]
                               | None => []
                               end |}.

(** The bits of a microphone session, each with its time stamp, pushed
    through [processBit] in arrival order. *)
Definition feed (mode : Mode) (r : Receiver) (bits : list (Z * Q)) : Receiver :=
  fold_left (fun r' bt => processBit mode r' (fst bt) (snd bt)) bits r.

(** What [transmitData] puts on the air for a payload: [encodePacket] then
    [createBitStream]. *)
Definition encodeBits (payload : list Z) : option (list Z) :=
  option_map createBitStream (encodePacket payload).


(** *** The discovered-users table and the dispatch of received datagrams *)

(** A value of [this.discoveredUsers]: [{...data, lastSeen: Date.now()}]. *)
Record Peer := { beacon : Beacon; lastSeen : Z }.

(** The fields of the object that the table logic reads and writes. *)
Record Comm := {
  myUserId : string;
  discoveredUsers : gmap string Peer
}.

Section Callbacks.

(** The callback slots [onDataReceived] and [onUserDetected] act on the rest
    of the application, whatever that is. *)
Context {World : Type}.
Variable onDataReceived : Datagram -> Env -> World -> World.
Variable onUserDetected : string -> Beacon -> Env -> World -> World.

(** [handleHeartbeat(data)]. *)
Definition handleHeartbeat (data : Beacon) (env : Env) (st : Comm * World) : Comm * World :=
  let userId := b_userId data in
  if decide (userId <> myUserId (fst st)) then
    ({| myUserId := myUserId (fst st);
        discoveredUsers :=
          <[userId := {| beacon := data; lastSeen := now env |}]>
            (discoveredUsers (fst st)) |},
     onUserDetected userId data env (snd st))
  else st.

(** [handleDiscovery(data)]. *)
Definition handleDiscovery (data : Beacon) (env : Env) (st : Comm * World) : Comm * World :=
  handleHeartbeat data env st.

(** [handleChatMessage(data)] of [UltrasonicComm]. *)
Definition handleChatMessage (data : Datagram) (env : Env) (st : Comm * World) : Comm * World :=
  (fst st, onDataReceived data env (snd st)).

(** [handleInvite(data)] of [UltrasonicComm]. *)
Definition handleInvite (data : Datagram) (env : Env) (st : Comm * World) : Comm * World :=
  (fst st, onDataReceived data env (snd st)).

(** [handleMessage(data)]: the [switch] on [data.type]. *)
Definition handleMessage (data : Datagram) (env : Env) (st : Comm * World) : Comm * World :=
  match data with
  | Announce b =>
      match b_kind b with
      | heartbeat => handleHeartbeat b env st
      | discovery => handleDiscovery b env st
      end
  | Chat _ => handleChatMessage data env st
  | Invite _ => handleInvite data env st
  | _ => st
  end.

(** [handleReceivedPacket(packet)], from the point where [data] holds the
    parsed payload: the callback first, then the dispatch. *)
Definition handleReceivedPacket (data : Datagram) (env : Env) (st : Comm * World) : Comm * World :=
  handleMessage data env (fst st, onDataReceived data env (snd st)).

End Callbacks.

(** [cleanupExpiredUsers()], run at time [now]. *)
Definition cleanupExpiredUsers (now : Z) (c : Comm) : Comm :=
  let timeout := 10000 in
  {| myUserId := myUserId c;
     discoveredUsers :=
       filter (fun entry => ~ (now - lastSeen (snd entry) > timeout)) (discoveredUsers c) |}.

(** [getDiscoveredUsers()]: the values of the table. *)
Definition getDiscoveredUsers (c : Comm) : list Peer :=
  snd <$> map_to_list (discoveredUsers c).

End UltrasonicComm.

Import UltrasonicComm.

(** *** Vocabulary for the properties of the codec *)

(** A [Uint8Array]: every element lies in [0, 256). *)
Definition isBytes (bytes : list Z) : bool :=
  forallb (fun b => (0 <=? b) && (b <? 256)) bytes.

(** The sync header sits at byte position [k] of [bytes]. *)
Definition syncAt (bytes : list Z) (k : nat) : bool :=
  forallb (fun t => nth (k + t) bytes 0 =? nth t packetHeader 0) (seq 0 8).

(** The sync header sits at none of the first [n] byte positions of [bytes]. *)
Definition syncFree (n : nat) (bytes : list Z) : bool :=
  forallb (fun k => negb (syncAt bytes k)) (seq 0 n).

(** The bare decode loop: push each bit and try to decode, without the clock
    of [processBit]; the final buffer and the payloads handed over. *)
Fixpoint run (buffer : list Z) (bits : list Z) : list Z * list (list Z) :=
  match bits with
  | [] => (buffer, [])
  | bit :: bits' =>
      let '(buffer', packet) := tryDecodePacket (buffer ++ [bit]) in
      let '(final, out) := run buffer' bits' in
      (final, match packet with Some p => payload p :: out | None => out end)
  end.

(** The bytes of a frame as [encodePacket] lays them out, with any last
    byte, and with the checksum of the payload. *)
Definition frameWith (payload : list Z) (crc : Z) : list Z :=
  packetHeader ++ [Z.of_nat (length payload) mod 256] ++ payload ++ [crc].

Definition frameBytes (payload : list Z) : list Z :=
  frameWith payload (calculateCRC payload).

(** The bit period of the mode, as [processBit] computes it. *)
Definition expectedInterval (mode : Mode) : Q := (1 / inject_Z (bitRate mode))%Q.

(** From time [last] on, no two consecutive time stamps are further apart
    than two bit periods: the gap at which [processBit] resets its buffer. *)
Fixpoint steady (mode : Mode) (last : Q) (stamps : list Q) : bool :=
  match stamps with
  | [] => true
  | t :: stamps' =>
      Qle_bool (t - last) (expectedInterval mode * 2) && steady mode t stamps'
  end.

(** The same for a whole stream, whose first bit has nothing before it. *)
Definition steadyStream (mode : Mode) (stamps : list Q) : bool :=
  match stamps with
  | [] => true
  | t :: stamps' => steady mode t stamps'
  end.

(** A regular clock: bit number [n] arrives at [n / bitRate] seconds. *)
Definition clock (mode : Mode) (bits : list Z) : list (Z * Q) :=
  combine bits
    (map (fun n => (inject_Z (Z.of_nat n) / inject_Z (bitRate mode))%Q)
         (seq 0 (length bits))).

(** A junk prefix of whole bytes and a payload that the decoder gets
    through: both are byte sequences, the payload has at most 32 bytes, the
    sync header neither begins inside the junk nor lies inside the payload,
    and junk and frame together fit the 1000 bits that the buffer may hold
    before it is cut. *)
Definition clean (junk payload : list Z) : bool :=
  isBytes junk && isBytes payload && (length payload <=? 32)%nat
  && syncFree (length junk) (junk ++ packetHeader)
  && syncFree (length payload) payload
  && (length junk + length payload <=? 115)%nat.

(** One bit of a bit vector inverted. *)
Definition flipBit (idx : nat) (bits : list Z) : list Z :=
  firstn idx bits ++ (1 - nth idx bits 0) :: skipn (S idx) bits.

(** Equality test on byte and bit lists. *)
Fixpoint sameList (l1 l2 : list Z) : bool :=
  match l1, l2 with
  | [], [] => true
  | x :: l1', y :: l2' => (x =? y) && sameList l1' l2'
  | _, _ => false
  end.

(** ** class ChatManager *)

Module ChatManager.

(** *** The obfuscation cipher *)

(** [new TextEncoder().encode(s)]. *)
Definition encode (s : string) : list Z :=
  map (fun ch => Z.of_N (N_of_ascii ch)) (list_ascii_of_string s).

(** [new TextDecoder().decode(bytes)] on well-formed UTF-8: the decoder
    drops a leading byte order mark [EF BB BF]. *)
Definition decode (bytes : list Z) : string :=
  let text :=
    match bytes with
    | b1 :: b2 :: b3 :: rest =>
        if (b1 =? 239) && (b2 =? 187) && (b3 =? 191) then rest else bytes
    | _ => bytes
    end in
  string_of_list_ascii (map (fun b => ascii_of_N (Z.to_N b)) text).

(** The loop [out[i] = data[i] ^ keyBytes[i % keyBytes.length]] of both
    [encryptMessage] and [decryptMessage], [out] being a [Uint8Array].  With
    an empty key the index is [NaN], the key byte [undefined], and [^]
    leaves [data[i]] as it is: so do [i mod 0 = i] and the default 0. *)
Definition xorWithKey (data keyBytes : list Z) : list Z :=
  map (fun i => Z.lxor (nth i data 0) (nth (i mod length keyBytes) keyBytes 0) mod 256)
      (seq 0 (length data)).

Definition hexDigits : list ascii :=
  ["0"; "1"; "2"; "3"; "4"; "5"; "6"; "7"; "8"; "9"; "a"; "b"; "c"; "d"; "e"; "f"]%char.

(** [b.toString(16).padStart(2, '0')] for a byte [b]. *)
Definition toHex2 (b : Z) : string :=
  String (nth (Z.to_nat (b / 16)) hexDigits "0"%char)
    (String (nth (Z.to_nat (b mod 16)) hexDigits "0"%char) EmptyString).

(** [encryptMessage(message, key)]. *)
Definition encryptMessage (message key : string) : string :=
  let messageBytes := encode message in
  let keyBytes := encode key in
  let encrypted := xorWithKey messageBytes keyBytes in
  String.concat "" (map toHex2 encrypted).

(** The characters that [.] of a regular expression does not match (of the
    one-byte ones: line feed and carriage return). *)
Definition isLineTerminator (ch : ascii) : bool :=
  (N_of_ascii ch =? 10)%N || (N_of_ascii ch =? 13)%N.

(** [s.match(/.{2}/g)]: the successive pairs of characters neither of which
    is a line terminator; the empty list stands for [null]. *)
Fixpoint matchPairs (s : string) : list (ascii * ascii) :=
  match s with
  | String a ((String b rest) as s') =>
      if isLineTerminator a then matchPairs s'
      else if isLineTerminator b then matchPairs rest
      else (a, b) :: matchPairs rest
  | _ => []
  end.

(** The value of a hexadecimal digit. *)
Definition hexValue (ch : ascii) : option Z :=
  let n := Z.of_N (N_of_ascii ch) in
  if (48 <=? n) && (n <=? 57) then Some (n - 48)
  else if (97 <=? n) && (n <=? 102) then Some (n - 87)
  else if (65 <=? n) && (n <=? 70) then Some (n - 55)
  else None.

(** The one-byte characters that [parseInt] skips in front of a number and
    that [.] matches: tab, vertical tab, form feed, space. *)
Definition isWhiteSpace (ch : ascii) : bool :=
  let n := N_of_ascii ch in
  ((n =? 9) || (n =? 11) || (n =? 12) || (n =? 32))%N.

(** [parseInt(h, 16)] for a two-character match [h], [None] being [NaN]:
    leading white space, a sign, the prefix [0x], then the hexadecimal
    digits up to the first other character. *)
Definition parseInt16 (h : ascii * ascii) : option Z :=
  let '(a, b) := h in
  if isWhiteSpace a then
    (* one character left: a digit, or nothing that parses *)
    hexValue b
  else if (N_of_ascii a =? 45)%N then option_map Z.opp (hexValue b)
  else if (N_of_ascii a =? 43)%N then hexValue b
  else if (N_of_ascii a =? 48)%N && ((N_of_ascii b =? 120)%N || (N_of_ascii b =? 88)%N)
  then None
  else
    match hexValue a, hexValue b with
    | Some x, Some y => Some (16 * x + y)
    | Some x, None => Some x
    | None, _ => None
    end.

(** An element of [new Uint8Array(numbers)]: [NaN] becomes 0, a number is
    taken modulo 256. *)
Definition toUint8 (v : option Z) : Z :=
  match v with
  | Some n => n mod 256
  | None => 0
  end.

(** [decryptMessage(encryptedHex, key)]; [None] is the [TypeError] of
    [null.map] when the text holds no pair to match. *)
Definition decryptMessage (encryptedHex key : string) : option string :=
  match matchPairs encryptedHex with
  | [] => None
  | pairs =>
      let encrypted := map (fun h => toUint8 (parseInt16 h)) pairs in
      let keyBytes := encode key in
      let decrypted := xorWithKey encrypted keyBytes in
      Some (decode decrypted)
  end.

(** *** Rooms, users, messages *)

(** A reference to a room object. *)
Definition loc := positive.

Record Room := {
  r_id : string;
  r_name : string;
  r_isPrivate : bool;
  r_members : gset string;
  r_createdBy : string;
  r_createdAt : Z;
  r_encryptionKey : option string
}.

(** A value of [this.connectedUsers]. *)
Record User := {
  u_userId : string;
  u_username : string;
  u_lastSeen : Z;
  u_isOnline : bool
}.

(** An entry of [this.messageHistory]: a chat message
    [{...data, content, isOwn}], or a system message
    [{messageId, type: 'system', content, timestamp, isOwn: false,
    isSystem: true}]. *)
Inductive Message :=
| ChatMessage (data : ChatData) (isOwn : bool)
| SystemMessage (messageId content : string) (timestamp : Z).

(** A call of one of the callback slots of the manager. *)
Inductive UiEvent :=
| MessageReceived (message : Message)
| UserJoined (userId : string)
| UserLeft (userId : string)
| RoomStateChanged (room : option loc)
| InviteReceived (data : InviteData).

(** The object: its fields, the heap of room objects that [currentRoom] and
    [rooms] refer to, the datagrams handed to [ultrasonicComm.transmitData]
    and the calls of the callback slots, both oldest first. *)
Record Manager := {
  currentRoom : option loc;
  rooms : gmap string loc;
  heap : gmap loc Room;
  isPrivateMode : bool;
  encryptionKey : option string;
  messageHistory : list Message;
  connectedUsers : gmap string User;
  myUserId : string;
  myUsername : string;
  transmitted : list Datagram;
  ui : list UiEvent
}.

Definition maxHistorySize : nat := 100.

Definition set_currentRoom (v : option loc) (s : Manager) : Manager :=
  {| currentRoom := v; rooms := rooms s; heap := heap s;
     isPrivateMode := isPrivateMode s; encryptionKey := encryptionKey s;
     messageHistory := messageHistory s; connectedUsers := connectedUsers s;
     myUserId := myUserId s; myUsername := myUsername s;
     transmitted := transmitted s; ui := ui s |}.

Definition set_rooms (v : gmap string loc) (s : Manager) : Manager :=
  {| currentRoom := currentRoom s; rooms := v; heap := heap s;
     isPrivateMode := isPrivateMode s; encryptionKey := encryptionKey s;
     messageHistory := messageHistory s; connectedUsers := connectedUsers s;
     myUserId := myUserId s; myUsername := myUsername s;
     transmitted := transmitted s; ui := ui s |}.

Definition set_heap (v : gmap loc Room) (s : Manager) : Manager :=
  {| currentRoom := currentRoom s; rooms := rooms s; heap := v;
     isPrivateMode := isPrivateMode s; encryptionKey := encryptionKey s;
     messageHistory := messageHistory s; connectedUsers := connectedUsers s;
     myUserId := myUserId s; myUsername := myUsername s;
     transmitted := transmitted s; ui := ui s |}.

Definition set_isPrivateMode (v : bool) (s : Manager) : Manager :=
  {| currentRoom := currentRoom s; rooms := rooms s; heap := heap s;
     isPrivateMode := v; encryptionKey := encryptionKey s;
     messageHistory := messageHistory s; connectedUsers := connectedUsers s;
     myUserId := myUserId s; myUsername := myUsername s;
     transmitted := transmitted s; ui := ui s |}.

Definition set_encryptionKey (v : option string) (s : Manager) : Manager :=
  {| currentRoom := currentRoom s; rooms := rooms s; heap := heap s;
     isPrivateMode := isPrivateMode s; encryptionKey := v;
     messageHistory := messageHistory s; connectedUsers := connectedUsers s;
     myUserId := myUserId s; myUsername := myUsername s;
     transmitted := transmitted s; ui := ui s |}.

Definition set_messageHistory (v : list Message) (s : Manager) : Manager :=
  {| currentRoom := currentRoom s; rooms := rooms s; heap := heap s;
     isPrivateMode := isPrivateMode s; encryptionKey := encryptionKey s;
     messageHistory := v; connectedUsers := connectedUsers s;
     myUserId := myUserId s; myUsername := myUsername s;
     transmitted := transmitted s; ui := ui s |}.

Definition set_connectedUsers (v : gmap string User) (s : Manager) : Manager :=
  {| currentRoom := currentRoom s; rooms := rooms s; heap := heap s;
     isPrivateMode := isPrivateMode s; encryptionKey := encryptionKey s;
     messageHistory := messageHistory s; connectedUsers := v;
     myUserId := myUserId s; myUsername := myUsername s;
     transmitted := transmitted s; ui := ui s |}.

(** [await this.ultrasonicComm.transmitData(data)]. *)
Definition transmitData (data : Datagram) (s : Manager) : Manager :=
  {| currentRoom := currentRoom s; rooms := rooms s; heap := heap s;
     isPrivateMode := isPrivateMode s; encryptionKey := encryptionKey s;
     messageHistory := messageHistory s; connectedUsers := connectedUsers s;
     myUserId := myUserId s; myUsername := myUsername s;
     transmitted := transmitted s ++ [data]; ui := ui s |}.

(** [if (this.onX) this.onX(...)]. *)
Definition notify (event : UiEvent) (s : Manager) : Manager :=
  {| currentRoom := currentRoom s; rooms := rooms s; heap := heap s;
     isPrivateMode := isPrivateMode s; encryptionKey := encryptionKey s;
     messageHistory := messageHistory s; connectedUsers := connectedUsers s;
     myUserId := myUserId s; myUsername := myUsername s;
     transmitted := transmitted s; ui := ui s ++ [event] |}.

(** An assignment to fields of the room object at [l]. *)
Definition updateRoom (l : loc) (f : Room -> Room) (s : Manager) : Manager :=
  set_heap (alter f l (heap s)) s.

Definition room_set_isPrivate (v : bool) (r : Room) : Room :=
  {| r_id := r_id r; r_name := r_name r; r_isPrivate := v; r_members := r_members r;
     r_createdBy := r_createdBy r; r_createdAt := r_createdAt r;
     r_encryptionKey := r_encryptionKey r |}.

Definition room_set_encryptionKey (v : option string) (r : Room) : Room :=
  {| r_id := r_id r; r_name := r_name r; r_isPrivate := r_isPrivate r;
     r_members := r_members r; r_createdBy := r_createdBy r;
     r_createdAt := r_createdAt r; r_encryptionKey := v |}.

Definition room_set_members (v : gset string) (r : Room) : Room :=
  {| r_id := r_id r; r_name := r_name r; r_isPrivate := r_isPrivate r;
     r_members := v; r_createdBy := r_createdBy r;
     r_createdAt := r_createdAt r; r_encryptionKey := r_encryptionKey r |}.

(** The room object that [this.currentRoom] refers to. *)
Definition theRoom (s : Manager) : option Room :=
  match currentRoom s with
  | Some l => heap s !! l
  | None => None
  end.

(** The truth value of [this.encryptionKey]: neither [null] nor empty. *)
Definition hasKey (s : Manager) : bool :=
  match encryptionKey s with
  | Some key => negb (String.eqb key "")
  | None => false
  end.

(** [this.currentRoom?.id === roomId]. *)
Definition inRoom (s : Manager) (roomId : string) : bool :=
  match theRoom s with
  | Some room => String.eqb (r_id room) roomId
  | None => false
  end.

(** [addMessage(message)]. *)
Definition addMessage (message : Message) (s : Manager) : Manager :=
  let history := messageHistory s ++ [message] in
  set_messageHistory
    (if (maxHistorySize <? length history)%nat
     then skipn (length history - maxHistorySize) history
     else history) s.

(** [addSystemMessage(content)]. *)
Definition addSystemMessage (content : string) (env : Env) (s : Manager) : Manager :=
  let message := SystemMessage (random env) content (now env) in
  notify (MessageReceived message) (addMessage message s).

(** [sendMessage(content, type)]; [None] is the thrown [Error].  The
    message sent comes back with the new state. *)
Definition sendMessage (content type : string) (env : Env) (s : Manager)
    : option (ChatData * Manager) :=
  match theRoom s with
  | None => None
  | Some room =>
      let messageContent :=
        if isPrivateMode s && hasKey s
        then encryptMessage content (default "" (encryptionKey s))
        else content in
      let message :=
        {| c_messageId := random env;
           c_roomId := r_id room;
           c_fromUserId := myUserId s;
           c_fromUsername := myUsername s;
           c_content := messageContent;
           c_messageType := type;
           c_isEncrypted := isPrivateMode s;
           c_timestamp := now env |} in
      let own :=
        {| c_messageId := c_messageId message;
           c_roomId := c_roomId message;
           c_fromUserId := c_fromUserId message;
           c_fromUsername := c_fromUsername message;
           c_content := content;
           c_messageType := c_messageType message;
           c_isEncrypted := c_isEncrypted message;
           c_timestamp := c_timestamp message |} in
      Some (message, transmitData (Chat message) (addMessage (ChatMessage own true) s))
  end.

(** [handleChatMessage(data)] of [ChatManager]. *)
Definition handleChatMessage (data : ChatData) (s : Manager) : Manager :=
  if negb (inRoom s (c_roomId data)) then s
  else if String.eqb (c_fromUserId data) (myUserId s) then s
  else
    let content :=
      if c_isEncrypted data && hasKey s then
        match decryptMessage (c_content data) (default "" (encryptionKey s)) with
        | Some text => text
        | None => "[加密消息 - 解密失败]"
        end
      else if c_isEncrypted data && negb (hasKey s) then "[加密消息 - 无解密密钥]"
      else c_content data in
    let message :=
      ChatMessage
        {| c_messageId := c_messageId data;
           c_roomId := c_roomId data;
           c_fromUserId := c_fromUserId data;
           c_fromUsername := c_fromUsername data;
           c_content := content;
           c_messageType := c_messageType data;
           c_isEncrypted := c_isEncrypted data;
           c_timestamp := c_timestamp data |} false in
    notify (MessageReceived message) (addMessage message s).

(** [distributeEncryptionKey()]. *)
Definition distributeEncryptionKey (env : Env) (s : Manager) : Manager :=
  match theRoom s with
  | Some room =>
      if hasKey s then
        transmitData
          (PrivateKey {| k_roomId := r_id room;
                         k_encryptionKey := default "" (encryptionKey s);
                         k_fromUserId := myUserId s;
                         k_timestamp := now env |}) s
      else s
  | None => s
  end.

(** [togglePrivacyMode()]: the value returned and the new state.
    [key] is the string that [generateEncryptionKey()] draws, [env] serves
    the key datagram, [env'] the system message. *)
Definition togglePrivacyMode (key : string) (env env' : Env) (s : Manager)
    : bool * Manager :=
  match currentRoom s with
  | None => (false, s)
  | Some l =>
      let s1 := set_isPrivateMode (negb (isPrivateMode s)) s in
      let s2 := updateRoom l (room_set_isPrivate (isPrivateMode s1)) s1 in
      let s3 :=
        if isPrivateMode s2 then
          let s' := set_encryptionKey (Some key) s2 in
          let s' := updateRoom l (room_set_encryptionKey (encryptionKey s')) s' in
          let s' := distributeEncryptionKey env s' in
          addSystemMessage "聊天室已切换为私密模式" env' s'
        else
          let s' := set_encryptionKey None s2 in
          let s' := updateRoom l (room_set_encryptionKey None) s' in
          addSystemMessage "聊天室已切换为公开模式" env' s' in
      let s4 := notify (RoomStateChanged (currentRoom s3)) s3 in
      (isPrivateMode s4, s4)
  end.

(** The string that [a || b] keeps: the first one that is not empty. *)
Definition orElse (a b : string) : string :=
  if String.eqb a "" then b else a.

(** [handlePrivateKey(data)]. *)
Definition handlePrivateKey (data : KeyData) (env : Env) (s : Manager) : Manager :=
  match currentRoom s with
  | Some l =>
      if inRoom s (k_roomId data) then
        let s1 := set_encryptionKey (Some (k_encryptionKey data)) s in
        let s2 := set_isPrivateMode true s1 in
        let s3 := updateRoom l (room_set_isPrivate true) s2 in
        let s4 := updateRoom l (room_set_encryptionKey (Some (k_encryptionKey data))) s3 in
        let s5 := addSystemMessage "收到加密密钥，聊天室已切换为私密模式" env s4 in
        notify (RoomStateChanged (currentRoom s5)) s5
      else s
  | None => s
  end.

(** [handleUserDetected(userId, userData)]. *)
Definition handleUserDetected (userId : string) (userData : Beacon) (env : Env)
    (s : Manager) : Manager :=
  match connectedUsers s !! userId with
  | None =>
      notify (UserJoined userId)
        (set_connectedUsers
           (<[userId := {| u_userId := userId; u_username := b_username userData;
                           u_lastSeen := now env; u_isOnline := true |}]>
              (connectedUsers s)) s)
  | Some user =>
      set_connectedUsers
        (<[userId := {| u_userId := u_userId user; u_username := u_username user;
                        u_lastSeen := now env; u_isOnline := true |}]>
           (connectedUsers s)) s
  end.

(** [broadcastRoomUpdate()]. *)
Definition broadcastRoomUpdate (env : Env) (s : Manager) : Manager :=
  match theRoom s with
  | Some room =>
      if r_isPrivate room then s
      else
        transmitData
          (RoomUpdate {| ru_roomId := r_id room;
                         ru_roomName := r_name room;
                         ru_memberCount := size (r_members room);
                         ru_isPrivate := r_isPrivate room;
                         ru_createdBy := r_createdBy room;
                         ru_timestamp := now env |}) s
  | None => s
  end.

(** [createOrJoinRoom(roomId, isPrivate)]: the reference returned and the
    new state.  [roomId = None] is the default [null]; [env] serves
    [generateRoomId()] and the clock, [key] is the string that
    [generateEncryptionKey()] draws for a private room. *)
Definition createOrJoinRoom (roomId : option string) (isPrivate : bool)
    (key : string) (env : Env) (s : Manager) : loc * Manager :=
  let roomId :=
    match roomId with
    | Some given => if String.eqb given "" then random env else given
    | None => random env
    end in
  let room :=
    {| r_id := roomId;
       r_name := "聊天室 " ++ substring 0 4 roomId;
       r_isPrivate := isPrivate;
       r_members := {[ myUserId s ]};
       r_createdBy := myUserId s;
       r_createdAt := now env;
       r_encryptionKey := if isPrivate then Some key else None |} in
  let l := fresh (dom (heap s)) in
  let s1 := set_heap (<[l := room]> (heap s)) s in
  let s2 := set_rooms (<[roomId := l]> (rooms s1)) s1 in
  let s3 := set_currentRoom (Some l) s2 in
  let s4 := set_isPrivateMode isPrivate s3 in
  let s5 := if isPrivate then set_encryptionKey (r_encryptionKey room) s4 else s4 in
  let s6 := if isPrivate then s5 else broadcastRoomUpdate env s5 in
  (l, notify (RoomStateChanged (Some l)) s6).

(** [inviteUser(userId, roomId)]; [None] is one of the two thrown
    [Error]s. *)
Definition inviteUser (userId : string) (roomId : option string) (env : Env)
    (s : Manager) : option Manager :=
  let current := default "" (r_id <$> theRoom s) in
  let targetRoomId :=
    match roomId with
    | Some given => orElse given current
    | None => current
    end in
  if String.eqb targetRoomId "" then None
  else
    match rooms s !! targetRoomId with
    | None => None
    | Some l =>
        match heap s !! l with
        | None => None
        | Some room =>
            Some (transmitData
                    (Invite {| i_fromUserId := myUserId s;
                               i_fromUsername := myUsername s;
                               i_toUserId := userId;
                               i_roomId := targetRoomId;
                               i_roomName := r_name room;
                               i_isPrivate := r_isPrivate room;
                               i_encryptionKey :=
                                 if r_isPrivate room then r_encryptionKey room else None;
                               i_timestamp := now env |}) s)
        end
    end.

(** [handleInvite(data)] of [ChatManager]. *)
Definition handleInvite (data : InviteData) (s : Manager) : Manager :=
  if String.eqb (i_toUserId data) (myUserId s)
  then notify (InviteReceived data) s
  else s.

(** [acceptInvite(inviteData)]. *)
Definition acceptInvite (inviteData : InviteData) (env : Env) (s : Manager) : Manager :=
  let room :=
    {| r_id := i_roomId inviteData;
       r_name := i_roomName inviteData;
       r_isPrivate := i_isPrivate inviteData;
       r_members := {[ myUserId s ]};
       r_createdBy := i_fromUserId inviteData;
       r_createdAt := now env;
       r_encryptionKey := i_encryptionKey inviteData |} in
  let l := fresh (dom (heap s)) in
  let s1 := set_heap (<[l := room]> (heap s)) s in
  let s2 := set_rooms (<[r_id room := l]> (rooms s1)) s1 in
  let s3 := set_currentRoom (Some l) s2 in
  let s4 := set_isPrivateMode (r_isPrivate room) s3 in
  let s5 := if r_isPrivate room then set_encryptionKey (r_encryptionKey room) s4 else s4 in
  let s6 :=
    transmitData
      (JoinRoom {| m_userId := myUserId s; m_username := myUsername s;
                   m_roomId := r_id room; m_timestamp := now env |}) s5 in
  notify (RoomStateChanged (Some l)) s6.

(** [handleJoinRoom(data)]. *)
Definition handleJoinRoom (data : MemberData) (env : Env) (s : Manager) : Manager :=
  match rooms s !! m_roomId data with
  | Some l =>
      if inRoom s (m_roomId data) then
        let s1 :=
          updateRoom l (fun r => room_set_members (r_members r ∪ {[ m_userId data ]}) r) s in
        let s2 :=
          set_connectedUsers
            (<[m_userId data := {| u_userId := m_userId data;
                                   u_username := m_username data;
                                   u_lastSeen := now env;
                                   u_isOnline := true |}]> (connectedUsers s1)) s1 in
        let s3 := notify (UserJoined (m_userId data)) s2 in
        addSystemMessage (m_username data ++ " 加入了聊天室") env s3
      else s
  | None => s
  end.

(** [handleLeaveRoom(data)]. *)
Definition handleLeaveRoom (data : MemberData) (env : Env) (s : Manager) : Manager :=
  match rooms s !! m_roomId data with
  | Some l =>
      if inRoom s (m_roomId data) then
        let s1 :=
          updateRoom l (fun r => room_set_members (r_members r ∖ {[ m_userId data ]}) r) s in
        let s2 := notify (UserLeft (m_userId data)) s1 in
        let known :=
          match connectedUsers s2 !! m_userId data with
          | Some user => u_username user
          | None => ""
          end in
        let username := orElse known (orElse (m_username data) "用户") in
        addSystemMessage (username ++ " 离开了聊天室") env s2
      else s
  | None => s
  end.

(** [leaveRoom()]. *)
Definition leaveRoom (env : Env) (s : Manager) : Manager :=
  match theRoom s with
  | None => s
  | Some room =>
      let s1 :=
        transmitData
          (LeaveRoom {| m_userId := myUserId s; m_username := myUsername s;
                        m_roomId := r_id room; m_timestamp := now env |}) s in
      let s2 := set_currentRoom None s1 in
      let s3 := set_isPrivateMode false s2 in
      let s4 := set_encryptionKey None s3 in
      notify (RoomStateChanged None) s4
  end.

(** [handleRoomUpdate(data)]. *)
Definition handleRoomUpdate (data : RoomUpdateData) (s : Manager) : Manager :=
  match rooms s !! ru_roomId data with
  | None =>
      if ru_isPrivate data then s
      else
        let room :=
          {| r_id := ru_roomId data;
             r_name := ru_roomName data;
             r_isPrivate := ru_isPrivate data;
             r_members := ∅;
             r_createdBy := ru_createdBy data;
             r_createdAt := ru_timestamp data;
             r_encryptionKey := None |} in
        let l := fresh (dom (heap s)) in
        let s1 := set_heap (<[l := room]> (heap s)) s in
        set_rooms (<[r_id room := l]> (rooms s1)) s1
  | Some _ => s
  end.

(** [handleIncomingData(data)]: the [switch] on [data.type]. *)
Definition handleIncomingData (data : Datagram) (env : Env) (s : Manager) : Manager :=
  match data with
  | Chat d => handleChatMessage d s
  | Invite d => handleInvite d s
  | JoinRoom d => handleJoinRoom d env s
  | LeaveRoom d => handleLeaveRoom d env s
  | RoomUpdate d => handleRoomUpdate d s
  | PrivateKey d => handlePrivateKey d env s
  | Announce _ | Unknown _ => s
  end.

(** [cleanupOfflineUsers()], run at time [now]: every user not seen for
    more than 30 seconds is marked offline and reported through
    [onUserLeft].  (The reports are listed in key order, not in the
    insertion order of the [Map].) *)
Definition cleanupOfflineUsers (now : Z) (s : Manager) : Manager :=
  let timeout := 30000 in
  let expired (user : User) : bool := (timeout <? now - u_lastSeen user) in
  let users :=
    (fun user =>
       if expired user
       then {| u_userId := u_userId user; u_username := u_username user;
               u_lastSeen := u_lastSeen user; u_isOnline := false |}
       else user) <$> connectedUsers s in
  let reports :=
    (fun entry => UserLeft (fst entry))
      <$> filter (fun entry => expired (snd entry) = true) (map_to_list (connectedUsers s)) in
  fold_left (fun s' event => notify event s') reports (set_connectedUsers users s).

(** [getConnectedUsers()]: the values of the map. *)
Definition getConnectedUsers (s : Manager) : list User :=
  snd <$> map_to_list (connectedUsers s).

(** [getMessageHistory()]. *)
Definition getMessageHistory (s : Manager) : list Message := messageHistory s.

(** [clearHistory()]. *)
Definition clearHistory (s : Manager) : Manager := set_messageHistory [] s.

(** The state the constructor leaves. *)
Definition newManager (userId username : string) : Manager :=
  {| currentRoom := None; rooms := ∅; heap := ∅; isPrivateMode := false;
     encryptionKey := None; messageHistory := []; connectedUsers := ∅;
     myUserId := userId; myUsername := username; transmitted := []; ui := [] |}.

End ChatManager.

Import ChatManager.

(** *** Vocabulary for the properties of the session *)

(** The text begins with a byte order mark (U+FEFF, [EF BB BF] in UTF-8). *)
Definition startsWithBOM (s : string) : bool :=
  match encode s with
  | b1 :: b2 :: b3 :: _ => (b1 =? 239) && (b2 =? 187) && (b3 =? 191)
  | _ => false
  end.

(** The two characters that [toHex2] writes for a byte. *)
Definition hexPair (b : Z) : ascii * ascii :=
  (nth (Z.to_nat (b / 16)) hexDigits "0"%char,
   nth (Z.to_nat (b mod 16)) hexDigits "0"%char).

(** The application as [ChatManager.setupEventHandlers] wires it: a parsed
    datagram goes through [UltrasonicComm.handleReceivedPacket], whose
    callback slots hold the handlers of the manager. *)
Definition deliver (data : Datagram) (env : Env) (st : Comm * Manager) : Comm * Manager :=
  UltrasonicComm.handleReceivedPacket
    ChatManager.handleIncomingData ChatManager.handleUserDetected data env st.

(** The history entry under which [ChatManager.handleChatMessage] files a
    chat datagram that it accepts. *)
Definition filedAs (s : Manager) (data : ChatData) : Message :=
  let content :=
    if c_isEncrypted data && hasKey s then
      match decryptMessage (c_content data) (default "" (encryptionKey s)) with
      | Some text => text
      | None => "[加密消息 - 解密失败]"
      end
    else if c_isEncrypted data && negb (hasKey s) then "[加密消息 - 无解密密钥]"
    else c_content data in
  ChatMessage
    {| c_messageId := c_messageId data;
       c_roomId := c_roomId data;
       c_fromUserId := c_fromUserId data;
       c_fromUsername := c_fromUsername data;
       c_content := content;
       c_messageType := c_messageType data;
       c_isEncrypted := c_isEncrypted data;
       c_timestamp := c_timestamp data |} false.

(** The [messageId] of a history entry. *)
Definition messageIdOf (m : Message) : string :=
  match m with
  | ChatMessage data _ => c_messageId data
  | SystemMessage messageId _ _ => messageId
  end.

(** While a room is current, its [isPrivate] flag is the [isPrivateMode] of
    the manager: every method that assigns one assigns the other. *)
Definition consistent (s : Manager) : Prop :=
  match currentRoom s with
  | Some l => exists room, heap s !! l = Some room /\ r_isPrivate room = isPrivateMode s
  | None => True
  end.

(** A run of received datagrams, each with what its handling reads from the
    surroundings, delivered in arrival order. *)
Definition deliverAll (stream : list (Datagram * Env)) (st : Comm * Manager)
    : Comm * Manager :=
  fold_left (fun st' item => deliver (fst item) (snd item) st') stream st.

(** [user] with [isOnline] set to [false]. *)
Definition offline (user : User) : User :=
  {| u_userId := u_userId user; u_username := u_username user;
     u_lastSeen := u_lastSeen user; u_isOnline := false |}.

(** A message to send: its text, its [type], and what the sending reads
    from the surroundings. *)
Definition Outgoing : Type := string * string * Env.

(** The chat datagram that [sendMessage] builds in state [s], [room] being
    the current room. *)
Definition chatFor (s : Manager) (room : Room) (msg : Outgoing) : ChatData :=
  let '(content, type, env) := msg in
  {| c_messageId := random env;
     c_roomId := r_id room;
     c_fromUserId := ChatManager.myUserId s;
     c_fromUsername := myUsername s;
     c_content :=
       if isPrivateMode s && hasKey s
       then encryptMessage content (default "" (encryptionKey s))
       else content;
     c_messageType := type;
     c_isEncrypted := isPrivateMode s;
     c_timestamp := now env |}.

(** The messages sent one after the other ([sendMessage] stops the run
    where it throws). *)
Fixpoint sendAll (msgs : list Outgoing) (s : Manager) : Manager :=
  match msgs with
  | [] => s
  | (content, type, env) :: msgs' =>
      match sendMessage content type env s with
      | Some (_, s') => sendAll msgs' s'
      | None => s
      end
  end.

(** One call of a method of the manager, from the user interface, a timer
    or an incoming datagram. *)
Inductive step : Manager -> Manager -> Prop :=
| step_createOrJoinRoom roomId isPrivate key env s :
    step s (snd (createOrJoinRoom roomId isPrivate key env s))
| step_inviteUser userId roomId env s s' :
    inviteUser userId roomId env s = Some s' -> step s s'
| step_acceptInvite inviteData env s :
    step s (acceptInvite inviteData env s)
| step_sendMessage content type env s message s' :
    sendMessage content type env s = Some (message, s') -> step s s'
| step_togglePrivacyMode key env env' s :
    step s (snd (togglePrivacyMode key env env' s))
| step_leaveRoom env s :
    step s (leaveRoom env s)
| step_handleIncomingData data env s :
    step s (handleIncomingData data env s)
| step_handleUserDetected userId userData env s :
    step s (ChatManager.handleUserDetected userId userData env s)
| step_cleanupOfflineUsers now s :
    step s (cleanupOfflineUsers now s)
| step_broadcastRoomUpdate env s :
    step s (broadcastRoomUpdate env s)
| step_clearHistory s :
    step s (clearHistory s).

(** The states of a manager in use. *)
Inductive reachable : Manager -> Prop :=
| reachable_new userId username : reachable (newManager userId username)
| reachable_step s s' : reachable s -> step s s' -> reachable s'.

(** *** Vocabulary for further properties of the codec *)

(** A vector of received bits: every element is the number 0 or 1, as the
    detectors post them. *)
Definition isBits (bits : list Z) : bool :=
  forallb (fun bit => (bit =? 0) || (bit =? 1)) bits.

(** What [processBit] keeps true of the receiver: at most 1000 buffered
    bits, and only byte arrays of at most 32 bytes handed over. *)
Definition bounded (r : Receiver) : Prop :=
  (forall buffer, bitBuffer r = Some buffer -> (length buffer <= 1000)%nat) /\
  Forall (fun q => (length q <= 32)%nat /\ isBytes q = true) (received r).

(** *** Vocabulary for further properties of the session *)

(** The [isOwn] flag of a history entry tells whether the local user wrote
    it. *)
Definition flagged (myUserId : string) (m : Message) : Prop :=
  match m with
  | ChatMessage data isOwn => isOwn = true <-> c_fromUserId data = myUserId
  | SystemMessage _ _ _ => True
  end.

(** The room registry: every entry of [rooms] refers to a room object whose
    [id] is its key, and the current room is the object entered under its
    own [id]. *)
Definition registered (s : Manager) : Prop :=
  (forall roomId l, rooms s !! roomId = Some l ->
     exists room, heap s !! l = Some room /\ r_id room = roomId) /\
  (forall l, currentRoom s = Some l ->
     exists room, heap s !! l = Some room /\ rooms s !! r_id room = Some l).

(** In private mode the key of the manager is the key of the current
    room. *)
Definition keyed (s : Manager) : Prop :=
  forall l room, currentRoom s = Some l -> heap s !! l = Some room ->
    isPrivateMode s = true -> r_encryptionKey room = encryptionKey s.

(** Every user of [connectedUsers] is entered under their own [userId]. *)
Definition usersKeyed (s : Manager) : Prop :=
  forall userId user, connectedUsers s !! userId = Some user -> u_userId user = userId.

(** The user a datagram names as its sender, for the types that name one. *)
Definition senderOf (data : Datagram) : option string :=
  match data with
  | Announce b => Some (b_userId b)
  | Chat d => Some (c_fromUserId d)
  | Invite d => Some (i_fromUserId d)
  | JoinRoom d | LeaveRoom d => Some (m_userId d)
  | PrivateKey d => Some (k_fromUserId d)
  | RoomUpdate _ | Unknown _ => None
  end.

(** A datagram that the manager of user [myUserId] may hand to
    [transmitData]: of one of its own six types, and naming that user as
    the sender when it names one. *)
Definition signedBy (myUserId : string) (data : Datagram) : Prop :=
  match data with
  | Announce _ | Unknown _ => False
  | _ => forall sender, senderOf data = Some sender -> sender = myUserId
  end.

(** What one call does to the history: nothing, or it empties it, or it
    files one message through [addMessage], whose [isOwn] flag is right;
    and the local user stays who they are. *)
Definition historyEffect (s s' : Manager) : Prop :=
  ChatManager.myUserId s' = ChatManager.myUserId s /\
  (messageHistory s' = messageHistory s \/
   messageHistory s' = [] \/
   exists m, messageHistory s' = messageHistory (addMessage m s) /\
             flagged (ChatManager.myUserId s) m).

(** What one call does to the datagrams handed to [transmitData]: nothing,
    or one more datagram, signed by the local user. *)
Definition transmitEffect (s s' : Manager) : Prop :=
  transmitted s' = transmitted s \/
  exists data, transmitted s' = transmitted s ++ [data] /\
               signedBy (ChatManager.myUserId s) data.

(** A chat datagram with its [content] replaced: [{...data, content}]. *)
Definition withContent (data : ChatData) (content : string) : ChatData :=
  {| c_messageId := c_messageId data; c_roomId := c_roomId data;
     c_fromUserId := c_fromUserId data; c_fromUsername := c_fromUsername data;
     c_content := content; c_messageType := c_messageType data;
     c_isEncrypted := c_isEncrypted data; c_timestamp := c_timestamp data |}.

(** A received datagram that does not concern the manager: a chat message
    for another room or of the local user, an invitation for someone else,
    a join_room, leave_room or private_key datagram for another room, a
    room_update for a private room or for a room already known, a beacon of
    the local user, a datagram of a type the application does not know. *)
Definition unconcerned (comm : Comm) (s : Manager) (data : Datagram) : bool :=
  match data with
  | Announce b => String.eqb (b_userId b) (UltrasonicComm.myUserId comm)
  | Chat d =>
      negb (inRoom s (c_roomId d)) || String.eqb (c_fromUserId d) (ChatManager.myUserId s)
  | Invite d => negb (String.eqb (i_toUserId d) (ChatManager.myUserId s))
  | JoinRoom d | LeaveRoom d => negb (inRoom s (m_roomId d))
  | RoomUpdate d => ru_isPrivate d || bool_decide (is_Some (rooms s !! ru_roomId d))
  | PrivateKey d => negb (inRoom s (k_roomId d))
  | Unknown _ => true
  end.

From Stdlib Require DecimalString.

(** ** The JSON text of a datagram

    [JSON.stringify(data)] for the objects that the application hands to
    [transmitData]: the members in the order in which the object literal
    lists them, no white space between the tokens.  A time stamp is an
    integer of milliseconds, printed in decimal. *)

Module Json.

Definition quotationMark : ascii := "034"%char.
Definition reverseSolidus : ascii := "092"%char.

(** The text that QuoteJSONString writes for one character of a string: the
    two-character escapes, [\u00XX] for the other control characters, the
    character itself otherwise (the bytes of a multi-byte character are
    all above 127 and pass unchanged). *)
Definition escape (ch : ascii) : string :=
  let n := Z.of_N (N_of_ascii ch) in
  if n =? 8 then "\b"
  else if n =? 9 then "\t"
  else if n =? 10 then "\n"
  else if n =? 12 then "\f"
  else if n =? 13 then "\r"
  else if n =? 34 then String reverseSolidus (String quotationMark "")
  else if n =? 92 then String reverseSolidus (String reverseSolidus "")
  else if n <? 32 then "\u00" ++ toHex2 n
  else String ch "".

(** A string value, between quotation marks. *)
Definition quoteJSONString (s : string) : string :=
  String quotationMark
    (String.concat "" (map escape (list_ascii_of_string s)) ++ String quotationMark "").

(** An integer value. *)
Definition number (n : Z) : string :=
  DecimalString.NilZero.string_of_int (Z.to_int n).

Definition boolean (b : bool) : string := if b then "true" else "false".

(** One member [key: value] of an object, and the object of its members. *)
Definition member (key value : string) : string := quoteJSONString key ++ ":" ++ value.

Definition object (members : list string) : string :=
  "{" ++ String.concat "," members ++ "}".

(** The object literals of [sendHeartbeat] and [sendDiscovery]. *)
Definition stringifyBeacon (b : Beacon) : string :=
  object [member "type"
            (quoteJSONString
               match b_kind b with heartbeat => "heartbeat" | discovery => "discovery" end);
          member "userId" (quoteJSONString (b_userId b));
          member "username" (quoteJSONString (b_username b));
          member "timestamp" (number (b_timestamp b))].

(** The object literal of [sendMessage]. *)
Definition stringifyChat (d : ChatData) : string :=
  object [member "type" (quoteJSONString "chat");
          member "messageId" (quoteJSONString (c_messageId d));
          member "roomId" (quoteJSONString (c_roomId d));
          member "fromUserId" (quoteJSONString (c_fromUserId d));
          member "fromUsername" (quoteJSONString (c_fromUsername d));
          member "content" (quoteJSONString (c_content d));
          member "messageType" (quoteJSONString (c_messageType d));
          member "isEncrypted" (boolean (c_isEncrypted d));
          member "timestamp" (number (c_timestamp d))].

(** The object of [inviteUser]: [encryptionKey] is added last, and only for
    a private room. *)
Definition stringifyInvite (d : InviteData) : string :=
  object ([member "type" (quoteJSONString "invite");
           member "fromUserId" (quoteJSONString (i_fromUserId d));
           member "fromUsername" (quoteJSONString (i_fromUsername d));
           member "toUserId" (quoteJSONString (i_toUserId d));
           member "roomId" (quoteJSONString (i_roomId d));
           member "roomName" (quoteJSONString (i_roomName d));
           member "isPrivate" (boolean (i_isPrivate d));
           member "timestamp" (number (i_timestamp d))]
          ++ match i_encryptionKey d with
             | Some key => [member "encryptionKey" (quoteJSONString key)]
             | None => []
             end).

(** The object literals of [acceptInvite] ([type] join_room) and of
    [leaveRoom] ([type] leave_room). *)
Definition stringifyMember (type : string) (d : MemberData) : string :=
  object [member "type" (quoteJSONString type);
          member "userId" (quoteJSONString (m_userId d));
          member "username" (quoteJSONString (m_username d));
          member "roomId" (quoteJSONString (m_roomId d));
          member "timestamp" (number (m_timestamp d))].

(** The object literal of [broadcastRoomUpdate]. *)
Definition stringifyRoomUpdate (d : RoomUpdateData) : string :=
  object [member "type" (quoteJSONString "room_update");
          member "roomId" (quoteJSONString (ru_roomId d));
          member "roomName" (quoteJSONString (ru_roomName d));
          member "memberCount" (number (Z.of_nat (ru_memberCount d)));
          member "isPrivate" (boolean (ru_isPrivate d));
          member "createdBy" (quoteJSONString (ru_createdBy d));
          member "timestamp" (number (ru_timestamp d))].

(** The object literal of [distributeEncryptionKey]. *)
Definition stringifyKey (d : KeyData) : string :=
  object [member "type" (quoteJSONString "private_key");
          member "roomId" (quoteJSONString (k_roomId d));
          member "encryptionKey" (quoteJSONString (k_encryptionKey d));
          member "fromUserId" (quoteJSONString (k_fromUserId d));
          member "timestamp" (number (k_timestamp d))].

(** The text of a datagram of one of the types the application builds. *)
Definition stringify (data : Datagram) : option string :=
  match data with
  | Announce b => Some (stringifyBeacon b)
  | Chat d => Some (stringifyChat d)
  | Invite d => Some (stringifyInvite d)
  | JoinRoom d => Some (stringifyMember "join_room" d)
  | LeaveRoom d => Some (stringifyMember "leave_room" d)
  | RoomUpdate d => Some (stringifyRoomUpdate d)
  | PrivateKey d => Some (stringifyKey d)
  | Unknown _ => None
  end.

End Json.

(** ** class UltrasonicComm: the transmitting side *)

Module Transmitter.

(** [this.config]: the two frequencies of each FSK profile. *)
Definition freq0 (mode : Mode) : Z :=
  match mode with high => 18700 | low => 17500 end.

Definition freq1 (mode : Mode) : Z :=
  match mode with high => 19300 | low => 18100 end.

(** [this.audioContext.state]. *)
Inductive ContextState := running | suspended.

(** The fields of the object that sending reads and writes, the calls of
    [onStatusChange] and the bit vectors played, each with the mode whose
    frequencies and bit rate shaped its tone, all oldest first. *)
Record Radio := {
  isInitialized : bool;
  isTransmitting : bool;
  contextState : ContextState;
  currentMode : Mode;
  statusLog : list (string * string);
  played : list (Mode * list Z)
}.

Definition set_isTransmitting (v : bool) (r : Radio) : Radio :=
  {| isInitialized := isInitialized r; isTransmitting := v;
     contextState := contextState r; currentMode := currentMode r;
     statusLog := statusLog r; played := played r |}.

(** [await this.audioContext.resume()], which is taken to succeed. *)
Definition resume (r : Radio) : Radio :=
  {| isInitialized := isInitialized r; isTransmitting := isTransmitting r;
     contextState := running; currentMode := currentMode r;
     statusLog := statusLog r; played := played r |}.

(** [updateStatus(status, message)], the slot [onStatusChange] installed. *)
Definition updateStatus (status message : string) (r : Radio) : Radio :=
  {| isInitialized := isInitialized r; isTransmitting := isTransmitting r;
     contextState := contextState r; currentMode := currentMode r;
     statusLog := statusLog r ++ [(status, message)]; played := played r |}.

(** [await generateTone(bits)]: one tone burst per bit, at [freq1] or
    [freq0] of the current mode; the samples are not modelled, the burst is
    entered in [played]. *)
Definition generateTone (bits : list Z) (r : Radio) : Radio :=
  {| isInitialized := isInitialized r; isTransmitting := isTransmitting r;
     contextState := contextState r; currentMode := currentMode r;
     statusLog := statusLog r; played := played r ++ [(currentMode r, bits)] |}.

(** [transmitData(data)], [payload] being the UTF-8 bytes of
    [JSON.stringify(data)]: the value returned and the new state.  The
    [catch] branch is the one of the [Error] that [encodePacket] throws. *)
Definition transmitData (payload : list Z) (r : Radio) : bool * Radio :=
  if negb (isInitialized r) || isTransmitting r then (false, r)
  else
    let r1 := match contextState r with suspended => resume r | running => r end in
    let r2 := updateStatus "transmitting" "正在发送" (set_isTransmitting true r1) in
    match encodePacket payload with
    | Some packet =>
        let bits := createBitStream packet in
        let r3 := generateTone bits r2 in
        (true, updateStatus "ready" "发送完成" (set_isTransmitting false r3))
    | None =>
        (false, updateStatus "error" "发送失败" (set_isTransmitting false r2))
    end.

(** [getUsername()], [stored] being [localStorage.getItem('username')]. *)
Definition getUsername (stored : option string) (myUserId : string) : string :=
  orElse (default "" stored) ("用户" ++ substring 0 4 myUserId).

(** [sendHeartbeat()] and [sendDiscovery()]. *)
Definition sendHeartbeat (stored : option string) (env : Env) (c : Comm) (r : Radio)
    : Radio :=
  let heartbeat :=
    {| b_kind := heartbeat; b_userId := UltrasonicComm.myUserId c;
       b_username := getUsername stored (UltrasonicComm.myUserId c);
       b_timestamp := now env |} in
  snd (transmitData (encode (Json.stringifyBeacon heartbeat)) r).

Definition sendDiscovery (stored : option string) (env : Env) (c : Comm) (r : Radio)
    : Radio :=
  let discovery :=
    {| b_kind := discovery; b_userId := UltrasonicComm.myUserId c;
       b_username := getUsername stored (UltrasonicComm.myUserId c);
       b_timestamp := now env |} in
  snd (transmitData (encode (Json.stringifyBeacon discovery)) r).

End Transmitter.

(** ** class UltrasonicProcessor

    The AudioWorklet processor whose code [loadAudioWorklet] registers: it
    fills a ring buffer with the samples of the microphone, looks for the
    two FSK tones each time the buffer has been filled, and posts the bits
    it detects to the main thread, where [startReceiving] hands each of
    them to [processBit].  The Goertzel filter is floating-point
    arithmetic on the samples and is kept abstract: [goertzel] is any
    function of the buffer and the frequency, [None] being [NaN].  Times
    are rationals, compared exactly; the ring index is a [Z]. *)

Module UltrasonicProcessor.

Definition bufferSize : Z := 4096.
Definition threshold : Q := 1 # 100.
Definition sampleRate : Z := 48000.

(** [a > b] on magnitudes: false when one of them is [NaN]. *)
Definition greater (a b : option Q) : bool :=
  match a, b with
  | Some x, Some y => negb (Qle_bool x y)
  | _, _ => false
  end.

Section Detector.

Context {Sample : Type}.
Variable goertzel : list Sample -> Z -> option Q.

(** The fields of the processor, and the messages [{type: 'bit', bit,
    timestamp}] it has posted, oldest first. *)
Record Processor := {
  buffer : list Sample;
  bufferIndex : Z;
  freqs : Z * Z;
  bitDuration : Q;
  lastBitTime : Q;
  posted : list (Z * Q)
}.

(** The state the constructor leaves, [zero] being the sample 0 that a new
    [Float32Array] holds. *)
Definition newProcessor (zero : Sample) : Processor :=
  {| buffer := replicate (Z.to_nat bufferSize) zero;
     bufferIndex := 0;
     freqs := (18700, 19300);
     bitDuration := (inject_Z sampleRate / 40)%Q;
     lastBitTime := 0%Q;
     posted := [] |}.

(** [this.port.onmessage] for the message [{type: 'config', freq0, freq1,
    bitRate}] that [startReceiving] and [setMode] build from
    [this.config[this.currentMode]]. *)
Definition onmessage (mode : Mode) (p : Processor) : Processor :=
  {| buffer := buffer p;
     bufferIndex := bufferIndex p;
     freqs := (Transmitter.freq0 mode, Transmitter.freq1 mode);
     bitDuration := (inject_Z sampleRate / inject_Z (bitRate mode))%Q;
     lastBitTime := lastBitTime p;
     posted := posted p |}.

(** [detectFrequency()], [currentFrame] being the global of that name. *)
Definition detectFrequency (currentFrame : Z) (p : Processor) : Processor :=
  let result0 := goertzel (buffer p) (fst (freqs p)) in
  let result1 := goertzel (buffer p) (snd (freqs p)) in
  if greater result0 (Some threshold) || greater result1 (Some threshold) then
    let bit := if greater result1 result0 then 1 else 0 in
    let currentTime := (inject_Z currentFrame / inject_Z sampleRate)%Q in
    if negb (Qle_bool (currentTime - lastBitTime p) (bitDuration p * (8 # 10))%Q) then
      {| buffer := buffer p;
         bufferIndex := bufferIndex p;
         freqs := freqs p;
         bitDuration := bitDuration p;
         lastBitTime := currentTime;
         posted := posted p ++ [(bit, currentTime)] |}
    else p
  else p.

(** The loop of [process] over the samples of the first channel. *)
Fixpoint store (currentFrame : Z) (channelData : list Sample) (p : Processor)
    : Processor :=
  match channelData with
  | [] => p
  | sample :: channelData' =>
      let p1 :=
        {| buffer := <[Z.to_nat (bufferIndex p) := sample]> (buffer p);
           bufferIndex := (bufferIndex p + 1) mod bufferSize;
           freqs := freqs p;
           bitDuration := bitDuration p;
           lastBitTime := lastBitTime p;
           posted := posted p |} in
      let p2 := if bufferIndex p1 =? 0 then detectFrequency currentFrame p1 else p1 in
      store currentFrame channelData' p2
  end.

(** [process(inputs, outputs, parameters)], [input] being [inputs[0]], the
    channels of the first input. *)
Definition process (currentFrame : Z) (input : list (list Sample)) (p : Processor)
    : Processor :=
  match input with
  | channelData :: _ => store currentFrame channelData p
  | [] => p
  end.

(** What happens to the processor: a configuration message, or the
    rendering of one block of audio. *)
Inductive Event :=
| Configure (mode : Mode)
| Render (currentFrame : Z) (input : list (list Sample)).

Definition handle (p : Processor) (event : Event) : Processor :=
  match event with
  | Configure mode => onmessage mode p
  | Render currentFrame input => process currentFrame input p
  end.

(** The processor after a run of events, from its construction. *)
Definition runProcessor (zero : Sample) (events : list Event) : Processor :=
  fold_left handle events (newProcessor zero).

End Detector.

End UltrasonicProcessor.

(** *** Vocabulary for the properties of the worklet *)

(** Every time stamp of [messages] is more than [gap] seconds after the one
    before it, the first one after [last]. *)
Fixpoint spaced (gap last : Q) (messages : list (Z * Q)) : Prop :=
  match messages with
  | [] => True
  | (_, t) :: messages' => (gap < t - last)%Q /\ spaced gap t messages'
  end.

(** ** class ChaosChatApp: inviting from the radar *)

Module ChaosChatApp.

(** [inviteUser(userId, userData)], [username] being [userData.username]:
    the text of the toast shown and the new state of the chat manager.
    [env] serves [createOrJoinRoom()], which is called with its defaults
    when no room is current, [env'] serves [inviteUser]. *)
Definition inviteUser (userId username : string) (env env' : Env) (s : Manager)
    : string * Manager :=
  let s1 :=
    match currentRoom s with
    | None => snd (createOrJoinRoom None false "" env s)
    | Some _ => s
    end in
  match ChatManager.inviteUser userId None env' s1 with
  | Some s2 => (("已邀请 " ++ orElse username "用户" ++ " 加入聊天")%string, s2)
  | None =>
      let message :=
        if String.eqb (default "" (r_id <$> theRoom s1)) ""
        then "没有活动的聊天室" else "聊天室不存在" in
      (("邀请失败: " ++ message)%string, s1)
  end.

End ChaosChatApp.

(** * Properties *)

(** ** The frame codec *)

Section Bits.

Lemma byteBits_length b : length (byteBits b) = 8%nat.
Proof. reflexivity. Qed.

Lemma createBitStream_cons b bs :
  createBitStream (b :: bs) = byteBits b ++ createBitStream bs.
Proof. reflexivity. Qed.

Lemma createBitStream_app bs1 bs2 :
  createBitStream (bs1 ++ bs2) = createBitStream bs1 ++ createBitStream bs2.
Proof. unfold createBitStream. apply flat_map_app. Qed.

Lemma createBitStream_length bs :
  length (createBitStream bs) = (length bs * 8)%nat.
Proof.
  induction bs as [|b bs IH]; [reflexivity|].
  rewrite createBitStream_cons, length_app, byteBits_length, IH. simpl. lia.
Qed.

Lemma readByte_ext b1 i1 b2 i2 :
  (forall j, (j < 8)%nat -> nth (i1 + j) b1 0 = nth (i2 + j) b2 0) ->
  readByte b1 i1 = readByte b2 i2.
Proof.
  intros H. unfold readByte. simpl.
  rewrite !H by lia. reflexivity.
Qed.

Lemma byte_cases (P : Z -> Prop) :
  (forall n, (n < 256)%nat -> P (Z.of_nat n)) -> forall b, 0 <= b < 256 -> P b.
Proof.
  intros H b Hb. rewrite <- (Z2Nat.id b) by lia. apply H. lia.
Qed.

Lemma readByte_byteBits_check :
  forallb (fun n => readByte (byteBits (Z.of_nat n)) 0 =? Z.of_nat n) (seq 0 256) = true.
Proof. vm_compute. reflexivity. Qed.

Lemma readByte_byteBits b : 0 <= b < 256 -> readByte (byteBits b) 0 = b.
Proof.
  revert b. apply byte_cases. intros n Hn.
  pose proof readByte_byteBits_check as H.
  rewrite forallb_forall in H. apply Z.eqb_eq, H, in_seq. lia.
Qed.

End Bits.

Section Stream.

Lemma isBytes_Forall bytes : isBytes bytes = true <-> Forall (fun b => 0 <= b < 256) bytes.
Proof.
  unfold isBytes. rewrite forallb_forall, Forall_forall.
  split; intros H b Hb; specialize (H b); [apply list_elem_of_In in Hb|apply list_elem_of_In in Hb];
    specialize (H Hb); lia.
Qed.

Lemma isBytes_app l1 l2 : isBytes (l1 ++ l2) = isBytes l1 && isBytes l2.
Proof. apply forallb_app. Qed.

Lemma isBytes_nth bytes k : isBytes bytes = true -> 0 <= nth k bytes 0 < 256.
Proof.
  intros H. destruct (Nat.lt_ge_cases k (length bytes)) as [Hk|Hk].
  - unfold isBytes in H. rewrite forallb_forall in H.
    specialize (H (nth k bytes 0) (nth_In _ _ Hk)). lia.
  - rewrite nth_overflow by lia. lia.
Qed.

Lemma toUint8Array_id bytes : isBytes bytes = true -> toUint8Array bytes = bytes.
Proof.
  induction bytes as [|b bs IH]; [reflexivity|]. simpl. intros H.
  apply andb_prop in H as [Hb Hbs]. rewrite IH by assumption.
  rewrite Z.mod_small by lia. reflexivity.
Qed.

Lemma calculateCRC_range data : 0 <= calculateCRC data < 256.
Proof.
  unfold calculateCRC. change 255 with (Z.ones 8).
  rewrite Z.land_ones by lia. apply Z.mod_pos_bound. lia.
Qed.

Lemma nth_stream bytes tail k j :
  (k < length bytes)%nat -> (j < 8)%nat ->
  nth (k * 8 + j) (createBitStream bytes ++ tail) 0 = nth j (byteBits (nth k bytes 0)) 0.
Proof.
  revert k. induction bytes as [|b bs IH]; intros k Hk Hj; [simpl in Hk; lia|].
  rewrite createBitStream_cons, <- app_assoc. destruct k as [|k].
  - simpl Nat.add. rewrite app_nth1 by (rewrite byteBits_length; lia). reflexivity.
  - rewrite app_nth2 by (rewrite byteBits_length; lia).
    rewrite byteBits_length. replace (S k * 8 + j - 8)%nat with (k * 8 + j)%nat by lia.
    simpl in Hk. rewrite IH by lia. reflexivity.
Qed.

Lemma readByte_stream bytes tail k :
  isBytes bytes = true -> (k < length bytes)%nat ->
  readByte (createBitStream bytes ++ tail) (k * 8) = nth k bytes 0.
Proof.
  intros Hb Hk. rewrite <- (readByte_byteBits (nth k bytes 0)) by (apply isBytes_nth, Hb).
  apply readByte_ext. intros j Hj. rewrite nth_stream by assumption. reflexivity.
Qed.

Lemma nth_firstn_lt {A} (l : list A) n i d : (i < n)%nat -> nth i (firstn n l) d = nth i l d.
Proof.
  revert n i. induction l as [|x l IH]; intros n i Hi.
  - rewrite firstn_nil. reflexivity.
  - destruct n as [|n]; [lia|]. destruct i as [|i]; [reflexivity|].
    simpl. apply IH. lia.
Qed.

Lemma readByte_firstn buffer n i :
  (i + 8 <= n)%nat -> readByte (firstn n buffer) i = readByte buffer i.
Proof. intros H. apply readByte_ext. intros j Hj. apply nth_firstn_lt. lia. Qed.

Lemma readByte_prefix bytes n k :
  isBytes bytes = true -> (k * 8 + 8 <= n)%nat -> (n <= length bytes * 8)%nat ->
  readByte (firstn n (createBitStream bytes)) (k * 8) = nth k bytes 0.
Proof.
  intros Hb Hk Hn. rewrite readByte_firstn by lia.
  rewrite <- (app_nil_r (createBitStream bytes)). apply readByte_stream; [assumption|lia].
Qed.

End Stream.

Section Header.

Lemma forallb_ext_in {A} (f g : A -> bool) l :
  (forall x, In x l -> f x = g x) -> forallb f l = forallb g l.
Proof.
  induction l as [|x l IH]; intros H; [reflexivity|]. simpl.
  rewrite (H x) by (left; reflexivity). rewrite IH; [reflexivity|].
  intros y Hy. apply H. right. assumption.
Qed.

Lemma forallb_map_seq {A B} (f : B -> bool) (g : A -> B) l :
  forallb f (map g l) = forallb (fun x => f (g x)) l.
Proof. induction l as [|x l IH]; [reflexivity|]. simpl. rewrite IH. reflexivity. Qed.

Lemma matchHeaderFrom_spec buffer start header i :
  matchHeaderFrom buffer start header i =
  forallb (fun t => readByte buffer (start + (i + t) * 8) =? nth t header 0)
          (seq 0 (length header)).
Proof.
  revert i. induction header as [|h header IH]; intros i; [reflexivity|].
  cbn [matchHeaderFrom length seq forallb nth]. rewrite Nat.add_0_r.
  destruct (readByte buffer (start + i * 8) =? h); [|reflexivity].
  rewrite IH. rewrite <- seq_shift, forallb_map_seq. cbn [andb].
  apply forallb_ext_in. intros t _. cbn [nth]. rewrite Nat.add_succ_r. reflexivity.
Qed.

Lemma matchHeader_spec buffer start :
  matchHeader buffer start =
  forallb (fun t => readByte buffer (start + t * 8) =? nth t packetHeader 0) (seq 0 8).
Proof. unfold matchHeader. rewrite matchHeaderFrom_spec. reflexivity. Qed.

Lemma matchHeader_prefix bytes n k :
  isBytes bytes = true -> (k * 8 + 64 <= n)%nat -> (n <= length bytes * 8)%nat ->
  matchHeader (firstn n (createBitStream bytes)) (k * 8) = syncAt bytes k.
Proof.
  intros Hb Hk Hn. rewrite matchHeader_spec. unfold syncAt.
  apply forallb_ext_in. intros t Ht. apply in_seq in Ht.
  replace (k * 8 + t * 8)%nat with ((k + t) * 8)%nat by lia.
  rewrite readByte_prefix by (assumption || lia). reflexivity.
Qed.

Lemma syncAt_true_iff bytes k :
  syncAt bytes k = true <-> forall t, (t < 8)%nat -> nth (k + t) bytes 0 = nth t packetHeader 0.
Proof.
  unfold syncAt. rewrite forallb_forall. split.
  - intros H t Ht. apply Z.eqb_eq, H, in_seq. lia.
  - intros H t Ht. apply in_seq in Ht. apply Z.eqb_eq, H. lia.
Qed.

Lemma syncAt_ext b1 b2 k1 k2 :
  (forall t, (t < 8)%nat -> nth (k1 + t) b1 0 = nth (k2 + t) b2 0) ->
  syncAt b1 k1 = syncAt b2 k2.
Proof.
  intros H. unfold syncAt. apply forallb_ext_in. intros t Ht. apply in_seq in Ht.
  rewrite H by lia. reflexivity.
Qed.

Lemma syncFree_lt n bytes k :
  syncFree n bytes = true -> (k < n)%nat -> syncAt bytes k = false.
Proof.
  unfold syncFree. rewrite forallb_forall. intros H Hk.
  apply negb_true_iff, H, in_seq. lia.
Qed.

Lemma frameWith_length p c : length (frameWith p c) = (10 + length p)%nat.
Proof. unfold frameWith. rewrite !length_app. simpl. lia. Qed.

(** In front of the frame: only what the junk itself holds. *)
Lemma syncAt_junk j p c k :
  (k < length j)%nat -> syncAt (j ++ frameWith p c) k = syncAt (j ++ packetHeader) k.
Proof.
  intros Hk. apply syncAt_ext. intros t Ht.
  destruct (Nat.lt_ge_cases (k + t) (length j)) as [H|H].
  - rewrite !app_nth1 by assumption. reflexivity.
  - rewrite !app_nth2 by assumption. unfold frameWith.
    rewrite app_nth1 by (simpl; lia). reflexivity.
Qed.

Lemma syncAt_frame_start j p c : syncAt (j ++ frameWith p c) (length j) = true.
Proof.
  apply syncAt_true_iff. intros t Ht. rewrite app_nth2 by lia.
  replace (length j + t - length j)%nat with t by lia.
  unfold frameWith. rewrite app_nth1 by (simpl; lia). reflexivity.
Qed.

(** Inside the frame, before its last byte has arrived: the header only
    re-occurs where the payload holds a copy of it. *)
Lemma syncAt_inside j p c b :
  (length p <= 32)%nat -> syncFree (length p) p = true ->
  (1 <= b)%nat -> (b + 8 <= 9 + length p)%nat ->
  syncAt (j ++ frameWith p c) (length j + b) = false.
Proof.
  intros Hp Hfree Hb1 Hb2. apply not_true_is_false. intros H.
  rewrite syncAt_true_iff in H.
  assert (H' : forall t, (t < 8)%nat -> nth (b + t) (frameWith p c) 0 = nth t packetHeader 0).
  { intros t Ht. rewrite <- H by assumption. rewrite app_nth2 by lia. f_equal. lia. }
  clear H. unfold frameWith in H'. rewrite Z.mod_small in H' by lia.
  do 9 (destruct b as [|b]; [first [ lia
    | pose proof (H' 0%nat ltac:(lia)) as H0; simpl in H0; lia
    | pose proof (H' 1%nat ltac:(lia)) as H0; simpl in H0; lia
    | pose proof (H' 3%nat ltac:(lia)) as H0; simpl in H0; lia ]|]).
  assert (Hs : syncAt p b = true).
  { apply syncAt_true_iff. intros t Ht. rewrite <- H' by assumption.
    change (S (S (S (S (S (S (S (S (S b)))))))) + t)%nat with (9 + (b + t))%nat.
    change (packetHeader ++ [Z.of_nat (length p)] ++ p ++ [c])
      with ([1;0;1;0;1;1;0;1; Z.of_nat (length p)] ++ (p ++ [c])).
    rewrite app_nth2 by (simpl; lia). simpl length.
    replace (9 + (b + t) - 9)%nat with (b + t)%nat by lia.
    rewrite app_nth1 by lia. reflexivity. }
  rewrite (syncFree_lt (length p) p b) in Hs by (assumption || lia). discriminate.
Qed.

End Header.

Section Extract.

Lemma length_prefix bytes n :
  (n <= length bytes * 8)%nat -> length (firstn n (createBitStream bytes)) = n.
Proof. intros H. rewrite length_firstn, createBitStream_length. lia. Qed.

Lemma frameWith_isBytes p c :
  isBytes p = true -> (length p <= 32)%nat -> 0 <= c < 256 ->
  isBytes (frameWith p c) = true.
Proof.
  intros Hb Hp Hc. unfold frameWith. rewrite !isBytes_app, Hb. simpl.
  rewrite Z.mod_small by lia.
  repeat (apply andb_true_intro; split); lia.
Qed.

Lemma stream_isBytes j p c post :
  isBytes j = true -> isBytes p = true -> (length p <= 32)%nat -> 0 <= c < 256 ->
  isBytes post = true ->
  isBytes (j ++ frameWith p c ++ post) = true.
Proof.
  intros Hj Hb Hp Hc Hpost.
  rewrite !isBytes_app, frameWith_isBytes, Hj, Hpost by assumption. reflexivity.
Qed.

Lemma nth_frame_length j p c post :
  (length p <= 32)%nat ->
  nth (length j + 8) (j ++ frameWith p c ++ post) 0 = Z.of_nat (length p).
Proof.
  intros Hp. rewrite app_nth2 by lia. replace (length j + 8 - length j)%nat with 8%nat by lia.
  unfold frameWith. simpl. apply Z.mod_small. lia.
Qed.

(** The frame is not all there yet: [extractPacket] gives it up. *)
Lemma extractPacket_incomplete j p c n :
  isBytes j = true -> isBytes p = true -> (length p <= 32)%nat -> 0 <= c < 256 ->
  (n < (length j + 10 + length p) * 8)%nat ->
  extractPacket (firstn n (createBitStream (j ++ frameWith p c))) (length j * 8) = None.
Proof.
  intros Hj Hb Hp Hc Hn.
  assert (HB : length (j ++ frameWith p c) = (length j + 10 + length p)%nat)
    by (rewrite length_app, frameWith_length; lia).
  assert (Hlen : length (firstn n (createBitStream (j ++ frameWith p c))) = n)
    by (apply length_prefix; lia).
  assert (Hall : isBytes (j ++ frameWith p c) = true).
  { rewrite <- (app_nil_r (frameWith p c)). apply stream_isBytes; (assumption || reflexivity). }
  unfold extractPacket. change (length packetHeader) with 8%nat. cbv beta zeta.
  rewrite Hlen. destruct (Nat.ltb_spec n (length j * 8 + 8 * 8 + 8)) as [|H1]; [reflexivity|].
  replace (length j * 8 + 8 * 8)%nat with ((length j + 8) * 8)%nat by lia.
  rewrite readByte_prefix by (assumption || lia).
  rewrite <- (app_nil_r (frameWith p c)), nth_frame_length by assumption.
  destruct (Z.ltb_spec maxPayloadLength (Z.of_nat (length p))) as [|H2]; [reflexivity|].
  rewrite Nat2Z.id.
  destruct (Nat.ltb_spec n (length j * 8 + (8 + 1 + length p + 1) * 8)) as [|H3]; [reflexivity|].
  lia.
Qed.

Lemma map_nth_window {A} (pre mid post : list A) d :
  map (fun i => nth (length pre + i) (pre ++ mid ++ post) d) (seq 0 (length mid)) = mid.
Proof.
  apply nth_ext with (d := d) (d' := d).
  - rewrite length_map, length_seq. reflexivity.
  - intros i Hi. rewrite length_map, length_seq in Hi.
    rewrite (nth_indep _ d (nth (length pre + 0) (pre ++ mid ++ post) d))
      by (rewrite length_map, length_seq; assumption).
    rewrite (map_nth (fun i => nth (length pre + i) (pre ++ mid ++ post) d)).
    rewrite seq_nth by assumption. simpl.
    rewrite app_nth2 by lia. replace (length pre + i - length pre)%nat with i by lia.
    apply app_nth1. assumption.
Qed.

Lemma slice_frame p c :
  slice 9 (length (frameWith p c) - 1) (frameWith p c) = p.
Proof.
  rewrite frameWith_length. unfold slice, frameWith.
  change (skipn 9 (packetHeader ++ [Z.of_nat (length p) mod 256] ++ p ++ [c]))
    with (p ++ [c]).
  replace (10 + length p - 1 - 9)%nat with (length p) by lia.
  apply take_app_length.
Qed.

Lemma last_frame p c :
  nth (length (frameWith p c) - 1) (frameWith p c) 0 = c.
Proof.
  rewrite frameWith_length. unfold frameWith.
  change (packetHeader ++ [Z.of_nat (length p) mod 256] ++ p ++ [c])
    with ([1;0;1;0;1;1;0;1; Z.of_nat (length p) mod 256] ++ (p ++ [c])).
  rewrite app_nth2 by (simpl; lia). simpl length.
  rewrite app_nth2 by lia. replace (10 + length p - 1 - 9 - length p)%nat with 0%nat by lia.
  reflexivity.
Qed.

(** The bytes read back from a stream at a byte-aligned window. *)
Lemma read_window pre mid post tail :
  isBytes (pre ++ mid ++ post) = true ->
  map (fun i => readByte (createBitStream (pre ++ mid ++ post) ++ tail) (length pre * 8 + i * 8))
      (seq 0 (length mid)) = mid.
Proof.
  intros Hb.
  transitivity (map (fun i => nth (length pre + i) (pre ++ mid ++ post) 0) (seq 0 (length mid)));
    [|apply map_nth_window].
  apply map_ext_in. intros i Hi. apply in_seq in Hi.
  replace (length pre * 8 + i * 8)%nat with ((length pre + i) * 8)%nat by lia.
  apply readByte_stream; [assumption|]. rewrite !length_app. lia.
Qed.

(** The whole frame is there: [extractPacket] returns its payload when the
    last byte is the XOR of the payload, and nothing otherwise. *)
Lemma extractPacket_whole j p c post tail :
  isBytes j = true -> isBytes p = true -> isBytes post = true ->
  (length p <= 32)%nat -> 0 <= c < 256 ->
  extractPacket (createBitStream (j ++ frameWith p c ++ post) ++ tail) (length j * 8) =
  if c =? calculateCRC p
  then Some {| payload := p; plength := (10 + length p)%nat |}
  else None.
Proof.
  intros Hj Hb Hpost Hp Hc.
  assert (Hall : isBytes (j ++ frameWith p c ++ post) = true)
    by (apply stream_isBytes; assumption).
  unfold extractPacket. change (length packetHeader) with 8%nat. cbv beta zeta.
  rewrite length_app, createBitStream_length, !length_app, frameWith_length.
  destruct (Nat.ltb_spec ((length j + (10 + length p + length post)) * 8 + length tail)
                         (length j * 8 + 8 * 8 + 8)) as [H1|_]; [lia|].
  replace (length j * 8 + 8 * 8)%nat with ((length j + 8) * 8)%nat by lia.
  rewrite readByte_stream by (assumption || (rewrite !length_app, frameWith_length; lia)).
  rewrite nth_frame_length by assumption.
  destruct (Z.ltb_spec maxPayloadLength (Z.of_nat (length p))) as [H2|_];
    [unfold maxPayloadLength in H2; lia|].
  rewrite Nat2Z.id.
  destruct (Nat.ltb_spec ((length j + (10 + length p + length post)) * 8 + length tail)
                         (length j * 8 + (8 + 1 + length p + 1) * 8)) as [H3|_]; [lia|].
  replace (8 + 1 + length p + 1)%nat with (length (frameWith p c))
    by (rewrite frameWith_length; lia).
  rewrite read_window by assumption.
  change (8 + 1)%nat with 9%nat. rewrite slice_frame, last_frame.
  rewrite toUint8Array_id by assumption. rewrite frameWith_length. reflexivity.
Qed.

Lemma extractPacket_complete j p post tail :
  isBytes j = true -> isBytes p = true -> isBytes post = true -> (length p <= 32)%nat ->
  extractPacket (createBitStream (j ++ frameBytes p ++ post) ++ tail) (length j * 8) =
  Some {| payload := p; plength := (10 + length p)%nat |}.
Proof.
  intros Hj Hb Hpost Hp. unfold frameBytes.
  rewrite extractPacket_whole by (assumption || apply calculateCRC_range).
  rewrite Z.eqb_refl. reflexivity.
Qed.

End Extract.

Section Decode.

Lemma scan_none buffer offsets :
  (forall i, In i offsets ->
     matchHeader buffer i = false \/ extractPacket buffer i = None) ->
  scan buffer offsets = None.
Proof.
  induction offsets as [|i offsets IH]; intros H; [reflexivity|]. simpl.
  destruct (H i (or_introl eq_refl)) as [Hm|He].
  - rewrite Hm. apply IH. intros i' Hi'. apply H. right. assumption.
  - rewrite He. destruct (matchHeader buffer i); apply IH; intros i' Hi'; apply H; right; assumption.
Qed.

Lemma scan_app_none buffer l1 l2 :
  (forall i, In i l1 -> matchHeader buffer i = false) ->
  scan buffer (l1 ++ l2) = scan buffer l2.
Proof.
  induction l1 as [|i l1 IH]; intros H; [reflexivity|]. simpl.
  rewrite (H i) by (left; reflexivity). apply IH. intros i' Hi'. apply H. right. assumption.
Qed.

Lemma scan_hit buffer m c packet :
  (forall k, (k < m)%nat -> matchHeader buffer (k * 8) = false) ->
  matchHeader buffer (m * 8) = true ->
  extractPacket buffer (m * 8) = Some packet ->
  (m < c)%nat ->
  scan buffer (map (fun k => (k * 8)%nat) (seq 0 c)) = Some ((m * 8)%nat, packet).
Proof.
  intros Hbefore Hm He Hc.
  replace c with (m + S (c - m - 1))%nat by lia.
  rewrite seq_app, map_app, scan_app_none.
  - simpl. rewrite Hm, He. reflexivity.
  - intros i Hi. apply in_map_iff in Hi as [k [<- Hk]]. apply in_seq in Hk.
    apply Hbefore. lia.
Qed.

Lemma in_candidates buffer i :
  (64 <= length buffer)%nat -> In i (candidates buffer) ->
  exists k, i = (k * 8)%nat /\ (k * 8 + 64 <= length buffer)%nat.
Proof.
  intros Hlen Hi. unfold candidates in Hi. change (length packetHeader * 8)%nat with 64%nat in Hi.
  apply in_map_iff in Hi as [k [<- Hk]]. apply in_seq in Hk. exists k. split; [reflexivity|].
  pose proof (Nat.Div0.mul_div_le (length buffer - 64) 8). lia.
Qed.

Lemma stream_length j p :
  length (createBitStream (j ++ frameBytes p)) = ((length j + 10 + length p) * 8)%nat.
Proof. unfold frameBytes. rewrite createBitStream_length, length_app, frameWith_length. lia. Qed.

Section OneFrame.

Variables j p : list Z.
Hypothesis junk_bytes : isBytes j = true.
Hypothesis payload_bytes : isBytes p = true.
Hypothesis payload_short : (length p <= 32)%nat.
Hypothesis junk_free : syncFree (length j) (j ++ packetHeader) = true.
Hypothesis payload_free : syncFree (length p) p = true.
Hypothesis fits : (length j + length p <= 115)%nat.

Let total := ((length j + 10 + length p) * 8)%nat.
Let stream := createBitStream (j ++ frameBytes p).

(** While the frame is incomplete a decode attempt changes nothing. *)
Lemma tryDecodePacket_quiet n :
  (n < total)%nat -> tryDecodePacket (firstn n stream) = (firstn n stream, None).
Proof.
  intros Hn. pose proof (stream_length j p) as HL. fold stream total in HL.
  assert (Hlen : length (firstn n stream) = n) by (rewrite length_firstn; lia).
  assert (Hall : isBytes (j ++ frameBytes p) = true).
  { rewrite <- (app_nil_r (frameBytes p)).
    apply stream_isBytes; (assumption || reflexivity || apply calculateCRC_range). }
  assert (HB : length (j ++ frameBytes p) = (length j + 10 + length p)%nat)
    by (unfold frameBytes; rewrite length_app, frameWith_length; lia).
  unfold tryDecodePacket. rewrite Hlen. change ((length packetHeader + 2) * 8)%nat with 80%nat.
  destruct (Nat.ltb_spec n 80) as [|H80]; [reflexivity|].
  rewrite scan_none.
  - destruct (Nat.ltb_spec 1000 n) as [H|]; [unfold total in Hn; lia|reflexivity].
  - intros i Hi. apply in_candidates in Hi as [k [-> Hk]]; [|lia]. rewrite Hlen in Hk.
    destruct (lt_eq_lt_dec k (length j)) as [[Hlt|Heq]|Hgt].
    + left. unfold stream. unfold frameBytes in *.
      rewrite matchHeader_prefix by (assumption || lia || (unfold total in Hn; lia)).
      rewrite syncAt_junk by assumption. apply (syncFree_lt (length j)); assumption.
    + right. subst k. apply extractPacket_incomplete; (assumption || apply calculateCRC_range).
    + left. unfold stream. unfold frameBytes in *.
      rewrite matchHeader_prefix by (assumption || lia || (unfold total in Hn; lia)).
      replace k with (length j + (k - length j))%nat by lia.
      apply syncAt_inside; try assumption; unfold total in Hn; lia.
Qed.

(** With its last bit the frame is found, handed over, and the buffer
    emptied. *)
Lemma tryDecodePacket_complete :
  tryDecodePacket stream = ([], Some {| payload := p; plength := (10 + length p)%nat |}).
Proof.
  pose proof (stream_length j p) as HL. fold stream total in HL.
  assert (Hall : isBytes (j ++ frameBytes p) = true).
  { rewrite <- (app_nil_r (frameBytes p)).
    apply stream_isBytes; (assumption || reflexivity || apply calculateCRC_range). }
  assert (HB : length (j ++ frameBytes p) = (length j + 10 + length p)%nat)
    by (unfold frameBytes; rewrite length_app, frameWith_length; lia).
  assert (Hfull : firstn total stream = stream) by (apply firstn_all2; lia).
  unfold tryDecodePacket. rewrite HL. change ((length packetHeader + 2) * 8)%nat with 80%nat.
  destruct (Nat.ltb_spec total 80) as [H|_]; [unfold total in H; lia|].
  unfold candidates. rewrite HL. change (length packetHeader * 8)%nat with 64%nat.
  replace (total - 64)%nat with ((length j + length p + 2) * 8)%nat by (unfold total; lia).
  rewrite Nat.div_mul by discriminate.
  rewrite (scan_hit stream (length j) _ {| payload := p; plength := (10 + length p)%nat |}).
  - cbn [plength]. rewrite skipn_all2 by lia. reflexivity.
  - intros k Hk. rewrite <- Hfull. unfold stream. unfold frameBytes in *.
    rewrite matchHeader_prefix by (assumption || (unfold total; lia)).
    rewrite syncAt_junk by assumption. apply (syncFree_lt (length j)); assumption.
  - rewrite <- Hfull. unfold stream. unfold frameBytes in *.
    rewrite matchHeader_prefix by (assumption || (unfold total; lia)).
    apply syncAt_frame_start.
  - unfold stream. rewrite <- (app_nil_r (frameBytes p)), <- (app_nil_r (createBitStream _)).
    apply extractPacket_complete; (assumption || reflexivity).
  - lia.
Qed.

End OneFrame.

Lemma run_quiet s : forall pre rest,
  (forall n, (0 < n <= length s)%nat ->
     tryDecodePacket (pre ++ firstn n s) = (pre ++ firstn n s, None)) ->
  run pre (s ++ rest) = run (pre ++ s) rest.
Proof.
  induction s as [|b s IH]; intros pre rest H.
  - rewrite app_nil_r. reflexivity.
  - simpl. specialize (H 1%nat ltac:(simpl; lia)) as H1. simpl in H1. rewrite firstn_O in H1.
    rewrite H1. rewrite IH.
    + rewrite <- app_assoc. simpl. destruct (run (pre ++ b :: s) rest). reflexivity.
    + intros n Hn. rewrite <- app_assoc. simpl.
      apply (H (S n)). simpl. lia.
Qed.

(** A junk prefix and a frame, then anything: the frame comes out first and
    the decoder starts afresh on what follows. *)
Lemma run_one_frame j p rest :
  isBytes j = true -> isBytes p = true -> (length p <= 32)%nat ->
  syncFree (length j) (j ++ packetHeader) = true ->
  syncFree (length p) p = true ->
  (length j + length p <= 115)%nat ->
  run [] (createBitStream (j ++ frameBytes p) ++ rest) =
  (fst (run [] rest), p :: snd (run [] rest)).
Proof.
  intros Hj Hb Hp Hjf Hpf Hfit.
  pose proof (stream_length j p) as HL.
  set (stream := createBitStream (j ++ frameBytes p)) in *.
  set (total := ((length j + 10 + length p) * 8)%nat) in *.
  assert (Hsplit : stream = firstn (total - 1) stream ++ skipn (total - 1) stream)
    by (symmetry; apply firstn_skipn).
  assert (Hlast : exists x, skipn (total - 1) stream = [x]).
  { pose proof (length_skipn (total - 1) stream) as Hs. rewrite HL in Hs.
    destruct (skipn (total - 1) stream) as [|x [|y l]]; simpl in Hs; unfold total in Hs; try lia.
    exists x. reflexivity. }
  destruct Hlast as [x Hx]. rewrite Hx in Hsplit.
  rewrite Hsplit at 1. rewrite <- app_assoc. rewrite run_quiet.
  - simpl. rewrite <- Hsplit. unfold stream.
    rewrite tryDecodePacket_complete by assumption.
    destruct (run [] rest). reflexivity.
  - intros n Hn. rewrite length_firstn, HL in Hn. simpl.
    rewrite firstn_firstn. replace (Nat.min n (total - 1)) with n by lia.
    apply tryDecodePacket_quiet; try assumption. unfold total in *. lia.
Qed.

End Decode.

Section Clock.

Lemma interval_nonneg mode : (0 <= expectedInterval mode * 2)%Q.
Proof. destruct mode; vm_compute; discriminate. Qed.

Lemma Qle_bool_self mode t : Qle_bool (t - t) (expectedInterval mode * 2) = true.
Proof.
  apply Qle_bool_iff. apply Qle_trans with 0%Q; [|apply interval_nonneg].
  unfold Qminus. rewrite Qplus_opp_r. apply Qle_refl.
Qed.

Lemma processBit_steady mode buffer last rs bit t :
  Qle_bool (t - last) (expectedInterval mode * 2) = true ->
  processBit mode {| bitBuffer := Some buffer; lastBitTime := last; received := rs |} bit t =
  {| bitBuffer := Some (fst (tryDecodePacket (buffer ++ [bit])));
     lastBitTime := t;
     received := rs ++ match snd (tryDecodePacket (buffer ++ [bit])) with
                       | Some packet => [payload packet]
                       | None => []
                       end |}.
Proof.
  intros H. unfold processBit. cbn [bitBuffer lastBitTime received].
  fold (expectedInterval mode). rewrite H.
  destruct (tryDecodePacket (buffer ++ [bit])). reflexivity.
Qed.

Lemma processBit_first mode bit t :
  processBit mode newReceiver bit t =
  processBit mode {| bitBuffer := Some []; lastBitTime := t; received := [] |} bit t.
Proof. reflexivity. Qed.

Lemma last_cons {A} (x d : A) l : List.last (x :: l) d = List.last l x.
Proof.
  revert x d. induction l as [|y l IH]; intros x d; [reflexivity|].
  change (List.last (x :: y :: l) d) with (List.last (y :: l) d).
  rewrite (IH y d), (IH y x). reflexivity.
Qed.

Lemma feed_cons mode r bit t bits :
  feed mode r ((bit, t) :: bits) = feed mode (processBit mode r bit t) bits.
Proof. reflexivity. Qed.

(** On a steady stream the clock of [processBit] never interferes: [feed]
    is the bare decode loop. *)
Lemma feed_steady mode : forall bits buffer last rs,
  steady mode last (map snd bits) = true ->
  feed mode {| bitBuffer := Some buffer; lastBitTime := last; received := rs |} bits =
  {| bitBuffer := Some (fst (run buffer (map fst bits)));
     lastBitTime := List.last (map snd bits) last;
     received := rs ++ snd (run buffer (map fst bits)) |}.
Proof.
  induction bits as [|[bit t] bits IH]; intros buffer last rs H.
  - simpl. rewrite app_nil_r. reflexivity.
  - cbn [map fst snd steady] in H. apply andb_prop in H as [H1 H2].
    rewrite feed_cons, processBit_steady by assumption. rewrite IH by assumption.
    cbn [map fst snd run]. destruct (tryDecodePacket (buffer ++ [bit])) as [buffer' packet].
    cbn [fst snd]. destruct (run buffer' (map fst bits)) as [final out]. cbn [fst snd].
    f_equal.
    + symmetry. apply last_cons.
    + destruct packet; [rewrite <- app_assoc|rewrite app_nil_r]; reflexivity.
Qed.

Lemma feed_new mode bits :
  bits <> [] -> steadyStream mode (map snd bits) = true ->
  bitBuffer (feed mode newReceiver bits) = Some (fst (run [] (map fst bits))) /\
  received (feed mode newReceiver bits) = snd (run [] (map fst bits)).
Proof.
  destruct bits as [|[bit t] bits]; [congruence|]. intros _ H. cbn [map snd steadyStream] in H.
  rewrite feed_cons, processBit_first, <- feed_cons.
  rewrite feed_steady by (cbn [map snd steady]; rewrite Qle_bool_self, H; reflexivity).
  split; reflexivity.
Qed.

Lemma fst_combine {A B} (l1 : list A) : forall l2 : list B,
  length l1 = length l2 -> map fst (combine l1 l2) = l1.
Proof.
  induction l1 as [|x l1 IH]; intros [|y l2] H; try discriminate; [reflexivity|].
  simpl. rewrite IH by (simpl in H; lia). reflexivity.
Qed.

Lemma clock_bits mode bits : map fst (clock mode bits) = bits.
Proof. unfold clock. apply fst_combine. rewrite length_map, length_seq. reflexivity. Qed.

End Clock.

Section Roundtrip.

Lemma encodeBits_ok p :
  (length p <= 32)%nat -> encodeBits p = Some (createBitStream (frameBytes p)).
Proof.
  intros Hp. unfold encodeBits, encodePacket.
  destruct (Z.ltb_spec maxPayloadLength (Z.of_nat (length p))) as [H|_];
    [unfold maxPayloadLength in H; lia|reflexivity].
Qed.

Lemma clean_parts j p :
  clean j p = true ->
  isBytes j = true /\ isBytes p = true /\ (length p <= 32)%nat /\
  syncFree (length j) (j ++ packetHeader) = true /\
  syncFree (length p) p = true /\ (length j + length p <= 115)%nat.
Proof.
  unfold clean. intros H. repeat (apply andb_prop in H as [H ?]).
  repeat split; try assumption; apply Nat.leb_le; assumption.
Qed.

Lemma frame_bits_length p :
  length (createBitStream (frameBytes p)) = ((10 + length p) * 8)%nat.
Proof. apply (stream_length [] p). Qed.

(** Text has no byte below the space: it cannot hold the sync header,
    whose bytes are 0 and 1.  The payloads that [encodePacket] is given are
    such text, [JSON.stringify] escaping every control character. *)
Lemma text_syncFree p :
  forallb (fun b => 32 <=? b) p = true -> syncFree (length p) p = true.
Proof.
  intros Htext. unfold syncFree. apply forallb_forall. intros k Hk. apply in_seq in Hk.
  apply negb_true_iff, not_true_is_false. intros Hsync.
  rewrite syncAt_true_iff in Hsync. specialize (Hsync 0%nat ltac:(lia)).
  rewrite Nat.add_0_r in Hsync. cbn [nth packetHeader] in Hsync.
  rewrite forallb_forall in Htext.
  assert (Hlt : (k < length p)%nat) by lia.
  specialize (Htext (nth k p 0) (nth_In p 0 Hlt)).
  apply Z.leb_le in Htext. lia.
Qed.

End Roundtrip.

(** C1 (amended).  For every byte payload [p] of at most 32 bytes the
    encoder produces a frame, and a decode attempt on a buffer holding
    exactly the bits of that frame returns the payload [p] and empties the
    buffer.  When [p] moreover holds no copy of the 8-byte sync header and
    the bits are pushed one by one through [processBit], no two of them
    further apart than two bit periods, the decoder hands over exactly one
    frame, with payload [p], and ends with an empty buffer. *)
Theorem frame_roundtrip (mode : Mode) (p : list Z) :
  isBytes p = true -> (length p <= 32)%nat ->
  exists frame,
    encodeBits p = Some frame /\
    tryDecodePacket frame = ([], Some {| payload := p; plength := (10 + length p)%nat |}) /\
    (syncFree (length p) p = true ->
     forall bits,
       map fst bits = frame -> steadyStream mode (map snd bits) = true ->
       received (feed mode newReceiver bits) = [p] /\
       bitBuffer (feed mode newReceiver bits) = Some []).
Proof.
  intros Hb Hp. exists (createBitStream (frameBytes p)).
  split; [apply encodeBits_ok; assumption|]. split.
  - apply (tryDecodePacket_complete [] p); (assumption || reflexivity || (simpl; lia)).
  - intros Hfree bits Hbits Hsteady.
    assert (Hne : bits <> []).
    { intros ->. apply (f_equal (@length Z)) in Hbits.
      rewrite frame_bits_length in Hbits. simpl in Hbits. lia. }
    destruct (feed_new mode bits Hne Hsteady) as [Hbuf Hrec].
    rewrite Hbuf, Hrec, Hbits.
    pose proof (run_one_frame [] p [] eq_refl Hb Hp eq_refl Hfree ltac:(simpl; lia)) as Hrun.
    rewrite app_nil_r in Hrun. change ([] ++ frameBytes p) with (frameBytes p) in Hrun.
    rewrite Hrun. split; reflexivity.
Qed.

Lemma frame_roundtrip_witness :
  received (feed high newReceiver (clock high (createBitStream (frameBytes [104; 105]))))
  = [[104; 105]].
Proof.
  destruct (frame_roundtrip high [104; 105] eq_refl ltac:(simpl; lia))
    as (frame & Hframe & _ & Hfeed).
  injection Hframe as <-.
  apply Hfeed; [reflexivity | apply clock_bits | vm_compute; reflexivity].
Defined.

(** C1, as stated, fails.  The ten payload bytes below are themselves a
    complete frame with an empty payload; it is complete one byte before
    the real frame is, and the decoder, which runs after every bit, hands
    it over instead.  And a frame whose bits arrive one per second is never
    seen: each gap of more than two bit periods empties the buffer. *)
Lemma frame_roundtrip_counterexample :
  let p := [1; 0; 1; 0; 1; 1; 0; 1; 0; 0] in
  isBytes p = true /\ (length p <= 32)%nat /\
  exists frame slow,
    encodeBits p = Some frame /\
    steadyStream high (map snd (clock high frame)) = true /\
    received (feed high newReceiver (clock high frame)) = [[]] /\
    received (feed high newReceiver (clock high frame)) <> [p] /\
    encodeBits [104; 105] = Some slow /\
    received (feed high newReceiver
                (combine slow (map (fun n => inject_Z (Z.of_nat n)) (seq 0 (length slow)))))
    = [].
Proof.
  cbv zeta. split; [reflexivity|]. split; [simpl; lia|].
  exists (createBitStream (frameBytes [1; 0; 1; 0; 1; 1; 0; 1; 0; 0])),
         (createBitStream (frameBytes [104; 105])).
  split; [reflexivity|]. split; [vm_compute; reflexivity|].
  assert (H : received (feed high newReceiver
                (clock high (createBitStream (frameBytes [1; 0; 1; 0; 1; 1; 0; 1; 0; 0])))) = [[]])
    by (vm_compute; reflexivity).
  split; [exact H|]. split; [rewrite H; discriminate|].
  split; [reflexivity|]. vm_compute. reflexivity.
Qed.

(** C3 (amended).  Let the two junk segments be whole bytes in which no copy
    of the sync header begins, the two payloads have at most 32 bytes and
    hold no copy of the sync header, and each junk segment with the frame
    after it fit 1000 bits.  Then pushing
    junk1 ++ encode(p1) ++ junk2 ++ encode(p2) bit by bit through
    [processBit], no two bits further apart than two bit periods, hands over
    exactly the two payloads, [p1] then [p2]. *)
Theorem resynchronisation (mode : Mode) (j1 p1 j2 p2 : list Z) :
  clean j1 p1 = true -> clean j2 p2 = true ->
  exists f1 f2,
    encodeBits p1 = Some f1 /\ encodeBits p2 = Some f2 /\
    forall bits,
      map fst bits = createBitStream j1 ++ f1 ++ createBitStream j2 ++ f2 ->
      steadyStream mode (map snd bits) = true ->
      received (feed mode newReceiver bits) = [p1; p2] /\
      bitBuffer (feed mode newReceiver bits) = Some [].
Proof.
  intros H1 H2.
  apply clean_parts in H1 as (Hj1 & Hb1 & Hp1 & Hjf1 & Hpf1 & Hfit1).
  apply clean_parts in H2 as (Hj2 & Hb2 & Hp2 & Hjf2 & Hpf2 & Hfit2).
  exists (createBitStream (frameBytes p1)), (createBitStream (frameBytes p2)).
  split; [apply encodeBits_ok; assumption|].
  split; [apply encodeBits_ok; assumption|].
  intros bits Hbits Hsteady.
  assert (Hne : bits <> []).
  { intros ->. apply (f_equal (@length Z)) in Hbits.
    rewrite !length_app, !frame_bits_length in Hbits. simpl in Hbits. lia. }
  destruct (feed_new mode bits Hne Hsteady) as [Hbuf Hrec].
  rewrite Hbuf, Hrec, Hbits.
  rewrite (app_assoc (createBitStream j1)), <- createBitStream_app.
  rewrite run_one_frame by assumption.
  rewrite <- (app_nil_r (createBitStream (frameBytes p2))).
  rewrite (app_assoc (createBitStream j2)), <- createBitStream_app.
  rewrite run_one_frame by assumption.
  split; reflexivity.
Qed.

Lemma resynchronisation_witness :
  received (feed low newReceiver
    (clock low (createBitStream [0; 255; 7] ++ createBitStream (frameBytes [104; 105])
                ++ createBitStream [2; 1; 0] ++ createBitStream (frameBytes [33]))))
  = [[104; 105]; [33]].
Proof.
  destruct (resynchronisation low [0; 255; 7] [104; 105] [2; 1; 0] [33] eq_refl eq_refl)
    as (f1 & f2 & Hf1 & Hf2 & Hfeed).
  injection Hf1 as <-. injection Hf2 as <-.
  apply Hfeed; [apply clock_bits | vm_compute; reflexivity].
Defined.

(** C3, as stated, fails.  The decoder looks for the sync header at byte
    offsets of its buffer only, so one junk bit in front puts both frames
    out of its reach; and junk that holds the bytes of a frame makes the
    decoder hand over that frame as well. *)
Lemma resynchronisation_counterexample :
  exists f1 f2,
    encodeBits [65] = Some f1 /\ encodeBits [66] = Some f2 /\
    steadyStream high (map snd (clock high ([0] ++ f1 ++ [] ++ f2))) = true /\
    received (feed high newReceiver (clock high ([0] ++ f1 ++ [] ++ f2))) = [] /\
    received (feed high newReceiver (clock high ([0] ++ f1 ++ [] ++ f2))) <> [[65]; [66]] /\
    received (feed high newReceiver
                (clock high (createBitStream [1; 0; 1; 0; 1; 1; 0; 1; 0; 0] ++ f1 ++ [] ++ f2)))
    = [[]; [65]; [66]].
Proof.
  exists (createBitStream (frameBytes [65])), (createBitStream (frameBytes [66])).
  split; [reflexivity|]. split; [reflexivity|].
  split; [vm_compute; reflexivity|].
  assert (H : received (feed high newReceiver
     (clock high ([0] ++ createBitStream (frameBytes [65]) ++ [] ++ createBitStream (frameBytes [66])))) = [])
    by (vm_compute; reflexivity).
  split; [exact H|]. split; [rewrite H; discriminate|].
  vm_compute. reflexivity.
Qed.

Section Bound.

Lemma encodePacket_Some p packet :
  encodePacket p = Some packet -> (length p <= 32)%nat /\ packet = frameBytes p.
Proof.
  unfold encodePacket.
  destruct (Z.ltb_spec maxPayloadLength (Z.of_nat (length p))) as [|H]; [discriminate|].
  intros [= <-]. unfold maxPayloadLength in H. split; [lia|reflexivity].
Qed.

End Bound.

(** C2.  The encoder raises its error for every payload of more than 32
    bytes, so that the bits of an encoded frame number at most
    (10 + 32) * 8 = 336; and on receive a candidate frame whose length byte
    exceeds 32 is given up by [extractPacket] before any byte of a payload
    is read, and the scan of [tryDecodePacket] goes on with the next
    offsets. *)
Theorem length_bound :
  (forall p, (32 < length p)%nat -> encodePacket p = None) /\
  (forall p packet,
     encodePacket p = Some packet -> (length (createBitStream packet) <= 336)%nat) /\
  (forall buffer i,
     32 < readByte buffer (i + 64) ->
     extractPacket buffer i = None /\
     forall offsets, scan buffer (i :: offsets) = scan buffer offsets).
Proof.
  split; [|split].
  - intros p Hp. unfold encodePacket.
    destruct (Z.ltb_spec maxPayloadLength (Z.of_nat (length p))) as [|H]; [reflexivity|].
    unfold maxPayloadLength in H. lia.
  - intros p packet H. apply encodePacket_Some in H as [Hp ->].
    rewrite frame_bits_length. lia.
  - intros buffer i H.
    assert (He : extractPacket buffer i = None).
    { unfold extractPacket. change (length packetHeader * 8)%nat with 64%nat. cbv beta zeta.
      destruct (length buffer <? i + 64 + 8)%nat; [reflexivity|].
      destruct (Z.ltb_spec maxPayloadLength (readByte buffer (i + 64))) as [|H']; [reflexivity|].
      unfold maxPayloadLength in H'. lia. }
    split; [exact He|]. intros offsets. simpl. rewrite He.
    destruct (matchHeader buffer i); reflexivity.
Qed.

Lemma length_bound_witness :
  encodePacket (repeat 65 33) = None /\
  extractPacket (createBitStream (packetHeader ++ [127; 1; 2; 3])) 0 = None.
Proof.
  destruct length_bound as (Hsend & _ & Hreceive). split.
  - apply Hsend. simpl. lia.
  - apply Hreceive. vm_compute. reflexivity.
Defined.

Section Flip.

Lemma sameList_eq l1 : forall l2, sameList l1 l2 = true -> l1 = l2.
Proof.
  induction l1 as [|x l1 IH]; intros [|y l2] H; try discriminate; [reflexivity|].
  simpl in H. apply andb_prop in H as [Hx Hl]. apply Z.eqb_eq in Hx. subst y.
  rewrite (IH l2 Hl). reflexivity.
Qed.

Lemma flip_byteBits_check :
  forallb (fun n =>
    forallb (fun r =>
      sameList (flipBit r (byteBits (Z.of_nat n)))
               (byteBits (Z.lxor (Z.of_nat n) (2 ^ Z.of_nat r)))
      && (0 <=? Z.lxor (Z.of_nat n) (2 ^ Z.of_nat r))
      && (Z.lxor (Z.of_nat n) (2 ^ Z.of_nat r) <? 256))
      (seq 0 8))
    (seq 0 256) = true.
Proof. vm_compute. reflexivity. Qed.

Lemma flip_byteBits b r :
  0 <= b < 256 -> (r < 8)%nat ->
  flipBit r (byteBits b) = byteBits (Z.lxor b (2 ^ Z.of_nat r)) /\
  0 <= Z.lxor b (2 ^ Z.of_nat r) < 256.
Proof.
  intros Hb Hr. revert b Hb. apply byte_cases. intros n Hn.
  pose proof flip_byteBits_check as H. rewrite forallb_forall in H.
  specialize (H n ltac:(apply in_seq; lia)). rewrite forallb_forall in H.
  specialize (H r ltac:(apply in_seq; lia)).
  apply andb_prop in H as [H H3]. apply andb_prop in H as [H1 H2].
  split; [apply sameList_eq; assumption|lia].
Qed.

Lemma flipBit_middle (xs ys zs : list Z) r :
  (r < length ys)%nat ->
  flipBit (length xs + r) (xs ++ ys ++ zs) = xs ++ flipBit r ys ++ zs.
Proof.
  intros Hr. unfold flipBit.
  rewrite take_app_add, (take_app_le ys) by lia.
  rewrite app_nth2 by lia. replace (length xs + r - length xs)%nat with r by lia.
  rewrite (app_nth1 ys) by lia.
  replace (S (length xs + r)) with (length xs + S r)%nat by lia.
  rewrite drop_app_add, (drop_app_le ys) by lia.
  rewrite <- !app_assoc. reflexivity.
Qed.

(** Inverting bit [r] of byte number [length before] of a stream. *)
Lemma flip_stream before b after r :
  0 <= b < 256 -> (r < 8)%nat ->
  flipBit (length before * 8 + r) (createBitStream (before ++ b :: after)) =
  createBitStream (before ++ Z.lxor b (2 ^ Z.of_nat r) :: after).
Proof.
  intros Hb Hr. rewrite !createBitStream_app, !createBitStream_cons.
  rewrite <- createBitStream_length, flipBit_middle by (rewrite byteBits_length; lia).
  destruct (flip_byteBits b r Hb Hr) as [-> _]. reflexivity.
Qed.

Lemma fold_lxor l : forall a, fold_left Z.lxor l a = Z.lxor a (fold_left Z.lxor l 0).
Proof.
  induction l as [|x l IH]; intros a; cbn [fold_left].
  - rewrite Z.lxor_0_r. reflexivity.
  - rewrite (IH (Z.lxor a x)), (IH (Z.lxor 0 x)), Z.lxor_0_l, Z.lxor_assoc. reflexivity.
Qed.

Lemma land_lxor a b c : Z.land (Z.lxor a b) c = Z.lxor (Z.land a c) (Z.land b c).
Proof.
  apply Z.bits_inj'. intros n _.
  rewrite Z.land_spec, !Z.lxor_spec, !Z.land_spec.
  destruct (Z.testbit a n), (Z.testbit b n), (Z.testbit c n); reflexivity.
Qed.

Lemma calculateCRC_flip pa b pb e :
  0 <= e < 256 ->
  calculateCRC (pa ++ Z.lxor b e :: pb) = Z.lxor (calculateCRC (pa ++ b :: pb)) e.
Proof.
  intros He. unfold calculateCRC. rewrite !fold_left_app. simpl.
  rewrite (fold_lxor pb (Z.lxor _ (Z.lxor b e))), (fold_lxor pb (Z.lxor _ b)).
  rewrite !Z.lxor_assoc, (Z.lxor_comm e), <- !Z.lxor_assoc.
  rewrite land_lxor. f_equal.
  change 255 with (Z.ones 8). rewrite Z.land_ones by lia. apply Z.mod_small. lia.
Qed.

Lemma lxor_changes c e : e <> 0 -> Z.lxor c e <> c.
Proof.
  intros He H. apply He. apply Z.lxor_eq_0_iff in H.
  rewrite (Z.lxor_comm c e), Z.lxor_assoc, Z.lxor_nilpotent, Z.lxor_0_r in H. exact H.
Qed.

Lemma pow2_byte r : (r < 8)%nat -> 0 < 2 ^ Z.of_nat r < 256.
Proof.
  intros Hr. do 8 (destruct r as [|r]; [vm_compute; split; reflexivity|]). lia.
Qed.

Lemma isBytes_update pa b pb b' :
  isBytes (pa ++ b :: pb) = true -> 0 <= b' < 256 -> isBytes (pa ++ b' :: pb) = true.
Proof.
  rewrite !isBytes_app. simpl. intros H Hb'.
  apply andb_prop in H as [Ha H]. apply andb_prop in H as [_ Hpb].
  rewrite Ha, Hpb. replace (0 <=? b') with true by (symmetry; apply Z.leb_le; lia).
  replace (b' <? 256) with true by (symmetry; apply Z.ltb_lt; lia). reflexivity.
Qed.

(** One inverted bit among the payload and checksum bits of a frame leaves
    a frame of the same length whose last byte is not the XOR of its
    payload. *)
Lemma flip_frame p idx :
  isBytes p = true -> (length p <= 32)%nat ->
  (72 <= idx < 80 + 8 * length p)%nat ->
  exists p' c',
    flipBit idx (createBitStream (frameBytes p)) = createBitStream (frameWith p' c') /\
    length p' = length p /\ isBytes p' = true /\ 0 <= c' < 256 /\
    c' <> calculateCRC p'.
Proof.
  intros Hb Hp Hidx.
  pose proof (Nat.div_mod_eq idx 8) as Hdm.
  pose proof (Nat.mod_upper_bound idx 8 ltac:(discriminate)) as Hr.
  set (q := (idx / 8)%nat) in *. set (r := (idx mod 8)%nat) in *.
  pose proof (pow2_byte r Hr) as He.
  pose proof (calculateCRC_range p) as Hc.
  destruct (Nat.lt_ge_cases (q - 9) (length p)) as [Hm|Hm].
  - destruct (nth_split p 0 Hm) as (pa & pb & Hsplit & Hpa).
    assert (Hbr : 0 <= nth (q - 9) p 0 < 256) by (apply isBytes_nth; assumption).
    set (b := nth (q - 9) p 0) in *. clearbody b.
    destruct (flip_byteBits b r Hbr Hr) as [_ Hb'].
    exists (pa ++ Z.lxor b (2 ^ Z.of_nat r) :: pb), (calculateCRC p).
    assert (Hlen : length (pa ++ Z.lxor b (2 ^ Z.of_nat r) :: pb) = length p).
    { rewrite Hsplit. rewrite !length_app. reflexivity. }
    split; [|split; [exact Hlen|split; [|split; [exact Hc|]]]].
    + unfold frameBytes, frameWith. rewrite Hlen.
      generalize (calculateCRC p) (Z.of_nat (length p) mod 256). intros c len.
      rewrite Hsplit.
      assert (Hassoc : forall x, packetHeader ++ [len] ++ (pa ++ x :: pb) ++ [c]
                                 = (packetHeader ++ [len] ++ pa) ++ x :: (pb ++ [c])).
      { intros x. rewrite <- ?app_assoc. simpl. rewrite <- ?app_assoc. reflexivity. }
      rewrite !Hassoc.
      replace idx with (length (packetHeader ++ [len] ++ pa) * 8 + r)%nat
        by (rewrite !length_app; simpl; lia).
      apply flip_stream; assumption.
    + rewrite Hsplit in Hb. apply (isBytes_update pa b pb); assumption.
    + rewrite calculateCRC_flip, <- Hsplit by lia.
      intros H. symmetry in H. revert H. apply lxor_changes. lia.
  - exists p, (Z.lxor (calculateCRC p) (2 ^ Z.of_nat r)).
    destruct (flip_byteBits (calculateCRC p) r Hc Hr) as [_ Hc'].
    split; [|split; [reflexivity|split; [exact Hb|split; [exact Hc'|]]]].
    + unfold frameBytes, frameWith.
      generalize (Z.of_nat (length p) mod 256). intros len.
      replace idx with (length (packetHeader ++ [len] ++ p) * 8 + r)%nat
        by (rewrite !length_app; simpl; lia).
      rewrite !app_assoc. apply flip_stream; assumption.
    + apply lxor_changes. lia.
Qed.

End Flip.

Section Inversion.

Lemma extractPacket_Some buffer i packet :
  extractPacket buffer i = Some packet ->
  (i + (10 + length (payload packet)) * 8 <= length buffer)%nat /\
  plength packet = (10 + length (payload packet))%nat.
Proof.
  unfold extractPacket. change (length packetHeader) with 8%nat. cbv beta zeta.
  destruct (Nat.ltb_spec (length buffer) (i + 8 * 8 + 8)) as [|H1]; [discriminate|].
  destruct (maxPayloadLength <? readByte buffer (i + 8 * 8)); [discriminate|].
  set (n := Z.to_nat (readByte buffer (i + 8 * 8))).
  destruct (Nat.ltb_spec (length buffer) (i + (8 + 1 + n + 1) * 8)) as [|H2]; [discriminate|].
  remember (map (fun i0 => readByte buffer (i + i0 * 8)) (seq 0 (8 + 1 + n + 1)))
    as packetBytes eqn:Hbytes.
  assert (Hlen : length packetBytes = (10 + n)%nat)
    by (subst packetBytes; rewrite length_map, length_seq; lia).
  clear Hbytes.
  destruct (_ =? _); [|discriminate]. intros [= <-]. cbn [payload plength].
  unfold toUint8Array, slice.
  rewrite length_map, length_firstn, length_skipn, Hlen. lia.
Qed.

Lemma scan_Some buffer offsets i packet :
  scan buffer offsets = Some (i, packet) ->
  In i offsets /\ extractPacket buffer i = Some packet.
Proof.
  induction offsets as [|o offsets IH]; [discriminate|]. simpl.
  destruct (matchHeader buffer o).
  - destruct (extractPacket buffer o) as [pkt|] eqn:He.
    + intros [= <- <-]. split; [left; reflexivity|exact He].
    + intros H. apply IH in H as [Hin H]. split; [right; exact Hin|exact H].
  - intros H. apply IH in H as [Hin H]. split; [right; exact Hin|exact H].
Qed.

(** What a decode attempt can do to a buffer of at most 1000 bits. *)
Lemma tryDecodePacket_cases buffer :
  (length buffer <= 1000)%nat ->
  tryDecodePacket buffer = (buffer, None) \/
  exists k packet,
    extractPacket buffer (k * 8) = Some packet /\
    tryDecodePacket buffer = (skipn (k * 8 + plength packet * 8) buffer, Some packet).
Proof.
  intros Hlen. unfold tryDecodePacket. change ((length packetHeader + 2) * 8)%nat with 80%nat.
  destruct (Nat.ltb_spec (length buffer) 80) as [|H80]; [left; reflexivity|].
  destruct (scan buffer (candidates buffer)) as [[i packet]|] eqn:Hscan.
  - right. apply scan_Some in Hscan as [Hin He].
    apply in_candidates in Hin as [k [-> _]]; [|lia].
    exists k, packet. split; [exact He|reflexivity].
  - left. destruct (Nat.ltb_spec 1000 (length buffer)); [lia|reflexivity].
Qed.

End Inversion.

Section BadChecksum.

Variables (p : list Z) (c : Z).
Hypothesis payload_bytes : isBytes p = true.
Hypothesis payload_short : (length p <= 32)%nat.
Hypothesis crc_byte : 0 <= c < 256.
Hypothesis crc_wrong : c <> calculateCRC p.

Let stream := createBitStream (frameWith p c).

Lemma bad_stream_length : length stream = ((10 + length p) * 8)%nat.
Proof using Type. unfold stream. rewrite createBitStream_length, frameWith_length. reflexivity. Qed.

Lemma bad_matchHeader : matchHeader stream 0 = true.
Proof using payload_bytes payload_short crc_byte.
  pose proof bad_stream_length as HL.
  rewrite <- (firstn_all2 stream (n := length stream)) by lia. unfold stream.
  rewrite (matchHeader_prefix (frameWith p c) _ 0).
  - apply (syncAt_frame_start [] p c).
  - apply frameWith_isBytes; assumption.
  - fold stream. lia.
  - fold stream. rewrite frameWith_length. lia.
Qed.

Lemma bad_extractPacket n : extractPacket (firstn n stream) 0 = None.
Proof using payload_bytes payload_short crc_byte crc_wrong.
  pose proof bad_stream_length as HL.
  destruct (Nat.lt_ge_cases n ((10 + length p) * 8)) as [Hn|Hn].
  - apply (extractPacket_incomplete [] p c n); (assumption || reflexivity || (simpl; lia)).
  - rewrite firstn_all2 by lia. unfold stream.
    pose proof (extractPacket_whole [] p c [] [] eq_refl payload_bytes eq_refl
                  payload_short crc_byte) as H.
    rewrite !app_nil_r in H.
    destruct (Z.eqb_spec c (calculateCRC p)); [contradiction|exact H].
Qed.

(** Whatever the decoder hands over while it is fed a frame with a wrong
    checksum is shorter than the payload of that frame. *)
Lemma run_bad_frame rest : forall buffer n,
  firstn n stream ++ rest = stream -> (n <= length stream)%nat ->
  (length buffer <= n)%nat -> (length buffer = n -> buffer = firstn n stream) ->
  forall q, In q (snd (run buffer rest)) -> (length q < length p)%nat.
Proof using payload_bytes payload_short crc_byte crc_wrong.
  pose proof bad_stream_length as HL.
  induction rest as [|bit rest IH]; intros buffer n Hsplit Hn Hlen Hfull q Hq;
    [contradiction|].
  assert (Hn1 : (S n <= length stream)%nat).
  { apply (f_equal (@length Z)) in Hsplit. rewrite length_app, length_firstn in Hsplit.
    change (length (bit :: rest)) with (S (length rest)) in Hsplit. lia. }
  assert (Hnext : firstn (S n) stream = firstn n stream ++ [bit]).
  { rewrite <- Hsplit at 1. rewrite take_app_ge by (rewrite length_firstn; lia).
    rewrite length_firstn. replace (S n - Nat.min n (length stream))%nat with 1%nat by lia.
    reflexivity. }
  assert (Hsplit' : firstn (S n) stream ++ rest = stream).
  { rewrite Hnext, <- app_assoc. exact Hsplit. }
  assert (Hfull' : length (buffer ++ [bit]) = S n -> buffer ++ [bit] = firstn (S n) stream).
  { intros H. rewrite length_app in H. change (length [bit]) with 1%nat in H.
    rewrite Hnext, Hfull by lia. reflexivity. }
  assert (Hlen' : (length (buffer ++ [bit]) <= S n)%nat).
  { rewrite length_app. change (length [bit]) with 1%nat. lia. }
  cbn [run] in Hq.
  destruct (tryDecodePacket_cases (buffer ++ [bit])) as [Hnone|(k & packet & He & Hsome)];
    [lia| |].
  - rewrite Hnone in Hq. destruct (run (buffer ++ [bit]) rest) as [final out] eqn:Hrun.
    apply (IH (buffer ++ [bit]) (S n)); try assumption. rewrite Hrun. exact Hq.
  - rewrite Hsome in Hq.
    destruct (run (skipn (k * 8 + plength packet * 8) (buffer ++ [bit])) rest)
      as [final out] eqn:Hrun.
    pose proof (extractPacket_Some _ _ _ He) as [Hfit Hpl].
    cbn [snd] in Hq. destruct Hq as [<-|Hq].
    + destruct (Nat.eq_dec (length (buffer ++ [bit])) (S n)) as [Heq|Hneq]; [|lia].
      destruct k as [|k]; [|lia].
      rewrite (Hfull' Heq), bad_extractPacket in He. discriminate.
    + apply (IH (skipn (k * 8 + plength packet * 8) (buffer ++ [bit])) (S n));
        try assumption.
      * rewrite length_skipn. lia.
      * rewrite length_skipn. lia.
      * rewrite Hrun. exact Hq.
Qed.

End BadChecksum.

(** C4.  For every payload [p] of at most 32 bytes and every bit position
    [idx] among the payload bits (72 .. 71 + 8|p|) or the checksum bits (the
    eight after them) of its encoded frame, the frame with that one bit
    inverted is rejected.  It still reads as sync header, the same length
    byte, a payload [p'] and a checksum byte [c'], but [c'] is not the XOR
    of [p']: the header matches at offset 0 and [extractPacket] returns
    [null] there.  And pushing the corrupted frame bit by bit through
    [processBit] hands over nothing as long as [p]: neither [p] nor the
    corrupted payload [p'] comes out. *)
Theorem checksum_coverage (mode : Mode) (p : list Z) (idx : nat) :
  isBytes p = true -> (length p <= 32)%nat ->
  (72 <= idx < 80 + 8 * length p)%nat ->
  exists frame p' c',
    encodeBits p = Some frame /\
    flipBit idx frame = createBitStream (frameWith p' c') /\
    length p' = length p /\
    c' <> calculateCRC p' /\
    matchHeader (flipBit idx frame) 0 = true /\
    extractPacket (flipBit idx frame) 0 = None /\
    forall bits,
      map fst bits = flipBit idx frame -> steadyStream mode (map snd bits) = true ->
      forall q, In q (received (feed mode newReceiver bits)) ->
                (length q < length p)%nat /\ q <> p /\ q <> p'.
Proof.
  intros Hb Hp Hidx.
  destruct (flip_frame p idx Hb Hp Hidx) as (p' & c' & Hflip & Hlen & Hb' & Hc' & Hbad).
  exists (createBitStream (frameBytes p)), p', c'.
  split; [apply encodeBits_ok; assumption|]. split; [exact Hflip|].
  split; [exact Hlen|]. split; [exact Hbad|]. rewrite Hflip.
  rewrite <- Hlen in Hp |- *.
  pose proof (bad_stream_length p' c') as HL.
  split; [apply bad_matchHeader; assumption|]. split.
  - rewrite <- (firstn_all2 (createBitStream (frameWith p' c'))
                  (n := length (createBitStream (frameWith p' c')))) by lia.
    apply bad_extractPacket; assumption.
  - intros bits Hbits Hsteady q Hq.
    assert (Hne : bits <> []).
    { intros ->. apply (f_equal (@length Z)) in Hbits. rewrite HL in Hbits.
      simpl in Hbits. lia. }
    destruct (feed_new mode bits Hne Hsteady) as [_ Hrec].
    rewrite Hrec, Hbits in Hq.
    assert (Hshort : (length q < length p')%nat).
    { apply (run_bad_frame p' c' Hb' Hp Hc' Hbad (createBitStream (frameWith p' c')) [] 0%nat);
        try assumption; try reflexivity; try (simpl; lia). }
    split; [exact Hshort|].
    split; intros ->; lia.
Qed.

Lemma checksum_coverage_witness :
  extractPacket (flipBit 75 (createBitStream (frameBytes [104; 105]))) 0 = None.
Proof.
  destruct (checksum_coverage high [104; 105] 75 eq_refl ltac:(simpl; lia) ltac:(simpl; lia))
    as (frame & p' & c' & Hframe & _ & _ & _ & _ & Hreject & _).
  injection Hframe as <-. exact Hreject.
Defined.

(** ** The session *)

Section Cipher.

Lemma xorWithKey_length data key : length (xorWithKey data key) = length data.
Proof. unfold xorWithKey. rewrite length_map, length_seq. reflexivity. Qed.

Lemma xorWithKey_nth data key i :
  (i < length data)%nat ->
  nth i (xorWithKey data key) 0 =
  Z.lxor (nth i data 0) (nth (i mod length key) key 0) mod 256.
Proof.
  intros Hi. unfold xorWithKey.
  rewrite (nth_indep _ 0 ((fun i => Z.lxor (nth i data 0) (nth (i mod length key) key 0) mod 256) 0%nat))
    by (rewrite length_map, length_seq; assumption).
  rewrite (map_nth (fun i => Z.lxor (nth i data 0) (nth (i mod length key) key 0) mod 256)).
  rewrite seq_nth by assumption. reflexivity.
Qed.

Lemma xorWithKey_isBytes data key : isBytes (xorWithKey data key) = true.
Proof.
  unfold xorWithKey, isBytes. rewrite forallb_forall. intros b Hb.
  apply in_map_iff in Hb as (i & <- & _).
  pose proof (Z.mod_pos_bound (Z.lxor (nth i data 0) (nth (i mod length key) key 0)) 256
                ltac:(lia)).
  apply andb_true_intro. split; [apply Z.leb_le|apply Z.ltb_lt]; lia.
Qed.

Lemma lxor_byte a b : 0 <= a < 256 -> 0 <= b < 256 -> Z.lxor a b mod 256 = Z.lxor a b.
Proof.
  intros Ha Hb. change 256 with (2 ^ 8). rewrite <- Z.land_ones by lia.
  rewrite land_lxor, !Z.land_ones by lia. change (2 ^ 8) with 256.
  rewrite !Z.mod_small by lia. reflexivity.
Qed.

Lemma lxor_twice a b : Z.lxor (Z.lxor a b) b = a.
Proof. rewrite Z.lxor_assoc, Z.lxor_nilpotent, Z.lxor_0_r. reflexivity. Qed.

Lemma encode_isBytes s : isBytes (encode s) = true.
Proof.
  unfold encode, isBytes. rewrite forallb_forall. intros b Hb.
  apply in_map_iff in Hb as (ch & <- & _).
  pose proof (N_ascii_bounded ch).
  apply andb_true_intro. split; [apply Z.leb_le|apply Z.ltb_lt]; lia.
Qed.

(** The XOR with the cycled key undoes itself. *)
Lemma xorWithKey_involutive data key :
  isBytes data = true -> isBytes key = true ->
  xorWithKey (xorWithKey data key) key = data.
Proof.
  intros Hd Hk. apply nth_ext with (d := 0) (d' := 0).
  - rewrite !xorWithKey_length. reflexivity.
  - intros i Hi. rewrite !xorWithKey_length in Hi.
    rewrite xorWithKey_nth by (rewrite xorWithKey_length; assumption).
    rewrite xorWithKey_nth by assumption.
    pose proof (isBytes_nth data i Hd). pose proof (isBytes_nth key (i mod length key) Hk).
    rewrite (lxor_byte (nth i data 0)) by assumption.
    rewrite lxor_twice. apply Z.mod_small. assumption.
Qed.

Lemma hex_check :
  forallb (fun n =>
    let b := Z.of_nat n in
    negb (isLineTerminator (fst (hexPair b))) && negb (isLineTerminator (snd (hexPair b)))
    && (toUint8 (parseInt16 (hexPair b)) =? b))
    (seq 0 256) = true.
Proof. vm_compute. reflexivity. Qed.

Lemma hexPair_spec b :
  0 <= b < 256 ->
  isLineTerminator (fst (hexPair b)) = false /\
  isLineTerminator (snd (hexPair b)) = false /\
  toUint8 (parseInt16 (hexPair b)) = b.
Proof.
  revert b. apply byte_cases. intros n Hn.
  pose proof hex_check as H. rewrite forallb_forall in H.
  specialize (H n ltac:(apply in_seq; lia)). cbv zeta in H.
  apply andb_prop in H as [H H3]. apply andb_prop in H as [H1 H2].
  apply negb_true_iff in H1, H2. apply Z.eqb_eq in H3. auto.
Qed.

Lemma toHex2_pair b : toHex2 b = String (fst (hexPair b)) (String (snd (hexPair b)) EmptyString).
Proof. reflexivity. Qed.

Lemma concat_toHex2 b bs :
  String.concat "" (map toHex2 (b :: bs)) =
  String (fst (hexPair b)) (String (snd (hexPair b)) (String.concat "" (map toHex2 bs))).
Proof. destruct bs; reflexivity. Qed.

(** The pairs that the regular expression cuts out of a hexadecimal text are
    the pairs of digits written. *)
Lemma matchPairs_hex bytes :
  isBytes bytes = true ->
  matchPairs (String.concat "" (map toHex2 bytes)) = map hexPair bytes.
Proof.
  induction bytes as [|b bs IH]; intros H; [reflexivity|].
  simpl in H. apply andb_prop in H as [Hb Hbs].
  destruct (hexPair_spec b ltac:(lia)) as (H1 & H2 & _).
  rewrite concat_toHex2. cbn [matchPairs map]. rewrite H1, H2, IH by assumption.
  destruct (hexPair b). reflexivity.
Qed.

Lemma parse_hex bytes :
  isBytes bytes = true ->
  map (fun h => toUint8 (parseInt16 h)) (map hexPair bytes) = bytes.
Proof.
  induction bytes as [|b bs IH]; intros H; [reflexivity|].
  simpl in H. apply andb_prop in H as [Hb Hbs].
  destruct (hexPair_spec b ltac:(lia)) as (_ & _ & H3).
  cbn [map]. rewrite H3, IH by assumption. reflexivity.
Qed.

Lemma decode_encode s : startsWithBOM s = false -> decode (encode s) = s.
Proof.
  unfold startsWithBOM, decode. intros H.
  assert (Hplain : string_of_list_ascii (map (fun b => ascii_of_N (Z.to_N b)) (encode s)) = s).
  { unfold encode. rewrite map_map.
    rewrite (map_ext _ (fun ch => ch)), map_id by
      (intros ch; rewrite N2Z.id; apply ascii_N_embedding).
    apply string_of_list_ascii_of_string. }
  destruct (encode s) as [|b1 [|b2 [|b3 rest]]]; try exact Hplain.
  rewrite H. exact Hplain.
Qed.

Lemma encode_length s : length (encode s) = String.length s.
Proof.
  unfold encode. rewrite length_map. induction s; simpl; [reflexivity|]. rewrite IHs. reflexivity.
Qed.

End Cipher.

(** C5 (amended).  For every message [m] that is not empty and does not
    begin with a byte order mark, and every key [k] (the empty one
    included), [decryptMessage(encryptMessage(m, k), k)] returns [m], where
    [encryptMessage] XORs the UTF-8 bytes of [m] with the bytes of [k]
    cycled and writes each result as two lowercase hexadecimal digits; in
    particular "hi" under the key "k" goes on the wire as "0302" and comes
    back as "hi". *)
Theorem cipher_roundtrip :
  (forall m k : string,
     m <> EmptyString -> startsWithBOM m = false ->
     decryptMessage (encryptMessage m k) k = Some m) /\
  encryptMessage "hi" "k" = "0302"%string /\
  decryptMessage "0302" "k" = Some "hi"%string.
Proof.
  split; [|split; reflexivity].
  intros m k Hm Hbom. unfold encryptMessage, decryptMessage.
  pose proof (xorWithKey_isBytes (encode m) (encode k)) as He.
  rewrite matchPairs_hex by exact He.
  destruct (xorWithKey (encode m) (encode k)) as [|b bs] eqn:Hx.
  - apply (f_equal (@length Z)) in Hx. rewrite xorWithKey_length, encode_length in Hx.
    destruct m; [contradiction|discriminate].
  - change (map hexPair (b :: bs)) with (hexPair b :: map hexPair bs).
    cbv iota beta.
    change (hexPair b :: map hexPair bs) with (map hexPair (b :: bs)).
    rewrite parse_hex by exact He. rewrite <- Hx.
    rewrite xorWithKey_involutive by apply encode_isBytes.
    rewrite decode_encode by exact Hbom. reflexivity.
Qed.

Lemma cipher_roundtrip_witness :
  decryptMessage (encryptMessage "hello" "key") "key" = Some "hello"%string.
Proof.
  destruct cipher_roundtrip as [Hround _].
  apply Hround; [discriminate|reflexivity].
Defined.

(** C5, as stated, fails on the empty message: its ciphertext is the empty
    text, in which the regular expression of [decryptMessage] finds no
    pair, and the method throws instead of returning the message.  It also
    fails on a message that begins with a byte order mark, which the
    decoder of the plaintext drops. *)
Lemma cipher_roundtrip_counterexample :
  let bom := String (ascii_of_nat 239) (String (ascii_of_nat 187)
               (String (ascii_of_nat 191) EmptyString)) in
  "k"%string <> EmptyString /\
  encryptMessage "" "k" = EmptyString /\
  decryptMessage (encryptMessage "" "k") "k" = None /\
  decryptMessage (encryptMessage "" "k") "k" <> Some EmptyString /\
  decryptMessage (encryptMessage (bom ++ "hi") "k") "k" = Some "hi"%string /\
  decryptMessage (encryptMessage (bom ++ "hi") "k") "k" <> Some (bom ++ "hi")%string.
Proof. cbv zeta. repeat split; try (vm_compute; reflexivity); vm_compute; discriminate. Qed.

Section Loopback.

Lemma manager_eta (s : Manager) :
  {| currentRoom := currentRoom s; rooms := rooms s; heap := heap s;
     isPrivateMode := isPrivateMode s; encryptionKey := encryptionKey s;
     messageHistory := messageHistory s; connectedUsers := connectedUsers s;
     ChatManager.myUserId := ChatManager.myUserId s; myUsername := myUsername s;
     transmitted := transmitted s; ui := ui s |} = s.
Proof. destruct s. reflexivity. Qed.

Lemma handleChatMessage_own data s :
  c_fromUserId data = ChatManager.myUserId s -> ChatManager.handleChatMessage data s = s.
Proof.
  intros H. unfold ChatManager.handleChatMessage.
  destruct (negb (inRoom s (c_roomId data))); [reflexivity|].
  rewrite H, String.eqb_refl. reflexivity.
Qed.

Lemma deliver_myUserId data env st :
  UltrasonicComm.myUserId (fst (deliver data env st)) = UltrasonicComm.myUserId (fst st).
Proof.
  unfold deliver, handleReceivedPacket, handleMessage, handleDiscovery, handleHeartbeat.
  destruct data as [b| | | | | | |]; try reflexivity. cbn [fst snd].
  destruct (b_kind b);
    (destruct (decide (b_userId b <> UltrasonicComm.myUserId (fst st))); reflexivity).
Qed.

Lemma deliver_not_self data env st :
  discoveredUsers (fst st) !! UltrasonicComm.myUserId (fst st) = None ->
  discoveredUsers (fst (deliver data env st)) !! UltrasonicComm.myUserId (fst st) = None.
Proof.
  intros H. unfold deliver, handleReceivedPacket, handleMessage, handleDiscovery, handleHeartbeat.
  destruct data as [b| | | | | | |]; try exact H. cbn [fst snd].
  destruct (b_kind b);
    (destruct (decide (b_userId b <> UltrasonicComm.myUserId (fst st))) as [Hne|];
      [cbn [fst discoveredUsers]; rewrite lookup_insert_ne by exact Hne; exact H|exact H]).
Qed.

Lemma deliverAll_not_self stream : forall st,
  discoveredUsers (fst st) !! UltrasonicComm.myUserId (fst st) = None ->
  discoveredUsers (fst (deliverAll stream st)) !! UltrasonicComm.myUserId (fst st) = None.
Proof.
  induction stream as [|[data env] stream IH]; intros st H; [exact H|].
  unfold deliverAll. cbn [fold_left fst snd]. fold (deliverAll stream (deliver data env st)).
  rewrite <- (deliver_myUserId data env st). apply IH.
  rewrite deliver_myUserId. apply deliver_not_self, H.
Qed.

End Loopback.

(** C7.  A received heartbeat or discovery datagram whose [userId] is the
    local one leaves the discovered-users table as it was (and, the manager
    ignoring these types, the whole application state), so that a table
    without the local [userId] stays without it whatever is received; a
    received chat
    datagram whose [fromUserId] is the local one is dropped by
    [handleChatMessage] of the manager, so that on both routes by which
    [handleReceivedPacket] hands it over nothing is added to the history
    and nothing is delivered to the user interface. *)
Theorem self_loopback_suppression :
  (forall (b : Beacon) (env : Env) (comm : Comm) (s : Manager),
     b_userId b = UltrasonicComm.myUserId comm ->
     discoveredUsers (fst (deliver (Announce b) env (comm, s))) = discoveredUsers comm /\
     deliver (Announce b) env (comm, s) = (comm, s)) /\
  (forall (stream : list (Datagram * Env)) (st : Comm * Manager),
     discoveredUsers (fst st) !! UltrasonicComm.myUserId (fst st) = None ->
     discoveredUsers (fst (deliverAll stream st)) !! UltrasonicComm.myUserId (fst st) = None) /\
  (forall (data : ChatData) (env : Env) (comm : Comm) (s : Manager),
     c_fromUserId data = ChatManager.myUserId s ->
     ChatManager.handleChatMessage data s = s /\
     deliver (Chat data) env (comm, s) = (comm, s)).
Proof.
  split; [|split].
  - intros b env comm s H.
    assert (Hd : deliver (Announce b) env (comm, s) = (comm, s)).
    { unfold deliver, handleReceivedPacket, handleMessage, handleDiscovery, handleHeartbeat.
      cbn [fst snd ChatManager.handleIncomingData].
      destruct (b_kind b); (destruct (decide (b_userId b <> UltrasonicComm.myUserId comm));
        [contradiction|reflexivity]). }
    rewrite Hd. split; reflexivity.
  - apply deliverAll_not_self.
  - intros data env comm s H.
    pose proof (handleChatMessage_own data s H) as Hown. split; [exact Hown|].
    unfold deliver, handleReceivedPacket, handleMessage, UltrasonicComm.handleChatMessage.
    cbn [fst snd ChatManager.handleIncomingData]. rewrite !Hown. reflexivity.
Qed.

Lemma self_loopback_suppression_witness :
  let comm := {| UltrasonicComm.myUserId := "a1b2c3d4e"; discoveredUsers := ∅ |} in
  let s := newManager "a1b2c3d4e" "Alice" in
  deliver (Announce {| b_kind := heartbeat; b_userId := "a1b2c3d4e";
                       b_username := "Alice"; b_timestamp := 3000 |})
          {| now := 3400; random := "x" |} (comm, s) = (comm, s).
Proof.
  cbv zeta. destruct self_loopback_suppression as [Hbeacon _].
  apply Hbeacon. reflexivity.
Defined.

(** C10.  Without a current room [togglePrivacyMode] returns [false] and
    changes nothing: [isPrivateMode], [encryptionKey], [rooms], the room
    objects, the history, the datagrams transmitted and the calls of the
    callback slots are what they were. *)
Theorem toggle_without_room (key : string) (env env' : Env) (s : Manager) :
  currentRoom s = None ->
  togglePrivacyMode key env env' s = (false, s).
Proof. intros H. unfold togglePrivacyMode. rewrite H. reflexivity. Qed.

Lemma toggle_without_room_witness :
  togglePrivacyMode "k3y" {| now := 1; random := "a" |} {| now := 2; random := "b" |}
    (newManager "a1b2c3d4e" "Alice")
  = (false, newManager "a1b2c3d4e" "Alice").
Proof. apply toggle_without_room. reflexivity. Defined.

Section History.

Lemma addMessage_history m s :
  messageHistory (addMessage m s) =
  skipn (length (messageHistory s) + 1 - maxHistorySize) (messageHistory s) ++ [m].
Proof.
  unfold addMessage, set_messageHistory, maxHistorySize. cbn [messageHistory].
  rewrite length_app. change (length [m]) with 1%nat.
  destruct (Nat.ltb_spec 100 (length (messageHistory s) + 1)) as [H|H].
  - apply drop_app_le. lia.
  - replace (length (messageHistory s) + 1 - 100)%nat with 0%nat by lia. reflexivity.
Qed.

Lemma addMessage_length m s : (length (messageHistory (addMessage m s)) <= maxHistorySize)%nat.
Proof.
  rewrite addMessage_history, length_app, length_skipn. unfold maxHistorySize. simpl. lia.
Qed.

(** A chat datagram for the current room from somebody else is filed and
    shown, whatever its [messageId]. *)
Lemma handleChatMessage_accept data s :
  inRoom s (c_roomId data) = true ->
  c_fromUserId data <> ChatManager.myUserId s ->
  ChatManager.handleChatMessage data s =
  notify (MessageReceived (filedAs s data)) (addMessage (filedAs s data) s).
Proof.
  intros Hroom Hfrom. unfold ChatManager.handleChatMessage. rewrite Hroom. cbn [negb].
  apply String.eqb_neq in Hfrom. rewrite Hfrom. reflexivity.
Qed.

Lemma filedAs_after m s data :
  filedAs (notify (MessageReceived m) (addMessage m s)) data = filedAs s data.
Proof. reflexivity. Qed.

End History.

(** C8 (amended).  [handleChatMessage] keeps no record of the [messageId]s
    it has seen: any two received chat datagrams for the current room from
    other users, also two that carry the same [messageId] with time stamps
    within 60 seconds, are both added to the history, as its last two
    entries, and both delivered to the user interface. *)
Theorem duplicates_both_filed (s : Manager) (d1 d2 : ChatData) :
  inRoom s (c_roomId d1) = true -> inRoom s (c_roomId d2) = true ->
  c_fromUserId d1 <> ChatManager.myUserId s ->
  c_fromUserId d2 <> ChatManager.myUserId s ->
  let s2 := ChatManager.handleChatMessage d2 (ChatManager.handleChatMessage d1 s) in
  (exists older, messageHistory s2 = older ++ [filedAs s d1; filedAs s d2]) /\
  ui s2 = ui s ++ [MessageReceived (filedAs s d1); MessageReceived (filedAs s d2)] /\
  messageIdOf (filedAs s d1) = c_messageId d1 /\
  messageIdOf (filedAs s d2) = c_messageId d2.
Proof.
  intros Hr1 Hr2 Hf1 Hf2. cbv zeta.
  rewrite (handleChatMessage_accept d1 s) by assumption.
  rewrite handleChatMessage_accept by assumption.
  rewrite filedAs_after.
  set (m1 := filedAs s d1). set (m2 := filedAs s d2).
  split; [|split; [|split; reflexivity]].
  - cbn [notify messageHistory]. rewrite addMessage_history.
    change (messageHistory (notify (MessageReceived m1) (addMessage m1 s)))
      with (messageHistory (addMessage m1 s)).
    pose proof (addMessage_length m1 s) as Hlen. rewrite addMessage_history in Hlen |- *.
    rewrite length_app in Hlen |- *. change (length [m1]) with 1%nat in *.
    rewrite drop_app_le by (unfold maxHistorySize in *; lia).
    rewrite <- app_assoc. eexists. reflexivity.
  - cbn [notify ui addMessage set_messageHistory]. rewrite <- app_assoc. reflexivity.
Qed.

Lemma duplicates_both_filed_witness :
  let s := snd (createOrJoinRoom (Some "room42"%string) false ""
                  {| now := 0; random := "r" |} (newManager "B" "Bob")) in
  let d := {| c_messageId := "m1"; c_roomId := "room42"; c_fromUserId := "A";
              c_fromUsername := "Alice"; c_content := "hello"; c_messageType := "text";
              c_isEncrypted := false; c_timestamp := 1000 |} in
  ui (ChatManager.handleChatMessage d (ChatManager.handleChatMessage d s)) =
  ui s ++ [MessageReceived (filedAs s d); MessageReceived (filedAs s d)].
Proof.
  cbv zeta.
  refine (proj1 (proj2 (duplicates_both_filed _ _ _ _ _ _ _)));
    (vm_compute; congruence).
Defined.

(** C8, as stated, fails: nothing in the code compares [messageId]s, and
    the same chat datagram received twice within a second is filed twice. *)
Lemma duplicates_counterexample :
  let s := snd (createOrJoinRoom (Some "room42"%string) false ""
                  {| now := 0; random := "r" |} (newManager "B" "Bob")) in
  let d1 := {| c_messageId := "m1"; c_roomId := "room42"; c_fromUserId := "A";
               c_fromUsername := "Alice"; c_content := "hello"; c_messageType := "text";
               c_isEncrypted := false; c_timestamp := 1000 |} in
  let d2 := {| c_messageId := "m1"; c_roomId := "room42"; c_fromUserId := "A";
               c_fromUsername := "Alice"; c_content := "hello"; c_messageType := "text";
               c_isEncrypted := false; c_timestamp := 1500 |} in
  let s2 := ChatManager.handleChatMessage d2 (ChatManager.handleChatMessage d1 s) in
  messageHistory s = [] /\
  messageHistory s2 = [ChatMessage d1 false; ChatMessage d2 false] /\
  map messageIdOf (messageHistory s2) = ["m1"; "m1"]%string /\
  ui s2 = ui s ++ [MessageReceived (ChatMessage d1 false); MessageReceived (ChatMessage d2 false)].
Proof. cbv zeta. repeat split; vm_compute; reflexivity. Qed.

Section Expiry.

(** Only a beacon of [uid] itself touches the entry of [uid]. *)
Lemma deliver_other_peer data env st uid :
  (forall b, data = Announce b -> b_userId b <> uid) ->
  discoveredUsers (fst (deliver data env st)) !! uid = discoveredUsers (fst st) !! uid.
Proof.
  intros H. unfold deliver, handleReceivedPacket, handleMessage.
  destruct data as [b| | | | | | |]; try reflexivity.
  specialize (H b eq_refl).
  unfold handleDiscovery, handleHeartbeat. cbn [fst snd].
  destruct (b_kind b);
    (destruct (decide (b_userId b <> UltrasonicComm.myUserId (fst st))); [|reflexivity];
     cbn [fst discoveredUsers]; apply lookup_insert_ne; assumption).
Qed.

Lemma deliverAll_other_peer stream uid : forall st,
  (forall b env, In (Announce b, env) stream -> b_userId b <> uid) ->
  discoveredUsers (fst (deliverAll stream st)) !! uid = discoveredUsers (fst st) !! uid.
Proof.
  induction stream as [|[data env] stream IH]; intros st H; [reflexivity|].
  unfold deliverAll. cbn [fold_left fst snd]. fold (deliverAll stream (deliver data env st)).
  rewrite IH by (intros b env' Hin; apply (H b env'); right; exact Hin).
  apply deliver_other_peer. intros b ->. apply (H b env). left. reflexivity.
Qed.

Lemma cleanupExpiredUsers_lookup now c uid :
  discoveredUsers (cleanupExpiredUsers now c) !! uid =
  match discoveredUsers c !! uid with
  | Some p => if decide (now - lastSeen p > 10000) then None else Some p
  | None => None
  end.
Proof.
  unfold cleanupExpiredUsers. cbn [discoveredUsers]. rewrite map_lookup_filter.
  destruct (discoveredUsers c !! uid) as [p|]; [|reflexivity].
  cbn. destruct (decide (now - lastSeen p > 10000)) as [H|H].
  - rewrite option_guard_False; [reflexivity|]. cbn. intros Hn. apply Hn. exact H.
  - rewrite option_guard_True; [reflexivity|]. cbn. exact H.
Qed.

Lemma notify_all_users events : forall s,
  connectedUsers (fold_left (fun s' event => notify event s') events s) = connectedUsers s.
Proof. induction events as [|e events IH]; intros s; [reflexivity|]. simpl. rewrite IH. reflexivity. Qed.

Lemma notify_all_ui events : forall s,
  ui (fold_left (fun s' event => notify event s') events s) = ui s ++ events.
Proof.
  induction events as [|e events IH]; intros s; simpl.
  - rewrite app_nil_r. reflexivity.
  - rewrite IH. cbn [notify ui]. rewrite <- app_assoc. reflexivity.
Qed.

Lemma cleanupOfflineUsers_users now s :
  connectedUsers (cleanupOfflineUsers now s) =
  (fun user => if (30000 <? now - u_lastSeen user) then offline user else user)
    <$> connectedUsers s.
Proof. unfold cleanupOfflineUsers. rewrite notify_all_users. reflexivity. Qed.

End Expiry.

(** C9 (amended).  Discovery layer: if the table holds a peer and, while no
    heartbeat or discovery datagram of that peer is received, more than 10
    seconds pass since it was last seen, the next [cleanupExpiredUsers]
    deletes its entry, and [getDiscoveredUsers] lists entries of other
    peers only.  Session layer: a connected user not seen for more than 30
    seconds is, at the next [cleanupOfflineUsers], marked offline and
    reported through [onUserLeft], but stays in [connectedUsers], which
    keeps its size. *)
Theorem peer_expiry :
  (forall (st : Comm * Manager) (stream : list (Datagram * Env))
          (uid : string) (p : Peer) (now : Z),
     discoveredUsers (fst st) !! uid = Some p ->
     (forall b env, In (Announce b, env) stream -> b_userId b <> uid) ->
     now - lastSeen p > 10000 ->
     let swept := cleanupExpiredUsers now (fst (deliverAll stream st)) in
     discoveredUsers swept !! uid = None /\
     forall q, q ∈ getDiscoveredUsers swept ->
               exists other, other <> uid /\ discoveredUsers swept !! other = Some q) /\
  (forall (s : Manager) (uid : string) (user : User) (now : Z),
     connectedUsers s !! uid = Some user ->
     now - u_lastSeen user > 30000 ->
     let s' := cleanupOfflineUsers now s in
     connectedUsers s' !! uid = Some (offline user) /\
     UserLeft uid ∈ ui s' /\
     size (connectedUsers s') = size (connectedUsers s) /\
     length (getConnectedUsers s') = length (getConnectedUsers s)).
Proof.
  split.
  - intros st stream uid p now Hp Hquiet Hold. cbv zeta.
    assert (Hgone : discoveredUsers (cleanupExpiredUsers now (fst (deliverAll stream st))) !! uid
                    = None).
    { rewrite cleanupExpiredUsers_lookup, deliverAll_other_peer, Hp by exact Hquiet.
      destruct (decide (now - lastSeen p > 10000)); [reflexivity|contradiction]. }
    split; [exact Hgone|].
    intros q Hq. unfold getDiscoveredUsers in Hq.
    apply list_elem_of_fmap in Hq as ([other q'] & -> & Hin).
    apply elem_of_map_to_list in Hin. exists other. split; [|exact Hin].
    intros ->. rewrite Hgone in Hin. discriminate.
  - intros s uid user now Huser Hold. cbv zeta.
    assert (Hexp : (30000 <? now - u_lastSeen user) = true) by (apply Z.ltb_lt; lia).
    split; [|split; [|split]].
    + rewrite cleanupOfflineUsers_users, lookup_fmap, Huser. cbn. rewrite Hexp. reflexivity.
    + unfold cleanupOfflineUsers. rewrite notify_all_ui. apply elem_of_app. right.
      apply (list_elem_of_fmap_2' _ _ (uid, user)); [|reflexivity].
      apply list_elem_of_filter. split; [exact Hexp|].
      apply elem_of_map_to_list. exact Huser.
    + rewrite cleanupOfflineUsers_users. apply map_size_fmap.
    + unfold getConnectedUsers. rewrite !length_fmap, !length_map_to_list.
      rewrite cleanupOfflineUsers_users. apply map_size_fmap.
Qed.

Lemma peer_expiry_witness :
  let alice := {| beacon := {| b_kind := heartbeat; b_userId := "a1b2c3d4e";
                               b_username := "Alice"; b_timestamp := 3000 |};
                  lastSeen := 3400 |} in
  let comm := {| UltrasonicComm.myUserId := "B";
                 discoveredUsers := {[ "a1b2c3d4e"%string := alice ]} |} in
  discoveredUsers (cleanupExpiredUsers 14400 comm) !! "a1b2c3d4e"%string = None.
Proof.
  cbv zeta. destruct peer_expiry as [Hdiscovery _].
  refine (proj1 (Hdiscovery (_, newManager "B" "Bob") [] "a1b2c3d4e"%string _ 14400 _ _ _)).
  - reflexivity.
  - simpl. intros b env [].
  - simpl. lia.
Defined.

(** C9, as stated, fails at the session layer: [cleanupOfflineUsers] only
    clears [isOnline]; the user unseen for more than 30 seconds is still an
    entry of [connectedUsers] and still listed by [getConnectedUsers]. *)
Lemma peer_expiry_counterexample :
  let alice := {| u_userId := "a1b2c3d4e"; u_username := "Alice";
                  u_lastSeen := 3400; u_isOnline := true |} in
  let s := set_connectedUsers {[ "a1b2c3d4e"%string := alice ]} (newManager "B" "Bob") in
  let s' := cleanupOfflineUsers 33401 s in
  33401 - u_lastSeen alice > 30000 /\
  connectedUsers s' !! "a1b2c3d4e"%string = Some (offline alice) /\
  getConnectedUsers s' = [offline alice] /\
  connectedUsers s' !! "a1b2c3d4e"%string <> None.
Proof. cbv zeta. repeat split; try (vm_compute; reflexivity); vm_compute; discriminate. Qed.

Section Consistency.

Ltac fields :=
  cbn [fst snd currentRoom rooms heap isPrivateMode encryptionKey messageHistory
       connectedUsers ChatManager.myUserId myUsername transmitted ui
       set_currentRoom set_rooms set_heap set_isPrivateMode set_encryptionKey
       set_messageHistory set_connectedUsers transmitData notify updateRoom
       addSystemMessage addMessage clearHistory negb].

(** [consistent] looks at three fields only. *)
Lemma consistent_same s s' :
  currentRoom s' = currentRoom s -> heap s' = heap s -> isPrivateMode s' = isPrivateMode s ->
  consistent s -> consistent s'.
Proof. unfold consistent. intros -> -> ->. exact id. Qed.

Lemma consistent_members l' f s :
  (forall r, r_isPrivate (f r) = r_isPrivate r) ->
  consistent s -> consistent (updateRoom l' f s).
Proof.
  intros Hf. unfold consistent. fields.
  destruct (currentRoom s) as [l|]; [|exact id]. intros (room & Hroom & Hmode).
  destruct (decide (l' = l)) as [->|Hne].
  - exists (f room). rewrite lookup_alter_eq, Hroom. split; [reflexivity|].
    rewrite Hf. exact Hmode.
  - exists room. rewrite lookup_alter_ne by exact Hne. split; assumption.
Qed.

Lemma consistent_alloc room s :
  consistent s -> consistent (set_heap (<[fresh (dom (heap s)) := room]> (heap s)) s).
Proof.
  unfold consistent. fields.
  destruct (currentRoom s) as [l|]; [|exact id]. intros (room0 & Hroom & Hmode).
  exists room0. split; [|exact Hmode]. rewrite lookup_insert_ne; [exact Hroom|].
  intros Heq. pose proof (is_fresh (dom (heap s))) as Hfresh.
  rewrite Heq in Hfresh. apply Hfresh. apply elem_of_dom. exists room0. exact Hroom.
Qed.

Lemma consistent_enter room s s' :
  currentRoom s' = Some (fresh (dom (heap s))) ->
  heap s' = <[fresh (dom (heap s)) := room]> (heap s) ->
  isPrivateMode s' = r_isPrivate room ->
  consistent s'.
Proof.
  intros Hc Hh Hm. unfold consistent. rewrite Hc, Hh, Hm.
  exists room. split; [apply lookup_insert_eq|reflexivity].
Qed.

Lemma addSystemMessage_consistent content env s :
  consistent s -> consistent (addSystemMessage content env s).
Proof. apply consistent_same; reflexivity. Qed.

Lemma handleChatMessage_consistent data s :
  consistent s -> consistent (ChatManager.handleChatMessage data s).
Proof.
  unfold ChatManager.handleChatMessage.
  destruct (negb (inRoom s (c_roomId data))); [exact id|].
  destruct (String.eqb (c_fromUserId data) (ChatManager.myUserId s)); [exact id|].
  apply consistent_same; reflexivity.
Qed.

(** [distributeEncryptionKey] transmits or does nothing. *)
Lemma distributeEncryptionKey_cases env s :
  distributeEncryptionKey env s = s \/
  exists data, distributeEncryptionKey env s = transmitData data s.
Proof.
  unfold distributeEncryptionKey. destruct (theRoom s); [|left; reflexivity].
  destruct (hasKey s); [right; eexists; reflexivity|left; reflexivity].
Qed.

(** What [togglePrivacyMode] does to each field when there is a current
    room. *)
Lemma togglePrivacyMode_fields key env env' s l room :
  currentRoom s = Some l -> heap s !! l = Some room ->
  let private := negb (isPrivateMode s) in
  let newKey := if private then Some key else None in
  let room' := room_set_encryptionKey newKey (room_set_isPrivate private room) in
  let notice :=
    SystemMessage (random env')
      (if private then "聊天室已切换为私密模式" else "聊天室已切换为公开模式") (now env') in
  let s' := snd (togglePrivacyMode key env env' s) in
  fst (togglePrivacyMode key env env' s) = private /\
  currentRoom s' = Some l /\
  rooms s' = rooms s /\
  heap s' !! l = Some room' /\
  (forall l', l' <> l -> heap s' !! l' = heap s !! l') /\
  isPrivateMode s' = private /\
  encryptionKey s' = newKey /\
  messageHistory s' = messageHistory (addMessage notice s) /\
  ChatManager.myUserId s' = ChatManager.myUserId s /\
  myUsername s' = myUsername s /\
  transmitted s' =
    transmitted s ++
    (if private && negb (String.eqb key "")
     then [PrivateKey {| k_roomId := r_id room; k_encryptionKey := key;
                         k_fromUserId := ChatManager.myUserId s;
                         k_timestamp := now env |}]
     else []) /\
  ui s' = ui s ++ [MessageReceived notice; RoomStateChanged (Some l)].
Proof.
  intros Hc Hroom. cbv zeta. unfold togglePrivacyMode. rewrite Hc. fields.
  destruct (isPrivateMode s) eqn:Hmode; fields.
  - rewrite Hc, !lookup_alter_eq, Hroom, app_nil_r, <- app_assoc.
    repeat split; try reflexivity.
    intros l' Hne. rewrite !lookup_alter_ne by congruence. reflexivity.
  - unfold distributeEncryptionKey, theRoom, hasKey. fields.
    rewrite Hc, !lookup_alter_eq, Hroom. cbn [fmap option_fmap option_map default].
    destruct (String.eqb key ""); fields; cbn [andb negb];
      rewrite ?Hc, ?lookup_alter_eq, ?Hroom, ?app_nil_r, <- ?app_assoc;
      (repeat split; try reflexivity;
       intros l' Hne; rewrite !lookup_alter_ne by congruence; reflexivity).
Qed.

Lemma togglePrivacyMode_consistent key env env' s :
  consistent s -> consistent (snd (togglePrivacyMode key env env' s)).
Proof.
  unfold consistent at 1. destruct (currentRoom s) as [l|] eqn:Hc.
  - intros (room & Hroom & Hmode).
    destruct (togglePrivacyMode_fields key env env' s l room Hc Hroom)
      as (_ & Hc' & _ & Hroom' & _ & Hmode' & _).
    unfold consistent. rewrite Hc'. eexists. split; [exact Hroom'|].
    rewrite Hmode'. reflexivity.
  - intros _. unfold togglePrivacyMode, consistent. rewrite Hc. cbn [snd]. rewrite Hc. exact I.
Qed.

Lemma handlePrivateKey_consistent data env s :
  consistent s -> consistent (handlePrivateKey data env s).
Proof.
  unfold handlePrivateKey. destruct (currentRoom s) as [l|] eqn:Hc; [|exact id].
  destruct (inRoom s (k_roomId data)); [|exact id].
  unfold consistent at 1. rewrite Hc. intros (room & Hroom & Hmode).
  unfold consistent. fields. rewrite Hc. eexists.
  rewrite !lookup_alter_eq, Hroom. split; reflexivity.
Qed.

Lemma handleIncomingData_consistent data env s :
  consistent s -> consistent (handleIncomingData data env s).
Proof.
  intros H. destruct data as [b|d|d|d|d|d|d|t]; cbn [handleIncomingData]; try exact H.
  - apply handleChatMessage_consistent, H.
  - unfold ChatManager.handleInvite. destruct (String.eqb _ _); [|exact H].
    revert H. apply consistent_same; reflexivity.
  - unfold handleJoinRoom. destruct (rooms s !! m_roomId d) as [l|]; [|exact H].
    destruct (inRoom s (m_roomId d)); [|exact H].
    apply addSystemMessage_consistent.
    apply (consistent_same (updateRoom l
             (fun r => room_set_members (r_members r ∪ {[ m_userId d ]}) r) s));
      try reflexivity.
    apply consistent_members; [reflexivity|exact H].
  - unfold handleLeaveRoom. destruct (rooms s !! m_roomId d) as [l|]; [|exact H].
    destruct (inRoom s (m_roomId d)); [|exact H].
    apply addSystemMessage_consistent.
    apply (consistent_same (updateRoom l
             (fun r => room_set_members (r_members r ∖ {[ m_userId d ]}) r) s));
      try reflexivity.
    apply consistent_members; [reflexivity|exact H].
  - unfold handleRoomUpdate. destruct (rooms s !! ru_roomId d); [exact H|].
    destruct (ru_isPrivate d); [exact H|].
    eapply consistent_same; cycle 3; [eapply consistent_alloc; exact H|reflexivity..].
  - apply handlePrivateKey_consistent, H.
Qed.

Lemma notify_all_same events : forall s,
  currentRoom (fold_left (fun s' event => notify event s') events s) = currentRoom s /\
  heap (fold_left (fun s' event => notify event s') events s) = heap s /\
  isPrivateMode (fold_left (fun s' event => notify event s') events s) = isPrivateMode s.
Proof.
  induction events as [|e events IH]; intros s; [repeat split|].
  simpl. destruct (IH (notify e s)) as (-> & -> & ->). repeat split.
Qed.

Lemma step_consistent s s' : step s s' -> consistent s -> consistent s'.
Proof.
  intros Hstep H. destruct Hstep as
    [roomId isPrivate key env s | userId roomId env s s' Hinv | inv env s
    | content type env s message s' Hsend | key env env' s | env s | data env s
    | userId userData env s | now s | env s | s].
  - unfold createOrJoinRoom. cbn [snd].
    destruct isPrivate; [eapply consistent_enter; reflexivity|].
    unfold broadcastRoomUpdate.
    destruct (theRoom _) as [r|]; [destruct (r_isPrivate r)|];
      (eapply consistent_enter; reflexivity).
  - unfold inviteUser in Hinv. destruct (String.eqb _ _); [discriminate|].
    destruct (rooms s !! _); [|discriminate]. destruct (heap s !! _); [|discriminate].
    injection Hinv as <-. revert H. apply consistent_same; reflexivity.
  - unfold acceptInvite.
    destruct (i_isPrivate inv) eqn:Hp;
      (eapply consistent_enter; fields; cbn [r_isPrivate]; rewrite ?Hp; reflexivity).
  - unfold sendMessage in Hsend. destruct (theRoom s); [|discriminate].
    injection Hsend as _ <-. revert H. apply consistent_same; reflexivity.
  - apply togglePrivacyMode_consistent, H.
  - unfold leaveRoom. destruct (theRoom s); [|exact H]. exact I.
  - apply handleIncomingData_consistent, H.
  - unfold ChatManager.handleUserDetected.
    destruct (connectedUsers s !! userId); revert H; apply consistent_same; reflexivity.
  - unfold cleanupOfflineUsers.
    match goal with |- consistent (fold_left _ ?events ?s0) =>
      destruct (notify_all_same events s0) as (H1 & H2 & H3) end.
    revert H. apply consistent_same; [rewrite H1|rewrite H2|rewrite H3]; reflexivity.
  - unfold broadcastRoomUpdate. destruct (theRoom s) as [r|]; [|exact H].
    destruct (r_isPrivate r); [exact H|]. revert H. apply consistent_same; reflexivity.
  - revert H. apply consistent_same; reflexivity.
Qed.

(** In every state of a manager in use the current room, when there is
    one, is a room object whose [isPrivate] is [isPrivateMode]. *)
Lemma reachable_consistent s : reachable s -> consistent s.
Proof.
  induction 1 as [userId username|s s' _ IH Hstep]; [exact I|].
  exact (step_consistent s s' Hstep IH).
Qed.

End Consistency.

Section Sending.

Lemma sendMessage_in_room content type env s room :
  theRoom s = Some room ->
  exists own,
    sendMessage content type env s =
    Some (chatFor s room (content, type, env),
          transmitData (Chat (chatFor s room (content, type, env)))
            (addMessage (ChatMessage own true) s)).
Proof. intros H. unfold sendMessage. rewrite H. eexists. reflexivity. Qed.

(** A run of sends transmits, in order, the chat datagram of each message. *)
Lemma sendAll_transmitted msgs : forall s room,
  theRoom s = Some room ->
  transmitted (sendAll msgs s) =
  transmitted s ++ map (fun msg => Chat (chatFor s room msg)) msgs.
Proof.
  induction msgs as [|[[content type] env] msgs IH]; intros s room Hroom.
  - simpl. rewrite app_nil_r. reflexivity.
  - destruct (sendMessage_in_room content type env s room Hroom) as [own Hsend].
    cbn [sendAll]. rewrite Hsend.
    rewrite (IH _ room) by exact Hroom.
    cbn [transmitData transmitted map]. rewrite <- app_assoc. reflexivity.
Qed.

Lemma concat_hex_length bytes :
  String.length (String.concat "" (map toHex2 bytes)) = (2 * length bytes)%nat.
Proof.
  induction bytes as [|b bs IH]; [reflexivity|].
  rewrite concat_toHex2. cbn [String.length length]. rewrite IH. lia.
Qed.

(** The ciphertext is twice as long as the message. *)
Lemma encryptMessage_length content key :
  String.length (encryptMessage content key) = (2 * String.length content)%nat.
Proof.
  unfold encryptMessage. rewrite concat_hex_length, xorWithKey_length, encode_length.
  reflexivity.
Qed.

Lemma encryptMessage_differs content key :
  content <> EmptyString -> encryptMessage content key <> content.
Proof.
  intros Hne Heq. apply (f_equal String.length) in Heq.
  rewrite encryptMessage_length in Heq. destruct content; [contradiction|].
  simpl in Heq. lia.
Qed.

End Sending.

(** C6 (amended).  In every state of a manager in use with a current room,
    [togglePrivacyMode] flips the [isPrivate] flag of the room (and
    [isPrivateMode] with it, which it returns), posts a local system
    message and reports the room state.  On entering private mode it stores
    the key that [generateEncryptionKey()] draws in the manager and in the
    room and, the key not being empty, hands a [private_key] datagram with
    it to [transmitData]; afterwards every chat datagram sent has
    [isEncrypted = true] and as content the ciphertext of the text, which
    differs from the text whenever the text is not empty.  On returning to
    public mode the key is cleared in the manager and in the room, nothing
    is transmitted, and every chat datagram sent afterwards has
    [isEncrypted = false] and the text itself as content. *)
Theorem privacy_toggle (s : Manager) (l : loc) (key : string) (env env' : Env) :
  reachable s -> currentRoom s = Some l ->
  exists room room',
    heap s !! l = Some room /\
    let s' := snd (togglePrivacyMode key env env' s) in
    currentRoom s' = Some l /\
    heap s' !! l = Some room' /\
    r_isPrivate room' = negb (r_isPrivate room) /\
    isPrivateMode s' = r_isPrivate room' /\
    fst (togglePrivacyMode key env env' s) = r_isPrivate room' /\
    (forall msgs,
       transmitted (sendAll msgs s') =
       transmitted s' ++ map (fun msg => Chat (chatFor s' room' msg)) msgs) /\
    (r_isPrivate room = false ->
       let notice := SystemMessage (random env') "聊天室已切换为私密模式" (now env') in
       encryptionKey s' = Some key /\
       r_encryptionKey room' = Some key /\
       messageHistory s' = messageHistory (addMessage notice s) /\
       ui s' = ui s ++ [MessageReceived notice; RoomStateChanged (Some l)] /\
       (key <> EmptyString ->
          transmitted s' =
            transmitted s ++
            [PrivateKey {| k_roomId := r_id room; k_encryptionKey := key;
                           k_fromUserId := ChatManager.myUserId s;
                           k_timestamp := now env |}] /\
          forall content type env0,
            c_isEncrypted (chatFor s' room' (content, type, env0)) = true /\
            c_content (chatFor s' room' (content, type, env0)) = encryptMessage content key /\
            (content <> EmptyString ->
             c_content (chatFor s' room' (content, type, env0)) <> content))) /\
    (r_isPrivate room = true ->
       let notice := SystemMessage (random env') "聊天室已切换为公开模式" (now env') in
       encryptionKey s' = None /\
       r_encryptionKey room' = None /\
       messageHistory s' = messageHistory (addMessage notice s) /\
       ui s' = ui s ++ [MessageReceived notice; RoomStateChanged (Some l)] /\
       transmitted s' = transmitted s /\
       forall content type env0,
         c_isEncrypted (chatFor s' room' (content, type, env0)) = false /\
         c_content (chatFor s' room' (content, type, env0)) = content).
Proof.
  intros Hreach Hc. pose proof (reachable_consistent s Hreach) as Hcons.
  unfold consistent in Hcons. rewrite Hc in Hcons. destruct Hcons as (room & Hroom & Hmode).
  destruct (togglePrivacyMode_fields key env env' s l room Hc Hroom)
    as (Hret & Hc' & _ & Hroom' & _ & Hmode' & Hkey' & Hhist & Hid & Hname & Htx & Hui).
  eexists room, _. split; [exact Hroom|]. cbv zeta.
  split; [exact Hc'|]. split; [exact Hroom'|].
  split; [cbn [r_isPrivate room_set_encryptionKey room_set_isPrivate]; rewrite Hmode; reflexivity|].
  split; [rewrite Hmode'; reflexivity|]. split; [rewrite Hret; reflexivity|].
  split; [intros msgs; apply sendAll_transmitted; unfold theRoom; rewrite Hc'; exact Hroom'|].
  rewrite Hmode. split; intros Hold; rewrite Hold in *; cbn [negb andb] in *.
  - split; [exact Hkey'|]. split; [reflexivity|]. split; [exact Hhist|]. split; [exact Hui|].
    intros Hkey. apply String.eqb_neq in Hkey as Hkeyb. rewrite Hkeyb in Htx. cbn [negb] in Htx.
    split; [exact Htx|]. intros content type env0.
    unfold chatFor, hasKey. rewrite Hmode', Hkey', Hkeyb. cbn [negb andb default].
    repeat split. apply encryptMessage_differs.
  - split; [exact Hkey'|]. split; [reflexivity|]. split; [exact Hhist|]. split; [exact Hui|].
    split; [rewrite Htx; apply app_nil_r|]. intros content type env0.
    unfold chatFor. rewrite Hmode'. cbn [andb]. split; reflexivity.
Qed.

Lemma privacy_toggle_witness :
  let s := snd (createOrJoinRoom (Some "room42"%string) false ""
                  {| now := 0; random := "r" |} (newManager "A" "Alice")) in
  isPrivateMode
    (snd (togglePrivacyMode "k" {| now := 1; random := "a" |} {| now := 2; random := "b" |} s))
  = true.
Proof.
  cbv zeta.
  destruct (privacy_toggle
              (snd (createOrJoinRoom (Some "room42"%string) false ""
                      {| now := 0; random := "r" |} (newManager "A" "Alice")))
              (fresh (dom (∅ : gmap loc Room))) "k"
              {| now := 1; random := "a" |} {| now := 2; random := "b" |})
    as (room & room' & Hroom & _ & _ & Hflip & Hmode & _).
  - apply (reachable_step (newManager "A" "Alice")); constructor.
  - reflexivity.
  - rewrite Hmode, Hflip. vm_compute in Hroom. injection Hroom as <-. reflexivity.
Defined.

(** C6, as stated, fails.  In private mode the empty text is sent as
    itself, its ciphertext being empty: the content is the cleartext.  And
    when [generateEncryptionKey()] draws the empty string (from
    [Math.random() = 0]) no [private_key] datagram is transmitted and the
    chat datagrams carry [isEncrypted = true] with the cleartext. *)
Lemma privacy_toggle_counterexample :
  let s := snd (createOrJoinRoom (Some "room42"%string) false ""
                  {| now := 0; random := "r" |} (newManager "A" "Alice")) in
  let toggled key :=
    snd (togglePrivacyMode key {| now := 1; random := "a" |} {| now := 2; random := "b" |} s) in
  let sent content key :=
    option_map (fun r => (c_isEncrypted (fst r), c_content (fst r)))
      (sendMessage content "text" {| now := 3; random := "c" |} (toggled key)) in
  isPrivateMode (toggled "k") = true /\
  sent ""%string "k"%string = Some (true, ""%string) /\
  isPrivateMode (toggled "") = true /\
  transmitted (toggled "") = transmitted s /\
  sent "hi"%string ""%string = Some (true, "hi"%string).
Proof. cbv zeta. repeat split; vm_compute; reflexivity. Qed.

(** One received chat datagram reaches [handleChatMessage] of the manager
    twice, through the callback of [handleReceivedPacket] and again through
    its dispatch, and is filed twice. *)
Lemma deliver_files_twice :
  let s := snd (createOrJoinRoom (Some "room42"%string) false ""
                  {| now := 0; random := "r" |} (newManager "B" "Bob")) in
  let comm := {| UltrasonicComm.myUserId := "B"; discoveredUsers := ∅ |} in
  let d := {| c_messageId := "m1"; c_roomId := "room42"; c_fromUserId := "A";
              c_fromUsername := "Alice"; c_content := "hello"; c_messageType := "text";
              c_isEncrypted := false; c_timestamp := 1000 |} in
  messageHistory (snd (deliver (Chat d) {| now := 1200; random := "x" |} (comm, s)))
  = [ChatMessage d false; ChatMessage d false].
Proof. cbv zeta. vm_compute. reflexivity. Qed.

(** * Further properties *)

(** ** Further properties of the codec *)

Section Windows.

Lemma byteBits_bits b : isBits (byteBits b) = true.
Proof.
  unfold isBits, byteBits. rewrite forallb_map_seq. apply forallb_forall. intros j _.
  assert (Hmod : Z.land (Z.shiftr b (Z.of_nat j)) 1 = Z.shiftr b (Z.of_nat j) mod 2)
    by (exact (Z.land_ones (Z.shiftr b (Z.of_nat j)) 1 ltac:(lia))).
  rewrite Hmod.
  pose proof (Z.mod_pos_bound (Z.shiftr b (Z.of_nat j)) 2 ltac:(lia)) as H.
  destruct (Z.eqb_spec (Z.shiftr b (Z.of_nat j) mod 2) 0); [reflexivity|].
  destruct (Z.eqb_spec (Z.shiftr b (Z.of_nat j) mod 2) 1); [reflexivity|lia].
Qed.

Lemma isBits_app l1 l2 : isBits (l1 ++ l2) = isBits l1 && isBits l2.
Proof. apply forallb_app. Qed.

Lemma createBitStream_bits bytes : isBits (createBitStream bytes) = true.
Proof.
  induction bytes as [|b bytes IH]; [reflexivity|].
  rewrite createBitStream_cons, isBits_app, byteBits_bits, IH. reflexivity.
Qed.

Lemma isBits_nth bits i : isBits bits = true -> nth i bits 0 = 0 \/ nth i bits 0 = 1.
Proof.
  intros H. destruct (Nat.lt_ge_cases i (length bits)) as [Hlt|Hge].
  - unfold isBits in H. rewrite forallb_forall in H.
    specialize (H _ (nth_In bits 0 Hlt)). lia.
  - left. apply nth_overflow. exact Hge.
Qed.

(** Eight bits packed by the loop of [readByte] and unpacked by the loop of
    [createBitStream] are the same eight bits. *)
Lemma byteBits_readByte_window b0 b1 b2 b3 b4 b5 b6 b7 :
  isBits [b0; b1; b2; b3; b4; b5; b6; b7] = true ->
  byteBits (readByte [b0; b1; b2; b3; b4; b5; b6; b7] 0) = [b0; b1; b2; b3; b4; b5; b6; b7] /\
  0 <= readByte [b0; b1; b2; b3; b4; b5; b6; b7] 0 < 256.
Proof.
  intros H.
  assert (Hb : forall i, nth i [b0; b1; b2; b3; b4; b5; b6; b7] 0 = 0 \/
                         nth i [b0; b1; b2; b3; b4; b5; b6; b7] 0 = 1)
    by (intros i; apply isBits_nth, H).
  pose proof (Hb 0%nat) as H0. pose proof (Hb 1%nat) as H1. pose proof (Hb 2%nat) as H2.
  pose proof (Hb 3%nat) as H3. pose proof (Hb 4%nat) as H4. pose proof (Hb 5%nat) as H5.
  pose proof (Hb 6%nat) as H6. pose proof (Hb 7%nat) as H7.
  cbn [nth] in H0, H1, H2, H3, H4, H5, H6, H7. clear H Hb.
  destruct H0 as [-> | ->], H1 as [-> | ->], H2 as [-> | ->], H3 as [-> | ->],
           H4 as [-> | ->], H5 as [-> | ->], H6 as [-> | ->], H7 as [-> | ->];
    (split; [vm_compute; reflexivity|split; vm_compute; congruence]).
Qed.

Lemma window_eight (bits : list Z) i :
  (i + 8 <= length bits)%nat ->
  firstn 8 (skipn i bits) =
  [nth i bits 0; nth (i + 1) bits 0; nth (i + 2) bits 0; nth (i + 3) bits 0;
   nth (i + 4) bits 0; nth (i + 5) bits 0; nth (i + 6) bits 0; nth (i + 7) bits 0].
Proof.
  intros Hlen. apply nth_ext with (d := 0) (d' := 0).
  - rewrite length_firstn, length_skipn. cbn [length]. lia.
  - intros n Hn. rewrite length_firstn, length_skipn in Hn.
    assert (Hn8 : (n < 8)%nat) by lia.
    rewrite nth_firstn_lt by exact Hn8. rewrite nth_skipn.
    do 8 (destruct n as [|n]; [cbn [nth]; f_equal; lia|]). lia.
Qed.

Lemma readByte_window bits i :
  isBits bits = true -> (i + 8 <= length bits)%nat ->
  byteBits (readByte bits i) = firstn 8 (skipn i bits) /\ 0 <= readByte bits i < 256.
Proof.
  intros Hbits Hlen. rewrite window_eight by exact Hlen.
  set (w := [nth i bits 0; nth (i + 1) bits 0; nth (i + 2) bits 0; nth (i + 3) bits 0;
             nth (i + 4) bits 0; nth (i + 5) bits 0; nth (i + 6) bits 0; nth (i + 7) bits 0]).
  assert (Hread : readByte bits i = readByte w 0).
  { apply readByte_ext. intros j Hj. subst w.
    do 8 (destruct j as [|j]; [cbn [nth Nat.add]; f_equal; lia|]). lia. }
  rewrite Hread. apply byteBits_readByte_window.
  subst w. unfold isBits. cbn [forallb].
  repeat match goal with
  | |- context [nth ?k bits 0] =>
      let H := fresh in
      destruct (isBits_nth bits k Hbits) as [H|H]; rewrite H; clear H
  end; reflexivity.
Qed.

(** The bytes that the loops of [extractPacket] read from [n] byte slots,
    turned into bits again, are the bits they were read from. *)
Lemma createBitStream_read bits i : forall n,
  isBits bits = true -> (i + n * 8 <= length bits)%nat ->
  createBitStream (map (fun t => readByte bits (i + t * 8)) (seq 0 n)) =
  firstn (n * 8) (skipn i bits) /\
  isBytes (map (fun t => readByte bits (i + t * 8)) (seq 0 n)) = true.
Proof.
  induction n as [|n IH]; intros Hbits Hlen; [split; reflexivity|].
  rewrite seq_S, map_app, createBitStream_app, isBytes_app. cbn [map Nat.add].
  destruct (IH Hbits ltac:(lia)) as [IH1 IH2]. rewrite IH1, IH2.
  destruct (readByte_window bits (i + n * 8) Hbits ltac:(lia)) as [Hw Hr].
  unfold createBitStream at 1. cbn [flat_map]. rewrite app_nil_r, Hw. split.
  - replace (S n * 8)%nat with (n * 8 + 8)%nat by lia.
    rewrite <- take_take_drop, drop_drop. reflexivity.
  - cbn [isBytes forallb andb]. 
    destruct (Z.leb_spec 0 (readByte bits (i + n * 8))); [|lia].
    destruct (Z.ltb_spec (readByte bits (i + n * 8)) 256); [reflexivity|lia].
Qed.

End Windows.

Section Soundness.

Lemma scan_Some_header buffer offsets i packet :
  scan buffer offsets = Some (i, packet) ->
  In i offsets /\ matchHeader buffer i = true /\ extractPacket buffer i = Some packet.
Proof.
  induction offsets as [|o offsets IH]; [discriminate|]. cbn [scan].
  destruct (matchHeader buffer o) eqn:Hm.
  - destruct (extractPacket buffer o) as [p|] eqn:He.
    + intros [= <- <-]. repeat split; [left; reflexivity|exact Hm|exact He].
    + intros H. destruct (IH H) as (? & ? & ?). repeat split; [right|..]; assumption.
  - intros H. destruct (IH H) as (? & ? & ?). repeat split; [right|..]; assumption.
Qed.

(** A list of [10 + n] bytes, cut where [extractPacket] cuts it. *)
Lemma frame_parts (l : list Z) n :
  length l = (10 + n)%nat ->
  l = firstn 8 l ++ [nth 8 l 0] ++ slice 9 (length l - 1) l ++ [nth (length l - 1) l 0].
Proof.
  intros Hlen. rewrite Hlen.
  do 9 (destruct l as [|? l]; [discriminate|]).
  cbn [length] in Hlen. assert (Hl : length l = S n) by lia. clear Hlen.
  cbn [firstn app nth]. do 9 f_equal. unfold slice.
  replace (10 + n - 1 - 9)%nat with n by lia.
  replace (10 + n - 1)%nat with (9 + n)%nat by lia.
  cbn [skipn Nat.add nth]. change (drop 0 l) with l.
  rewrite <- (take_drop n l) at 1. apply (f_equal (app (take n l))).
  apply nth_ext with (d := 0) (d' := 0).
  - rewrite length_drop. cbn [length]. lia.
  - intros k Hk. rewrite length_drop in Hk. assert (k = 0)%nat as -> by lia.
    rewrite nth_skipn. cbn [nth]. f_equal. lia.
Qed.

(** What a successful [extractPacket] has read: the bytes of the frame of
    the payload it returns. *)
Lemma extractPacket_reads buffer i packet :
  isBits buffer = true ->
  matchHeader buffer i = true ->
  extractPacket buffer i = Some packet ->
  map (fun t => readByte buffer (i + t * 8)) (seq 0 (plength packet)) =
    frameBytes (payload packet) /\
  (length (payload packet) <= 32)%nat /\
  plength packet = (10 + length (payload packet))%nat /\
  (i + plength packet * 8 <= length buffer)%nat.
Proof.
  intros Hbits Hhead Hex. unfold extractPacket in Hex.
  change (length packetHeader) with 8%nat in Hex.
  destruct (Nat.ltb_spec (length buffer) (i + 8 * 8 + 8)); [discriminate|].
  destruct (Z.ltb_spec maxPayloadLength (readByte buffer (i + 8 * 8))); [discriminate|].
  remember (Z.to_nat (readByte buffer (i + 8 * 8))) as n eqn:Hndef.
  destruct (Nat.ltb_spec (length buffer) (i + (8 + 1 + n + 1) * 8)); [discriminate|].
  destruct (createBitStream_read buffer i (8 + 1 + n + 1) Hbits ltac:(lia)) as [_ Hbytes].
  remember (map (fun t => readByte buffer (i + t * 8)) (seq 0 (8 + 1 + n + 1)))
    as packetBytes eqn:Hpb.
  assert (Hlen : length packetBytes = (10 + n)%nat)
    by (subst packetBytes; rewrite length_map, length_seq; lia).
  remember (slice (8 + 1) (length packetBytes - 1) packetBytes) as p eqn:Hpdef.
  assert (Hp : isBytes p = true).
  { apply isBytes_Forall. subst p. unfold slice.
    apply isBytes_Forall in Hbytes.
    apply Forall_take, Forall_drop, Hbytes. }
  rewrite toUint8Array_id in Hex by exact Hp.
  destruct (Z.eqb_spec (nth (length packetBytes - 1) packetBytes 0) (calculateCRC p))
    as [Hcrc|]; [|discriminate].
  injection Hex as <-. cbn [payload plength].
  assert (Hpl : length p = n).
  { subst p. unfold slice. rewrite length_firstn, length_skipn. lia. }
  destruct (readByte_window buffer (i + 8 * 8) Hbits ltac:(lia)) as [_ Hrange].
  assert (Hn : Z.of_nat n = readByte buffer (i + 8 * 8)) by lia.
  rewrite Hlen, Hpl. split; [|unfold maxPayloadLength in *; lia].
  replace (10 + n)%nat with (8 + 1 + n + 1)%nat by lia. rewrite <- Hpb.
  rewrite (frame_parts packetBytes n Hlen) at 1.
  change (slice 9 (length packetBytes - 1) packetBytes)
    with (slice (8 + 1) (length packetBytes - 1) packetBytes).
  rewrite <- Hpdef.
  unfold frameBytes, frameWith. f_equal; [|f_equal; [|f_equal]].
  - subst packetBytes. replace (8 + 1 + n + 1)%nat with (8 + (n + 2))%nat by lia.
    rewrite seq_app, map_app, take_app_length' by (rewrite length_map, length_seq; reflexivity).
    rewrite matchHeader_spec in Hhead. rewrite forallb_forall in Hhead.
    apply nth_ext with (d := 0) (d' := 0); [reflexivity|].
    intros t Ht. rewrite length_map, length_seq in Ht.
    rewrite (nth_indep _ 0 (readByte buffer (i + 0 * 8))) by (rewrite length_map, length_seq; exact Ht).
    rewrite (map_nth (fun t => readByte buffer (i + t * 8))), seq_nth by exact Ht.
    specialize (Hhead t ltac:(apply in_seq; lia)). cbn [Nat.add]. lia.
  - subst packetBytes.
    rewrite (nth_indep _ 0 (readByte buffer (i + 0 * 8))) by (rewrite length_map, length_seq; lia).
    rewrite (map_nth (fun t => readByte buffer (i + t * 8))), seq_nth by lia.
    cbn [Nat.add]. rewrite Hpl, Hn. rewrite Z.mod_small by lia. reflexivity.
  - rewrite Hcrc. reflexivity.
Qed.

End Soundness.

(** X1.  The bit stream of a packet has eight bits per byte, each of them
    0 or 1, and the byte loop of the decoder, run at the byte boundaries of
    the stream (whatever follows it), reads the bytes of the packet back:
    LSB-first packing and unpacking are inverse. *)
Theorem bit_stream_roundtrip (packet tail : list Z) :
  isBytes packet = true ->
  length (createBitStream packet) = (8 * length packet)%nat /\
  isBits (createBitStream packet) = true /\
  map (fun k => readByte (createBitStream packet ++ tail) (k * 8)) (seq 0 (length packet))
  = packet.
Proof.
  intros Hbytes. split; [rewrite createBitStream_length; lia|].
  split; [apply createBitStream_bits|].
  apply nth_ext with (d := 0) (d' := 0); [rewrite length_map, length_seq; reflexivity|].
  intros k Hk. rewrite length_map, length_seq in Hk.
  rewrite (nth_indep _ 0 (readByte (createBitStream packet ++ tail) (0 * 8)))
    by (rewrite length_map, length_seq; exact Hk).
  rewrite (map_nth (fun k => readByte (createBitStream packet ++ tail) (k * 8))).
  rewrite seq_nth by exact Hk. cbn [Nat.add].
  apply readByte_stream; assumption.
Qed.

Lemma bit_stream_roundtrip_witness :
  map (fun k => readByte (createBitStream [1; 0; 173; 255] ++ [1; 1; 0]) (k * 8))
      (seq 0 (length [1; 0; 173; 255])) = [1; 0; 173; 255].
Proof. apply (bit_stream_roundtrip [1; 0; 173; 255] [1; 1; 0]). reflexivity. Defined.

(** X2.  The decoder invents nothing: when [tryDecodePacket] hands a packet
    over, the buffer of received bits holds, at a byte boundary, exactly
    the bits of the frame of that payload (sync header, length byte,
    payload, XOR checksum); the payload has at most 32 bytes; and the
    buffer that remains is what followed the frame. *)
Theorem decoder_soundness (buffer rest : list Z) (packet : Packet) :
  isBits buffer = true ->
  tryDecodePacket buffer = (rest, Some packet) ->
  exists k : nat,
    slice (k * 8) (k * 8 + plength packet * 8) buffer =
      createBitStream (frameBytes (payload packet)) /\
    rest = skipn (k * 8 + plength packet * 8) buffer /\
    plength packet = (10 + length (payload packet))%nat /\
    (length (payload packet) <= 32)%nat /\
    isBytes (payload packet) = true.
Proof.
  intros Hbits Hdec. unfold tryDecodePacket in Hdec.
  change (length packetHeader) with 8%nat in Hdec.
  destruct (Nat.ltb_spec (length buffer) ((8 + 2) * 8)) as [|Hlong]; [discriminate|].
  destruct (scan buffer (candidates buffer)) as [[i found]|] eqn:Hscan.
  - injection Hdec as <- <-.
    destruct (scan_Some_header _ _ _ _ Hscan) as (Hin & Hhead & Hex).
    destruct (in_candidates buffer i ltac:(lia) Hin) as (k & -> & _).
    destruct (extractPacket_reads buffer (k * 8) found Hbits Hhead Hex)
      as (Hread & Hshort & Hplen & Hfit).
    destruct (createBitStream_read buffer (k * 8) (plength found) Hbits Hfit)
      as [Hstream Hbytes].
    exists k. repeat split; try assumption.
    + unfold slice. replace (k * 8 + plength found * 8 - k * 8)%nat
        with (plength found * 8)%nat by lia.
      rewrite <- Hstream, Hread. reflexivity.
    + rewrite Hread in Hbytes. unfold frameBytes, frameWith in Hbytes.
      rewrite !isBytes_app in Hbytes.
      apply andb_prop in Hbytes as [_ Hbytes]. apply andb_prop in Hbytes as [_ Hbytes].
      apply andb_prop in Hbytes as [Hbytes _]. exact Hbytes.
  - destruct (1000 <? length buffer)%nat; discriminate.
Qed.

Lemma decoder_soundness_witness :
  exists k : nat,
    slice (k * 8) (k * 8 + 11 * 8)
      ([0; 1; 1; 0; 0; 0; 0; 0] ++ createBitStream (frameBytes [65]) ++ [1; 0; 1])
    = createBitStream (frameBytes [65]).
Proof.
  destruct (decoder_soundness
              ([0; 1; 1; 0; 0; 0; 0; 0] ++ createBitStream (frameBytes [65]) ++ [1; 0; 1])
              [1; 0; 1] {| payload := [65]; plength := 11 |})
    as (k & Hk & _); [reflexivity|reflexivity|].
  exists k. exact Hk.
Defined.

Section ReceiverBounds.

(** The payload of an extracted packet, whatever the buffer holds. *)
Lemma extractPacket_payload buffer i packet :
  extractPacket buffer i = Some packet ->
  (length (payload packet) <= 32)%nat /\ isBytes (payload packet) = true.
Proof.
  unfold extractPacket. change (length packetHeader) with 8%nat.
  destruct (_ <? _)%nat; [discriminate|].
  destruct (Z.ltb_spec maxPayloadLength (readByte buffer (i + 8 * 8))) as [|Hmax];
    [discriminate|].
  remember (Z.to_nat (readByte buffer (i + 8 * 8))) as n eqn:Hn.
  destruct (_ <? _)%nat; [discriminate|].
  remember (map (fun t => readByte buffer (i + t * 8)) (seq 0 (8 + 1 + n + 1)))
    as packetBytes eqn:Hpb.
  destruct (_ =? _); [|discriminate]. intros [= <-]. cbn [payload]. split.
  - unfold toUint8Array, slice.
    rewrite length_map, length_firstn, length_skipn. subst packetBytes.
    rewrite length_map, length_seq. unfold maxPayloadLength in *. lia.
  - unfold toUint8Array, isBytes. rewrite forallb_map_seq. apply forallb_forall.
    intros v _. pose proof (Z.mod_pos_bound v 256 ltac:(lia)). lia.
Qed.

Lemma tryDecodePacket_bounds buffer :
  (length buffer <= 1001)%nat ->
  (length (fst (tryDecodePacket buffer)) <= 1000)%nat /\
  forall packet, snd (tryDecodePacket buffer) = Some packet ->
    (length (payload packet) <= 32)%nat /\ isBytes (payload packet) = true.
Proof.
  intros Hlen. unfold tryDecodePacket. change (length packetHeader) with 8%nat.
  destruct (Nat.ltb_spec (length buffer) ((8 + 2) * 8)).
  - cbn [fst snd]. split; [lia|discriminate].
  - destruct (scan buffer (candidates buffer)) as [[i found]|] eqn:Hscan.
    + destruct (scan_Some _ _ _ _ Hscan) as [_ Hex]. cbn [fst snd]. split.
      * rewrite length_skipn. destruct (extractPacket_Some _ _ _ Hex). lia.
      * intros packet [= <-]. exact (extractPacket_payload _ _ _ Hex).
    + destruct (Nat.ltb_spec 1000 (length buffer)); cbn [fst snd].
      * split; [rewrite length_skipn; lia|discriminate].
      * split; [lia|discriminate].
Qed.

Lemma processBit_bounded mode r bit t : bounded r -> bounded (processBit mode r bit t).
Proof.
  intros [Hbuf Hrec]. unfold processBit.
  destruct (bitBuffer r) as [b|] eqn:Hb.
  - specialize (Hbuf b eq_refl).
    destruct (Qle_bool _ _).
    + destruct (tryDecodePacket (b ++ [bit])) as [b2 packet] eqn:Hdec.
      destruct (tryDecodePacket_bounds (b ++ [bit])) as [H1 H2];
        [rewrite length_app; cbn [length]; lia|]. rewrite Hdec in H1, H2. cbn [fst snd] in *.
      split; cbn [bitBuffer received].
      * intros ? [= <-]. exact H1.
      * apply Forall_app. split; [exact Hrec|].
        destruct packet as [p|]; [|constructor].
        constructor; [exact (H2 p eq_refl)|constructor].
    + destruct (tryDecodePacket ([] ++ [bit])) as [b2 packet] eqn:Hdec.
      destruct (tryDecodePacket_bounds ([] ++ [bit])) as [H1 H2]; [cbn; lia|].
      rewrite Hdec in H1, H2. cbn [fst snd] in *.
      split; cbn [bitBuffer received].
      * intros ? [= <-]. exact H1.
      * apply Forall_app. split; [exact Hrec|].
        destruct packet as [p|]; [|constructor].
        constructor; [exact (H2 p eq_refl)|constructor].
  - destruct (Qle_bool _ _);
      (destruct (tryDecodePacket ([] ++ [bit])) as [b2 packet] eqn:Hdec;
       destruct (tryDecodePacket_bounds ([] ++ [bit])) as [H1 H2]; [cbn; lia|];
       rewrite Hdec in H1, H2; cbn [fst snd] in *;
       split; cbn [bitBuffer received];
       [intros ? [= <-]; exact H1
       |apply Forall_app; split; [exact Hrec|];
        destruct packet as [p|]; [|constructor];
        constructor; [exact (H2 p eq_refl)|constructor]]).
Qed.

Lemma feed_bounded mode bits : forall r, bounded r -> bounded (feed mode r bits).
Proof.
  induction bits as [|[bit t] bits IH]; intros r Hr; [exact Hr|].
  rewrite feed_cons. apply IH, processBit_bounded, Hr.
Qed.



End ReceiverBounds.

(** X3.  Whatever bits arrive and whenever they arrive, the receive buffer
    never holds more than 1000 bits after a call of [processBit], and every
    payload handed to [handleReceivedPacket] is a byte array of at most 32
    bytes. *)
Theorem receiver_bounded (mode : Mode) (bits : list (Z * Q)) :
  (forall buffer, bitBuffer (feed mode newReceiver bits) = Some buffer ->
     (length buffer <= 1000)%nat) /\
  Forall (fun q => (length q <= 32)%nat /\ isBytes q = true)
         (received (feed mode newReceiver bits)).
Proof.
  apply feed_bounded. split; [discriminate|constructor].
Qed.



Section Checksum.

Lemma calculateCRC_cons b data : calculateCRC (b :: data) = Z.lxor (Z.land b 255) (calculateCRC data).
Proof.
  unfold calculateCRC. cbn [fold_left]. rewrite fold_lxor, land_lxor.
  rewrite Z.lxor_0_l. reflexivity.
Qed.

Lemma calculateCRC_Permutation p q : Permutation p q -> calculateCRC p = calculateCRC q.
Proof.
  induction 1 as [|x l l' _ IH|x y l|l l' l'' _ IH1 _ IH2].
  - reflexivity.
  - rewrite !calculateCRC_cons, IH. reflexivity.
  - rewrite !calculateCRC_cons, <- !Z.lxor_assoc, (Z.lxor_comm (Z.land y 255)). reflexivity.
  - congruence.
Qed.

End Checksum.

(** X5.  The checksum does not see the order of the payload bytes: the XOR
    of a payload equals that of any permutation of it, so a frame whose
    payload bytes are permuted while its checksum byte is kept passes the
    check of [extractPacket], which returns the permuted payload. *)
Theorem checksum_order_blind (p q : list Z) :
  isBytes p = true -> (length p <= 32)%nat -> Permutation p q ->
  calculateCRC q = calculateCRC p /\
  extractPacket (createBitStream (frameWith q (calculateCRC p))) 0 =
    Some {| payload := q; plength := (10 + length q)%nat |}.
Proof.
  intros Hbytes Hshort Hperm.
  assert (Hcrc : calculateCRC q = calculateCRC p)
    by (symmetry; apply calculateCRC_Permutation, Hperm).
  split; [exact Hcrc|].
  assert (Hq : isBytes q = true).
  { apply isBytes_Forall. apply isBytes_Forall in Hbytes.
    exact (Permutation_Forall Hperm Hbytes). }
  assert (Hlen : (length q <= 32)%nat) by (rewrite <- (Permutation_length Hperm); exact Hshort).
  pose proof (extractPacket_whole [] q (calculateCRC p) [] [] eq_refl Hq eq_refl Hlen
                (calculateCRC_range p)) as H.
  cbn [app length Nat.mul] in H. rewrite !app_nil_r in H. rewrite H.
  rewrite Hcrc, Z.eqb_refl. reflexivity.
Qed.

Lemma checksum_order_blind_witness :
  extractPacket (createBitStream (frameWith [66; 65; 67] (calculateCRC [65; 66; 67]))) 0 =
    Some {| payload := [66; 65; 67]; plength := 13 |}.
Proof.
  apply (checksum_order_blind [65; 66; 67] [66; 65; 67]); [reflexivity|cbn; lia|].
  apply perm_swap.
Defined.

(** ** Further properties of the peer table and the dispatch *)



Section Sweep.

Lemma comm_eq (c1 c2 : Comm) :
  UltrasonicComm.myUserId c1 = UltrasonicComm.myUserId c2 ->
  discoveredUsers c1 = discoveredUsers c2 -> c1 = c2.
Proof. destruct c1, c2. cbn. intros -> ->. reflexivity. Qed.

End Sweep.

(** X7.  [cleanupExpiredUsers] removes exactly the peers last seen more than
    10 seconds ago: what it leaves is a part of the table, every peer left
    was seen within 10 seconds, every peer seen within 10 seconds is left as
    it was, the list of [getDiscoveredUsers] does not grow, and running it a
    second time at the same moment changes nothing. *)
Theorem sweep_removes_stale_only (now : Z) (c : Comm) :
  discoveredUsers (cleanupExpiredUsers now c) ⊆ discoveredUsers c /\
  (forall uid p, discoveredUsers (cleanupExpiredUsers now c) !! uid = Some p ->
     now - lastSeen p <= 10000) /\
  (forall uid p, discoveredUsers c !! uid = Some p -> now - lastSeen p <= 10000 ->
     discoveredUsers (cleanupExpiredUsers now c) !! uid = Some p) /\
  (length (getDiscoveredUsers (cleanupExpiredUsers now c)) <= length (getDiscoveredUsers c))%nat /\
  cleanupExpiredUsers now (cleanupExpiredUsers now c) = cleanupExpiredUsers now c.
Proof.
  assert (Hsub : discoveredUsers (cleanupExpiredUsers now c) ⊆ discoveredUsers c)
    by apply map_filter_subseteq.
  split; [exact Hsub|]. split; [|split; [|split]].
  - intros uid p. rewrite cleanupExpiredUsers_lookup.
    destruct (discoveredUsers c !! uid) as [p0|]; [|discriminate].
    destruct (decide _); [discriminate|]. intros [= <-]. lia.
  - intros uid p Hp Hfresh. rewrite cleanupExpiredUsers_lookup, Hp.
    destruct (decide _); [lia|reflexivity].
  - unfold getDiscoveredUsers. rewrite !length_fmap, !length_map_to_list.
    apply map_subseteq_size, Hsub.
  - apply comm_eq; [reflexivity|]. apply map_eq. intros uid.
    rewrite (cleanupExpiredUsers_lookup now (cleanupExpiredUsers now c)).
    rewrite cleanupExpiredUsers_lookup.
    destruct (discoveredUsers c !! uid) as [p0|]; [|reflexivity].
    destruct (decide (now - lastSeen p0 > 10000)) as [Hgt|Hle]; [reflexivity|].
    destruct (decide _); [contradiction|reflexivity].
Qed.

(** X8.  How a parsed datagram reaches the chat manager:
    [handleReceivedPacket] calls [onDataReceived] for every datagram, and
    [handleMessage] calls it once more for the types chat and invite.  So a
    chat or an invite datagram is handled twice by the manager, a
    join_room, leave_room, room_update or private_key datagram once, a
    heartbeat or discovery datagram of another user goes to the table and to
    [handleUserDetected], one of the local user and a datagram of any other
    type change nothing. *)
Theorem dispatch (data : Datagram) (env : Env) (comm : Comm) (s : Manager) :
  deliver data env (comm, s) =
  match data with
  | Chat d => (comm, ChatManager.handleChatMessage d (ChatManager.handleChatMessage d s))
  | Invite d => (comm, ChatManager.handleInvite d (ChatManager.handleInvite d s))
  | JoinRoom d => (comm, handleJoinRoom d env s)
  | LeaveRoom d => (comm, handleLeaveRoom d env s)
  | RoomUpdate d => (comm, handleRoomUpdate d s)
  | PrivateKey d => (comm, handlePrivateKey d env s)
  | Announce b =>
      if decide (b_userId b = UltrasonicComm.myUserId comm) then (comm, s)
      else
        ({| UltrasonicComm.myUserId := UltrasonicComm.myUserId comm;
            discoveredUsers :=
              <[b_userId b := {| beacon := b; lastSeen := now env |}]>
                (discoveredUsers comm) |},
         ChatManager.handleUserDetected (b_userId b) b env s)
  | Unknown _ => (comm, s)
  end.
Proof.
  unfold deliver, handleReceivedPacket, handleMessage, handleDiscovery, handleHeartbeat,
    UltrasonicComm.handleChatMessage, UltrasonicComm.handleInvite.
  destruct data as [b|d|d|d|d|d|d|t]; cbn [handleIncomingData fst snd]; try reflexivity.
  destruct (b_kind b);
    (destruct (decide (b_userId b <> _)) as [Hne|Heq];
     destruct (decide (b_userId b = _)) as [He|Hn]; try reflexivity;
     [contradiction|exfalso; apply Heq; exact Hn]).
Qed.

(** ** Further properties of the session *)

Section Effects.

Ltac fields :=
  cbn [fst snd currentRoom rooms heap isPrivateMode encryptionKey messageHistory
       connectedUsers ChatManager.myUserId myUsername transmitted ui
       set_currentRoom set_rooms set_heap set_isPrivateMode set_encryptionKey
       set_messageHistory set_connectedUsers transmitData notify updateRoom negb].

(** The fields that the callbacks [notify] and a run of them leave alone. *)
Lemma notify_all_fields events : forall s,
  let s' := fold_left (fun s' event => notify event s') events s in
  messageHistory s' = messageHistory s /\ ChatManager.myUserId s' = ChatManager.myUserId s /\
  transmitted s' = transmitted s /\ rooms s' = rooms s /\ encryptionKey s' = encryptionKey s.
Proof.
  induction events as [|e events IH]; intros s; [repeat split|].
  cbn [fold_left]. destruct (IH (notify e s)) as (-> & -> & -> & -> & ->). repeat split.
Qed.

Lemma historyEffect_same s s' :
  ChatManager.myUserId s' = ChatManager.myUserId s -> messageHistory s' = messageHistory s ->
  historyEffect s s'.
Proof. intros H1 H2. split; [exact H1|left; exact H2]. Qed.

Lemma historyEffect_system content env s0 s :
  ChatManager.myUserId s0 = ChatManager.myUserId s -> messageHistory s0 = messageHistory s ->
  historyEffect s (addSystemMessage content env s0).
Proof.
  intros H1 H2. split; [exact H1|]. right. right.
  exists (SystemMessage (random env) content (now env)). split; [|exact I].
  unfold addSystemMessage, addMessage. fields. rewrite H2. reflexivity.
Qed.

Lemma step_historyEffect s s' : step s s' -> historyEffect s s'.
Proof.
  intros Hstep. destruct Hstep as
    [roomId isPrivate key env s | userId roomId env s s' Hinv | inv env s
    | content type env s message s' Hsend | key env env' s | env s | data env s
    | userId userData env s | now s | env s | s].
  - unfold createOrJoinRoom. cbn [snd]. destruct isPrivate.
    + apply historyEffect_same; reflexivity.
    + unfold broadcastRoomUpdate. destruct (theRoom _) as [r|]; [destruct (r_isPrivate r)|];
        apply historyEffect_same; reflexivity.
  - unfold inviteUser in Hinv. destruct (String.eqb _ _); [discriminate|].
    destruct (rooms s !! _); [|discriminate]. destruct (heap s !! _); [|discriminate].
    injection Hinv as <-. apply historyEffect_same; reflexivity.
  - unfold acceptInvite. destruct (i_isPrivate inv) eqn:Hp; cbn [r_isPrivate]; rewrite ?Hp;
      apply historyEffect_same; reflexivity.
  - unfold sendMessage in Hsend. destruct (theRoom s); [|discriminate].
    injection Hsend as _ <-. split; [reflexivity|]. right. right.
    eexists. split; [reflexivity|]. cbn [flagged c_fromUserId]. split; reflexivity.
  - unfold togglePrivacyMode. destruct (currentRoom s) as [l|]; cbn [snd];
      [|apply historyEffect_same; reflexivity]. fields.
    destruct (isPrivateMode s); fields.
    + split; [reflexivity|]. right. right. eexists. split; [reflexivity|exact I].
    + destruct (distributeEncryptionKey_cases env
        (updateRoom l (room_set_encryptionKey (Some key))
           (set_encryptionKey (Some key)
              (updateRoom l (room_set_isPrivate true) (set_isPrivateMode true s)))))
        as [->|[d ->]];
        (split; [reflexivity|]; right; right; eexists; split; [reflexivity|exact I]).
  - unfold leaveRoom. destruct (theRoom s); apply historyEffect_same; reflexivity.
  - destruct data as [b|d|d|d|d|d|d|t]; cbn [handleIncomingData];
      try (apply historyEffect_same; reflexivity).
    + unfold ChatManager.handleChatMessage.
      destruct (negb (inRoom s (c_roomId d))); [apply historyEffect_same; reflexivity|].
      destruct (String.eqb_spec (c_fromUserId d) (ChatManager.myUserId s)) as [|Hne];
        [apply historyEffect_same; reflexivity|].
      split; [reflexivity|]. right. right. eexists. split; [reflexivity|].
      cbn [flagged c_fromUserId]. split; [discriminate|contradiction].
    + unfold ChatManager.handleInvite. destruct (String.eqb _ _);
        apply historyEffect_same; reflexivity.
    + unfold handleJoinRoom. destruct (rooms s !! m_roomId d) as [l|];
        [|apply historyEffect_same; reflexivity].
      destruct (inRoom s (m_roomId d)); [|apply historyEffect_same; reflexivity].
      apply historyEffect_system; reflexivity.
    + unfold handleLeaveRoom. destruct (rooms s !! m_roomId d) as [l|];
        [|apply historyEffect_same; reflexivity].
      destruct (inRoom s (m_roomId d)); [|apply historyEffect_same; reflexivity].
      apply historyEffect_system; reflexivity.
    + unfold handleRoomUpdate. destruct (rooms s !! ru_roomId d);
        [apply historyEffect_same; reflexivity|].
      destruct (ru_isPrivate d); apply historyEffect_same; reflexivity.
    + unfold handlePrivateKey. destruct (currentRoom s) as [l|];
        [|apply historyEffect_same; reflexivity].
      destruct (inRoom s (k_roomId d)); [|apply historyEffect_same; reflexivity].
      split; [reflexivity|]. right. right. eexists. split; [reflexivity|exact I].
  - unfold ChatManager.handleUserDetected.
    destruct (connectedUsers s !! userId); apply historyEffect_same; reflexivity.
  - unfold cleanupOfflineUsers.
    match goal with |- historyEffect _ (fold_left _ ?events ?s0) =>
      destruct (notify_all_fields events s0) as (H1 & H2 & _) end.
    apply historyEffect_same; [rewrite H2|rewrite H1]; reflexivity.
  - unfold broadcastRoomUpdate. destruct (theRoom s) as [r|];
      [destruct (r_isPrivate r)|]; apply historyEffect_same; reflexivity.
  - split; [reflexivity|]. right. left. reflexivity.
Qed.

End Effects.

Section History2.

Lemma reachable_history s :
  reachable s ->
  (length (messageHistory s) <= maxHistorySize)%nat /\
  Forall (flagged (ChatManager.myUserId s)) (messageHistory s).
Proof.
  induction 1 as [userId username|s s' _ [IHlen IHflag] Hstep].
  - split; [cbn; lia|constructor].
  - destruct (step_historyEffect s s' Hstep) as [Hid [Hh|[Hh|(m & Hh & Hm)]]];
      rewrite Hid, Hh.
    + split; assumption.
    + split; [cbn; lia|constructor].
    + split; [apply addMessage_length|].
      rewrite addMessage_history. apply Forall_app. split.
      * apply Forall_drop, IHflag.
      * constructor; [exact Hm|constructor].
Qed.

End History2.

(** X9.  The message history of a manager in use never holds more than 100
    entries: whatever calls are made and whatever datagrams arrive,
    [addMessage] drops the oldest entries beyond that. *)
Theorem history_bounded (s : Manager) :
  reachable s -> (length (getMessageHistory s) <= 100)%nat.
Proof. intros H. exact (proj1 (reachable_history s H)). Qed.

Lemma history_bounded_witness :
  (length (getMessageHistory
             (handleIncomingData
                (Chat {| c_messageId := "m1"; c_roomId := "room42"; c_fromUserId := "A";
                         c_fromUsername := "Alice"; c_content := "hello";
                         c_messageType := "text"; c_isEncrypted := false;
                         c_timestamp := 1000 |})
                {| now := 1; random := "x" |}
                (snd (createOrJoinRoom (Some "room42"%string) false ""
                        {| now := 0; random := "r" |} (newManager "B" "Bob")))))
   <= 100)%nat.
Proof.
  apply history_bounded.
  eapply reachable_step; [eapply reachable_step; [apply reachable_new|]|].
  - apply step_createOrJoinRoom.
  - apply step_handleIncomingData.
Defined.

(** X10.  In the history of a manager in use the flag [isOwn] of a chat
    message is true exactly when its [fromUserId] is the local user:
    [sendMessage] files the own messages, [handleChatMessage] only those of
    other users. *)
Theorem own_flag_sound (s : Manager) (data : ChatData) (isOwn : bool) :
  reachable s ->
  In (ChatMessage data isOwn) (getMessageHistory s) ->
  (isOwn = true <-> c_fromUserId data = ChatManager.myUserId s).
Proof.
  intros H Hin. destruct (reachable_history s H) as [_ Hflag].
  rewrite Forall_forall in Hflag. apply list_elem_of_In in Hin.
  exact (Hflag _ Hin).
Qed.

Lemma own_flag_sound_witness :
  let d := {| c_messageId := "m1"; c_roomId := "room42"; c_fromUserId := "A";
              c_fromUsername := "Alice"; c_content := "hello"; c_messageType := "text";
              c_isEncrypted := false; c_timestamp := 1000 |} in
  let s := handleIncomingData (Chat d) {| now := 1; random := "x" |}
             (snd (createOrJoinRoom (Some "room42"%string) false ""
                     {| now := 0; random := "r" |} (newManager "B" "Bob"))) in
  false = true <-> c_fromUserId d = ChatManager.myUserId s.
Proof.
  cbv zeta. apply own_flag_sound.
  - eapply reachable_step; [eapply reachable_step; [apply reachable_new|]|].
    + apply step_createOrJoinRoom.
    + apply step_handleIncomingData.
  - vm_compute. left. reflexivity.
Defined.

Section Registry.

Ltac fields :=
  cbn [fst snd currentRoom rooms heap isPrivateMode encryptionKey messageHistory
       connectedUsers ChatManager.myUserId myUsername transmitted ui
       set_currentRoom set_rooms set_heap set_isPrivateMode set_encryptionKey
       set_messageHistory set_connectedUsers transmitData notify updateRoom
       addSystemMessage addMessage clearHistory negb].

Lemma fresh_heap (s : Manager) l room : heap s !! l = Some room -> l <> fresh (dom (heap s)).
Proof.
  intros Hl Heq. pose proof (is_fresh (dom (heap s))) as Hfresh.
  rewrite <- Heq in Hfresh. apply Hfresh. apply elem_of_dom. exists room. exact Hl.
Qed.

Lemma registered_same s s' :
  currentRoom s' = currentRoom s -> rooms s' = rooms s -> heap s' = heap s ->
  registered s -> registered s'.
Proof. unfold registered. intros -> -> ->. exact id. Qed.

Lemma registered_update l f s :
  (forall r, r_id (f r) = r_id r) -> registered s -> registered (updateRoom l f s).
Proof.
  intros Hf [Hrooms Hcur]. split; fields.
  - intros roomId l' Hl'. destruct (Hrooms roomId l' Hl') as (room & Hroom & Hid).
    destruct (decide (l = l')) as [->|Hne].
    + exists (f room). rewrite lookup_alter_eq, Hroom. split; [reflexivity|].
      rewrite Hf. exact Hid.
    + exists room. rewrite lookup_alter_ne by exact Hne. split; assumption.
  - intros l' Hl'. destruct (Hcur l' Hl') as (room & Hroom & Hreg).
    destruct (decide (l = l')) as [->|Hne].
    + exists (f room). rewrite lookup_alter_eq, Hroom. split; [reflexivity|].
      rewrite Hf. exact Hreg.
    + exists room. rewrite lookup_alter_ne by exact Hne. split; assumption.
Qed.

(** A new room object entered under its [id]: the current room stays
    ([enter = false], and the [id] was free) or becomes the new object. *)
Lemma registered_alloc (enter : bool) room s s' :
  heap s' = <[fresh (dom (heap s)) := room]> (heap s) ->
  rooms s' = <[r_id room := fresh (dom (heap s))]> (rooms s) ->
  currentRoom s' = (if enter then Some (fresh (dom (heap s))) else currentRoom s) ->
  (enter = false -> rooms s !! r_id room = None) ->
  registered s -> registered s'.
Proof.
  intros Hh Hr Hc Hfree [Hrooms Hcur]. split; rewrite ?Hh, ?Hr, ?Hc.
  - intros roomId l Hl. destruct (decide (r_id room = roomId)) as [<-|Hne].
    + rewrite lookup_insert_eq in Hl. injection Hl as <-.
      exists room. rewrite lookup_insert_eq. split; reflexivity.
    + rewrite lookup_insert_ne in Hl by exact Hne.
      destruct (Hrooms roomId l Hl) as (room' & Hroom' & Hid).
      exists room'. split; [|exact Hid].
      rewrite lookup_insert_ne; [exact Hroom'|]. intros Heq.
      exact (fresh_heap s l room' Hroom' (eq_sym Heq)).
  - intros l Hl. destruct enter.
    + injection Hl as <-. exists room. rewrite !lookup_insert_eq. split; reflexivity.
    + destruct (Hcur l Hl) as (room' & Hroom' & Hreg).
      exists room'. split.
      * rewrite lookup_insert_ne; [exact Hroom'|]. intros Heq.
        exact (fresh_heap s l room' Hroom' (eq_sym Heq)).
      * rewrite lookup_insert_ne; [exact Hreg|]. intros Heq.
        rewrite <- Heq, (Hfree eq_refl) in Hreg. discriminate.
Qed.

Lemma handlePrivateKey_fields data env s l room :
  currentRoom s = Some l -> heap s !! l = Some room ->
  inRoom s (k_roomId data) = true ->
  let key := Some (k_encryptionKey data) in
  let room' := room_set_encryptionKey key (room_set_isPrivate true room) in
  let s' := handlePrivateKey data env s in
  currentRoom s' = Some l /\
  rooms s' = rooms s /\
  heap s' !! l = Some room' /\
  (forall l', l' <> l -> heap s' !! l' = heap s !! l') /\
  isPrivateMode s' = true /\
  encryptionKey s' = key /\
  ChatManager.myUserId s' = ChatManager.myUserId s /\
  transmitted s' = transmitted s /\
  connectedUsers s' = connectedUsers s.
Proof.
  intros Hc Hroom Hin. cbv zeta. unfold handlePrivateKey. rewrite Hc, Hin. fields.
  rewrite !lookup_alter_eq, Hroom. repeat split; try assumption.
  intros l' Hne. rewrite !lookup_alter_ne by congruence. reflexivity.
Qed.

(** The [id] that [createOrJoinRoom] gives the room. *)
Lemma createOrJoinRoom_fields roomId isPrivate key env s :
  let id :=
    match roomId with
    | Some given => if String.eqb given "" then random env else given
    | None => random env
    end in
  let room :=
    {| r_id := id; r_name := "聊天室 " ++ substring 0 4 id; r_isPrivate := isPrivate;
       r_members := {[ ChatManager.myUserId s ]}; r_createdBy := ChatManager.myUserId s;
       r_createdAt := now env;
       r_encryptionKey := if isPrivate then Some key else None |} in
  let l := fresh (dom (heap s)) in
  let s' := snd (createOrJoinRoom roomId isPrivate key env s) in
  fst (createOrJoinRoom roomId isPrivate key env s) = l /\
  currentRoom s' = Some l /\
  rooms s' = <[id := l]> (rooms s) /\
  heap s' = <[l := room]> (heap s) /\
  isPrivateMode s' = isPrivate /\
  encryptionKey s' = (if isPrivate then Some key else encryptionKey s) /\
  messageHistory s' = messageHistory s /\
  connectedUsers s' = connectedUsers s /\
  ChatManager.myUserId s' = ChatManager.myUserId s /\
  myUsername s' = myUsername s /\
  transmitted s' =
    transmitted s ++
    (if isPrivate then []
     else [RoomUpdate {| ru_roomId := id; ru_roomName := r_name room; ru_memberCount := 1;
                         ru_isPrivate := false; ru_createdBy := ChatManager.myUserId s;
                         ru_timestamp := now env |}]) /\
  ui s' = ui s ++ [RoomStateChanged (Some l)].
Proof.
  cbv zeta. unfold createOrJoinRoom. cbn [fst snd]. destruct isPrivate; fields.
  - rewrite app_nil_r. repeat split.
  - unfold broadcastRoomUpdate, theRoom. fields. rewrite lookup_insert_eq.
    cbn [r_isPrivate]. fields. cbn [r_id r_name r_members r_createdBy r_isPrivate].
    rewrite size_singleton. repeat split.
Qed.

Lemma acceptInvite_fields inv env s :
  let room :=
    {| r_id := i_roomId inv; r_name := i_roomName inv; r_isPrivate := i_isPrivate inv;
       r_members := {[ ChatManager.myUserId s ]}; r_createdBy := i_fromUserId inv;
       r_createdAt := now env; r_encryptionKey := i_encryptionKey inv |} in
  let l := fresh (dom (heap s)) in
  let s' := acceptInvite inv env s in
  currentRoom s' = Some l /\
  rooms s' = <[i_roomId inv := l]> (rooms s) /\
  heap s' = <[l := room]> (heap s) /\
  isPrivateMode s' = i_isPrivate inv /\
  encryptionKey s' = (if i_isPrivate inv then i_encryptionKey inv else encryptionKey s) /\
  messageHistory s' = messageHistory s /\
  connectedUsers s' = connectedUsers s /\
  ChatManager.myUserId s' = ChatManager.myUserId s /\
  myUsername s' = myUsername s /\
  transmitted s' =
    transmitted s ++
    [JoinRoom {| m_userId := ChatManager.myUserId s; m_username := myUsername s;
                 m_roomId := i_roomId inv; m_timestamp := now env |}] /\
  ui s' = ui s ++ [RoomStateChanged (Some l)].
Proof.
  cbv zeta. unfold acceptInvite. cbn [r_isPrivate r_id r_encryptionKey].
  destruct (i_isPrivate inv); fields; repeat split.
Qed.

Lemma step_registered s s' : step s s' -> registered s -> registered s'.
Proof.
  intros Hstep H. destruct Hstep as
    [roomId isPrivate key env s | userId roomId env s s' Hinv | inv env s
    | content type env s message s' Hsend | key env env' s | env s | data env s
    | userId userData env s | now s | env s | s].
  - destruct (createOrJoinRoom_fields roomId isPrivate key env s)
      as (_ & Hc & Hr & Hh & _).
    eapply (registered_alloc true); [exact Hh|exact Hr|exact Hc|discriminate|exact H].
  - unfold inviteUser in Hinv. destruct (String.eqb _ _); [discriminate|].
    destruct (rooms s !! _); [|discriminate]. destruct (heap s !! _); [|discriminate].
    injection Hinv as <-. revert H. apply registered_same; reflexivity.
  - destruct (acceptInvite_fields inv env s) as (Hc & Hr & Hh & _).
    eapply (registered_alloc true); [exact Hh|exact Hr|exact Hc|discriminate|exact H].
  - unfold sendMessage in Hsend. destruct (theRoom s); [|discriminate].
    injection Hsend as _ <-. revert H. apply registered_same; reflexivity.
  - destruct (currentRoom s) as [l|] eqn:Hc.
    + destruct H as [Hrooms Hcur]. destruct (Hcur l Hc) as (room & Hroom & Hreg).
      destruct (togglePrivacyMode_fields key env env' s l room Hc Hroom)
        as (_ & Hc' & Hr' & Hroom' & Hother & _).
      split; rewrite ?Hc', ?Hr'.
      * intros roomId l' Hl'. destruct (Hrooms roomId l' Hl') as (room0 & Hroom0 & Hid).
        destruct (decide (l' = l)) as [->|Hne].
        -- eexists. split; [exact Hroom'|]. cbn [r_id room_set_encryptionKey room_set_isPrivate].
           congruence.
        -- exists room0. rewrite Hother by exact Hne. split; assumption.
      * intros l' [= <-]. eexists. split; [exact Hroom'|].
        cbn [r_id room_set_encryptionKey room_set_isPrivate]. exact Hreg.
    + unfold togglePrivacyMode. rewrite Hc. exact H.
  - unfold leaveRoom. destruct (theRoom s); [|exact H].
    destruct H as [Hrooms _]. split; fields; [exact Hrooms|discriminate].
  - destruct data as [b|d|d|d|d|d|d|t]; cbn [handleIncomingData]; try exact H.
    + unfold ChatManager.handleChatMessage.
      destruct (negb (inRoom s (c_roomId d))); [exact H|].
      destruct (String.eqb _ _); [exact H|].
      revert H. apply registered_same; reflexivity.
    + unfold ChatManager.handleInvite. destruct (String.eqb _ _); [|exact H].
      revert H. apply registered_same; reflexivity.
    + unfold handleJoinRoom. destruct (rooms s !! m_roomId d) as [l|]; [|exact H].
      destruct (inRoom s (m_roomId d)); [|exact H].
      apply (registered_same (updateRoom l
               (fun r => room_set_members (r_members r ∪ {[ m_userId d ]}) r) s));
        try reflexivity.
      apply registered_update; [reflexivity|exact H].
    + unfold handleLeaveRoom. destruct (rooms s !! m_roomId d) as [l|]; [|exact H].
      destruct (inRoom s (m_roomId d)); [|exact H].
      apply (registered_same (updateRoom l
               (fun r => room_set_members (r_members r ∖ {[ m_userId d ]}) r) s));
        try reflexivity.
      apply registered_update; [reflexivity|exact H].
    + unfold handleRoomUpdate. destruct (rooms s !! ru_roomId d) eqn:Hfree; [exact H|].
      destruct (ru_isPrivate d); [exact H|].
      eapply (registered_alloc false); [reflexivity|reflexivity|reflexivity| |exact H].
      intros _. exact Hfree.
    + destruct (currentRoom s) as [l|] eqn:Hc;
        [|unfold handlePrivateKey; rewrite Hc; exact H].
      destruct (inRoom s (k_roomId d)) eqn:Hin;
        [|unfold handlePrivateKey; rewrite Hc, Hin; exact H].
      destruct H as [Hrooms Hcur]. destruct (Hcur l Hc) as (room & Hroom & Hreg).
      destruct (handlePrivateKey_fields d env s l room Hc Hroom Hin)
        as (Hc' & Hr' & Hroom' & Hother & _).
      split; rewrite ?Hc', ?Hr'.
      * intros roomId l' Hl'. destruct (Hrooms roomId l' Hl') as (room0 & Hroom0 & Hid).
        destruct (decide (l' = l)) as [->|Hne].
        -- eexists. split; [exact Hroom'|]. cbn [r_id room_set_encryptionKey room_set_isPrivate].
           congruence.
        -- exists room0. rewrite Hother by exact Hne. split; assumption.
      * intros l' [= <-]. eexists. split; [exact Hroom'|].
        cbn [r_id room_set_encryptionKey room_set_isPrivate]. exact Hreg.
  - unfold ChatManager.handleUserDetected.
    destruct (connectedUsers s !! userId); revert H; apply registered_same; reflexivity.
  - unfold cleanupOfflineUsers.
    match goal with |- registered (fold_left _ ?events ?s0) =>
      destruct (notify_all_same events s0) as (H1 & H2 & _);
      destruct (notify_all_fields events s0) as (_ & _ & _ & H3 & _) end.
    revert H. apply registered_same; [rewrite H1|rewrite H3|rewrite H2]; reflexivity.
  - unfold broadcastRoomUpdate. destruct (theRoom s) as [r|]; [|exact H].
    destruct (r_isPrivate r); [exact H|]. revert H. apply registered_same; reflexivity.
  - revert H. apply registered_same; reflexivity.
Qed.

Lemma reachable_registered s : reachable s -> registered s.
Proof.
  induction 1 as [userId username|s s' _ IH Hstep].
  - split; cbn; [intros ? ? H; rewrite lookup_empty in H|]; discriminate.
  - exact (step_registered s s' Hstep IH).
Qed.

End Registry.

Section Keys.

Ltac fields :=
  cbn [fst snd currentRoom rooms heap isPrivateMode encryptionKey messageHistory
       connectedUsers ChatManager.myUserId myUsername transmitted ui
       set_currentRoom set_rooms set_heap set_isPrivateMode set_encryptionKey
       set_messageHistory set_connectedUsers transmitData notify updateRoom
       addSystemMessage addMessage clearHistory negb].

Lemma keyed_same s s' :
  currentRoom s' = currentRoom s -> heap s' = heap s ->
  isPrivateMode s' = isPrivateMode s -> encryptionKey s' = encryptionKey s ->
  keyed s -> keyed s'.
Proof. unfold keyed. intros -> -> -> ->. exact id. Qed.

Lemma keyed_update l f s :
  (forall r, r_encryptionKey (f r) = r_encryptionKey r) -> keyed s -> keyed (updateRoom l f s).
Proof.
  intros Hf H l' room Hc Hroom Hmode. revert Hc Hroom Hmode. fields. intros Hc Hroom Hmode.
  destruct (decide (l = l')) as [->|Hne].
  - rewrite lookup_alter_eq in Hroom. destruct (heap s !! l') as [room0|] eqn:Hroom0;
      [|discriminate]. injection Hroom as <-. rewrite Hf. exact (H l' room0 Hc Hroom0 Hmode).
  - rewrite lookup_alter_ne in Hroom by exact Hne. exact (H l' room Hc Hroom Hmode).
Qed.

(** Entering a new room object. *)
Lemma keyed_enter room l s' :
  currentRoom s' = Some l -> heap s' !! l = Some room ->
  (isPrivateMode s' = true -> r_encryptionKey room = encryptionKey s') ->
  keyed s'.
Proof.
  intros Hc Hroom Hkey l' room' Hc' Hroom' Hmode.
  rewrite Hc in Hc'. injection Hc' as <-. rewrite Hroom in Hroom'. injection Hroom' as <-.
  exact (Hkey Hmode).
Qed.

Lemma step_keyed s s' : step s s' -> registered s -> keyed s -> keyed s'.
Proof.
  intros Hstep Hreg H. destruct Hstep as
    [roomId isPrivate key env s | userId roomId env s s' Hinv | inv env s
    | content type env s message s' Hsend | key env env' s | env s | data env s
    | userId userData env s | now s | env s | s].
  - destruct (createOrJoinRoom_fields roomId isPrivate key env s)
      as (_ & Hc & _ & Hh & Hm & Hk & _).
    eapply keyed_enter; [exact Hc|rewrite Hh; apply lookup_insert_eq|].
    rewrite Hm, Hk. intros ->. reflexivity.
  - unfold inviteUser in Hinv. destruct (String.eqb _ _); [discriminate|].
    destruct (rooms s !! _); [|discriminate]. destruct (heap s !! _); [|discriminate].
    injection Hinv as <-. revert H. apply keyed_same; reflexivity.
  - destruct (acceptInvite_fields inv env s) as (Hc & _ & Hh & Hm & Hk & _).
    eapply keyed_enter; [exact Hc|rewrite Hh; apply lookup_insert_eq|].
    rewrite Hm, Hk. intros ->. reflexivity.
  - unfold sendMessage in Hsend. destruct (theRoom s); [|discriminate].
    injection Hsend as _ <-. revert H. apply keyed_same; reflexivity.
  - destruct (currentRoom s) as [l|] eqn:Hc.
    + destruct Hreg as [_ Hcur]. destruct (Hcur l Hc) as (room & Hroom & _).
      destruct (togglePrivacyMode_fields key env env' s l room Hc Hroom)
        as (_ & Hc' & _ & Hroom' & _ & _ & Hk & _).
      eapply keyed_enter; [exact Hc'|exact Hroom'|]. rewrite Hk. intros _. reflexivity.
    + unfold togglePrivacyMode. rewrite Hc. exact H.
  - unfold leaveRoom. destruct (theRoom s); [|exact H].
    intros l room Hc. discriminate Hc.
  - destruct data as [b|d|d|d|d|d|d|t]; cbn [handleIncomingData]; try exact H.
    + unfold ChatManager.handleChatMessage.
      destruct (negb (inRoom s (c_roomId d))); [exact H|].
      destruct (String.eqb _ _); [exact H|].
      revert H. apply keyed_same; reflexivity.
    + unfold ChatManager.handleInvite. destruct (String.eqb _ _); [|exact H].
      revert H. apply keyed_same; reflexivity.
    + unfold handleJoinRoom. destruct (rooms s !! m_roomId d) as [l|]; [|exact H].
      destruct (inRoom s (m_roomId d)); [|exact H].
      apply (keyed_same (updateRoom l
               (fun r => room_set_members (r_members r ∪ {[ m_userId d ]}) r) s));
        try reflexivity.
      apply keyed_update; [reflexivity|exact H].
    + unfold handleLeaveRoom. destruct (rooms s !! m_roomId d) as [l|]; [|exact H].
      destruct (inRoom s (m_roomId d)); [|exact H].
      apply (keyed_same (updateRoom l
               (fun r => room_set_members (r_members r ∖ {[ m_userId d ]}) r) s));
        try reflexivity.
      apply keyed_update; [reflexivity|exact H].
    + unfold handleRoomUpdate. destruct (rooms s !! ru_roomId d) eqn:Hfree; [exact H|].
      destruct (ru_isPrivate d); [exact H|].
      intros l room. fields. intros Hc Hroom Hmode.
      destruct Hreg as [_ Hcur]. destruct (Hcur l Hc) as (room0 & Hroom0 & _).
      rewrite lookup_insert_ne in Hroom
        by (intros Heq; exact (fresh_heap s l room0 Hroom0 (eq_sym Heq))).
      exact (H l room Hc Hroom Hmode).
    + destruct (currentRoom s) as [l|] eqn:Hc;
        [|unfold handlePrivateKey; rewrite Hc; exact H].
      destruct (inRoom s (k_roomId d)) eqn:Hin;
        [|unfold handlePrivateKey; rewrite Hc, Hin; exact H].
      destruct Hreg as [_ Hcur]. destruct (Hcur l Hc) as (room & Hroom & _).
      destruct (handlePrivateKey_fields d env s l room Hc Hroom Hin)
        as (Hc' & _ & Hroom' & _ & _ & Hk & _).
      eapply keyed_enter; [exact Hc'|exact Hroom'|]. rewrite Hk. intros _. reflexivity.
  - unfold ChatManager.handleUserDetected.
    destruct (connectedUsers s !! userId); revert H; apply keyed_same; reflexivity.
  - unfold cleanupOfflineUsers.
    match goal with |- keyed (fold_left _ ?events ?s0) =>
      destruct (notify_all_same events s0) as (H1 & H2 & H3);
      destruct (notify_all_fields events s0) as (_ & _ & _ & _ & H4) end.
    revert H. apply keyed_same; [rewrite H1|rewrite H2|rewrite H3|rewrite H4]; reflexivity.
  - unfold broadcastRoomUpdate. destruct (theRoom s) as [r|]; [|exact H].
    destruct (r_isPrivate r); [exact H|]. revert H. apply keyed_same; reflexivity.
  - revert H. apply keyed_same; reflexivity.
Qed.

Lemma reachable_keyed s : reachable s -> keyed s.
Proof.
  induction 1 as [userId username|s s' Hs IH Hstep].
  - intros l room Hc. discriminate Hc.
  - exact (step_keyed s s' Hstep (reachable_registered s Hs) IH).
Qed.

(** The room that [this.currentRoom] refers to, in a manager in use. *)
Lemma reachable_theRoom s l :
  reachable s -> currentRoom s = Some l ->
  exists room,
    heap s !! l = Some room /\ theRoom s = Some room /\
    rooms s !! r_id room = Some l /\
    r_isPrivate room = isPrivateMode s /\
    (isPrivateMode s = true -> r_encryptionKey room = encryptionKey s).
Proof.
  intros Hs Hc.
  destruct (reachable_registered s Hs) as [_ Hcur].
  destruct (Hcur l Hc) as (room & Hroom & Hreg).
  exists room. split; [exact Hroom|]. split; [unfold theRoom; rewrite Hc; exact Hroom|].
  split; [exact Hreg|]. split.
  - pose proof (reachable_consistent s Hs) as Hcons. unfold consistent in Hcons.
    rewrite Hc in Hcons. destruct Hcons as (room' & Hroom' & Hflag). congruence.
  - exact (reachable_keyed s Hs l room Hc Hroom).
Qed.

End Keys.

(** X11.  The room registry of a manager in use is coherent: every entry of
    [rooms] refers to a room object whose [id] is the key of the entry, and
    the current room, when there is one, is the object entered under its
    own [id], so that a join_room or leave_room datagram for the current
    room updates the members of the current room object. *)
Theorem room_registry (s : Manager) :
  reachable s ->
  (forall roomId l, rooms s !! roomId = Some l ->
     exists room, heap s !! l = Some room /\ r_id room = roomId) /\
  (forall l, currentRoom s = Some l ->
     exists room, theRoom s = Some room /\ rooms s !! r_id room = Some l).
Proof.
  intros Hs. split; [exact (proj1 (reachable_registered s Hs))|].
  intros l Hc. destruct (reachable_theRoom s l Hs Hc) as (room & _ & Hthe & Hreg & _).
  exists room. split; assumption.
Qed.

Lemma room_registry_witness :
  let s := snd (createOrJoinRoom (Some "room42"%string) false ""
                  {| now := 0; random := "r" |} (newManager "A" "Alice")) in
  exists room, theRoom s = Some room /\ rooms s !! r_id room = Some 1%positive.
Proof.
  cbv zeta.
  refine (proj2 (room_registry _ _) 1%positive _).
  - eapply reachable_step; [apply reachable_new|apply step_createOrJoinRoom].
  - vm_compute. reflexivity.
Defined.

(** X12.  In a manager in use that is in private mode, the key that
    [sendMessage] and [handleChatMessage] use ([this.encryptionKey]) is the
    key stored in the current room, which is the one [inviteUser] puts into
    an invitation; and the room is flagged private. *)
Theorem key_agreement (s : Manager) (l : loc) :
  reachable s -> currentRoom s = Some l -> isPrivateMode s = true ->
  exists room,
    theRoom s = Some room /\ r_isPrivate room = true /\
    r_encryptionKey room = encryptionKey s.
Proof.
  intros Hs Hc Hmode.
  destruct (reachable_theRoom s l Hs Hc) as (room & _ & Hthe & _ & Hflag & Hkey).
  exists room. split; [exact Hthe|]. split; [congruence|exact (Hkey Hmode)].
Qed.

Lemma key_agreement_witness :
  let s := snd (createOrJoinRoom (Some "room42"%string) true "k3y"
                  {| now := 0; random := "r" |} (newManager "A" "Alice")) in
  exists room,
    theRoom s = Some room /\ r_isPrivate room = true /\
    r_encryptionKey room = encryptionKey s.
Proof.
  cbv zeta. apply (key_agreement _ 1%positive).
  - eapply reachable_step; [apply reachable_new|apply step_createOrJoinRoom].
  - vm_compute. reflexivity.
  - vm_compute. reflexivity.
Defined.

Section Users.

Ltac fields :=
  cbn [fst snd currentRoom rooms heap isPrivateMode encryptionKey messageHistory
       connectedUsers ChatManager.myUserId myUsername transmitted ui
       set_currentRoom set_rooms set_heap set_isPrivateMode set_encryptionKey
       set_messageHistory set_connectedUsers transmitData notify updateRoom
       addSystemMessage addMessage clearHistory negb].

Lemma usersKeyed_same s s' :
  connectedUsers s' = connectedUsers s -> usersKeyed s -> usersKeyed s'.
Proof. unfold usersKeyed. intros ->. exact id. Qed.

Lemma usersKeyed_insert userId user s s' :
  connectedUsers s' = <[userId := user]> (connectedUsers s) ->
  u_userId user = userId -> usersKeyed s -> usersKeyed s'.
Proof.
  intros Hu Hid H uid u. rewrite Hu. destruct (decide (userId = uid)) as [<-|Hne].
  - rewrite lookup_insert_eq. intros [= <-]. exact Hid.
  - rewrite lookup_insert_ne by exact Hne. apply H.
Qed.

Lemma step_usersKeyed s s' : step s s' -> usersKeyed s -> usersKeyed s'.
Proof.
  intros Hstep H. destruct Hstep as
    [roomId isPrivate key env s | userId roomId env s s' Hinv | inv env s
    | content type env s message s' Hsend | key env env' s | env s | data env s
    | userId userData env s | now s | env s | s].
  - destruct (createOrJoinRoom_fields roomId isPrivate key env s)
      as (_ & _ & _ & _ & _ & _ & _ & Hu & _).
    revert H. apply usersKeyed_same. exact Hu.
  - unfold inviteUser in Hinv. destruct (String.eqb _ _); [discriminate|].
    destruct (rooms s !! _); [|discriminate]. destruct (heap s !! _); [|discriminate].
    injection Hinv as <-. revert H. apply usersKeyed_same; reflexivity.
  - destruct (acceptInvite_fields inv env s) as (_ & _ & _ & _ & _ & _ & Hu & _).
    revert H. apply usersKeyed_same. exact Hu.
  - unfold sendMessage in Hsend. destruct (theRoom s); [|discriminate].
    injection Hsend as _ <-. revert H. apply usersKeyed_same; reflexivity.
  - unfold togglePrivacyMode. destruct (currentRoom s) as [l|]; cbn [snd]; [|exact H]. fields.
    destruct (isPrivateMode s); fields; [revert H; apply usersKeyed_same; reflexivity|].
    destruct (distributeEncryptionKey_cases env
        (updateRoom l (room_set_encryptionKey (Some key))
           (set_encryptionKey (Some key)
              (updateRoom l (room_set_isPrivate true) (set_isPrivateMode true s)))))
      as [->|[d ->]]; revert H; apply usersKeyed_same; reflexivity.
  - unfold leaveRoom. destruct (theRoom s); [|exact H].
    revert H. apply usersKeyed_same; reflexivity.
  - destruct data as [b|d|d|d|d|d|d|t]; cbn [handleIncomingData]; try exact H.
    + unfold ChatManager.handleChatMessage.
      destruct (negb (inRoom s (c_roomId d))); [exact H|].
      destruct (String.eqb _ _); [exact H|].
      revert H. apply usersKeyed_same; reflexivity.
    + unfold ChatManager.handleInvite. destruct (String.eqb _ _); [|exact H].
      revert H. apply usersKeyed_same; reflexivity.
    + unfold handleJoinRoom. destruct (rooms s !! m_roomId d) as [l|]; [|exact H].
      destruct (inRoom s (m_roomId d)); [|exact H].
      revert H. apply (usersKeyed_insert (m_userId d)
        {| u_userId := m_userId d; u_username := m_username d;
           u_lastSeen := now env; u_isOnline := true |}); reflexivity.
    + unfold handleLeaveRoom. destruct (rooms s !! m_roomId d) as [l|]; [|exact H].
      destruct (inRoom s (m_roomId d)); [|exact H].
      revert H. apply usersKeyed_same; reflexivity.
    + unfold handleRoomUpdate. destruct (rooms s !! ru_roomId d); [exact H|].
      destruct (ru_isPrivate d); [exact H|].
      revert H. apply usersKeyed_same; reflexivity.
    + unfold handlePrivateKey. destruct (currentRoom s) as [l|]; [|exact H].
      destruct (inRoom s (k_roomId d)); [|exact H].
      revert H. apply usersKeyed_same; reflexivity.
  - unfold ChatManager.handleUserDetected.
    destruct (connectedUsers s !! userId) as [user|] eqn:Hu.
    + pose proof (H userId user Hu) as Hid. revert H. apply (usersKeyed_insert userId
        {| u_userId := u_userId user; u_username := u_username user;
           u_lastSeen := now env; u_isOnline := true |}); [reflexivity|].
      cbn [u_userId]. exact Hid.
    + revert H. apply (usersKeyed_insert userId
        {| u_userId := userId; u_username := b_username userData;
           u_lastSeen := now env; u_isOnline := true |}); reflexivity.
  - intros uid u. rewrite cleanupOfflineUsers_users, lookup_fmap.
    destruct (connectedUsers s !! uid) as [u0|] eqn:Hu0; [|discriminate].
    intros [= <-]. destruct (_ <? _); cbn [offline u_userId]; exact (H uid u0 Hu0).
  - unfold broadcastRoomUpdate. destruct (theRoom s) as [r|]; [|exact H].
    destruct (r_isPrivate r); [exact H|]. revert H. apply usersKeyed_same; reflexivity.
  - revert H. apply usersKeyed_same; reflexivity.
Qed.

Lemma reachable_usersKeyed s : reachable s -> usersKeyed s.
Proof.
  induction 1 as [userId username|s s' _ IH Hstep].
  - intros uid u Hu. cbn in Hu. rewrite lookup_empty in Hu. discriminate.
  - exact (step_usersKeyed s s' Hstep IH).
Qed.

End Users.

(** X13.  In a manager in use every connected user is held under their own
    [userId]: [getConnectedUsers] lists no [userId] twice, and each user it
    lists is the entry of [connectedUsers] for that [userId]. *)
Theorem connected_users_distinct (s : Manager) :
  reachable s ->
  NoDup (map u_userId (getConnectedUsers s)) /\
  forall user, In user (getConnectedUsers s) ->
    connectedUsers s !! u_userId user = Some user.
Proof.
  intros Hs. pose proof (reachable_usersKeyed s Hs) as Hkeyed.
  unfold getConnectedUsers.
  assert (Hfst : map u_userId (snd <$> map_to_list (connectedUsers s)) =
                 (map_to_list (connectedUsers s)).*1).
  { rewrite <- list_fmap_compose. apply list_fmap_ext. intros i [uid u] Hi.
    cbn. apply Hkeyed. apply elem_of_map_to_list.
    apply (list_elem_of_lookup_2 _ i). exact Hi. }
  split.
  - rewrite Hfst. apply NoDup_fst_map_to_list.
  - intros user Hin. apply list_elem_of_In, list_elem_of_fmap in Hin.
    destruct Hin as ([uid u] & -> & Hin). cbn [snd].
    apply elem_of_map_to_list in Hin. rewrite (Hkeyed uid u Hin). exact Hin.
Qed.

Lemma connected_users_distinct_witness :
  let b := {| b_kind := heartbeat; b_userId := "B"; b_username := "Bob";
              b_timestamp := 3000 |} in
  let s := ChatManager.handleUserDetected "B" b {| now := 3400; random := "x" |}
             (newManager "A" "Alice") in
  NoDup (map u_userId (getConnectedUsers s)).
Proof.
  cbv zeta. refine (proj1 (connected_users_distinct _ _)).
  eapply reachable_step; [apply reachable_new|apply step_handleUserDetected].
Defined.

Section Signed.

Ltac fields :=
  cbn [fst snd currentRoom rooms heap isPrivateMode encryptionKey messageHistory
       connectedUsers ChatManager.myUserId myUsername transmitted ui
       set_currentRoom set_rooms set_heap set_isPrivateMode set_encryptionKey
       set_messageHistory set_connectedUsers transmitData notify updateRoom
       addSystemMessage addMessage clearHistory negb].

Ltac same := left; reflexivity.
Ltac sent := right; eexists; split; [reflexivity|]; cbn [signedBy senderOf];
             try (intros ? [= <-]; reflexivity); try discriminate.

Lemma step_transmitEffect s s' : step s s' -> transmitEffect s s'.
Proof.
  intros Hstep. destruct Hstep as
    [roomId isPrivate key env s | userId roomId env s s' Hinv | inv env s
    | content type env s message s' Hsend | key env env' s | env s | data env s
    | userId userData env s | now s | env s | s].
  - destruct (createOrJoinRoom_fields roomId isPrivate key env s)
      as (_ & _ & _ & _ & _ & _ & _ & _ & _ & _ & Ht & _).
    unfold transmitEffect. rewrite Ht. destruct isPrivate.
    + left. apply app_nil_r.
    + right. eexists. split; [reflexivity|]. cbn [signedBy senderOf]. discriminate.
  - unfold inviteUser in Hinv. destruct (String.eqb _ _); [discriminate|].
    destruct (rooms s !! _); [|discriminate]. destruct (heap s !! _); [|discriminate].
    injection Hinv as <-. sent.
  - destruct (acceptInvite_fields inv env s) as (_ & _ & _ & _ & _ & _ & _ & _ & _ & Ht & _).
    unfold transmitEffect. rewrite Ht. right. eexists. split; [reflexivity|].
    cbn [signedBy senderOf]. intros ? [= <-]. reflexivity.
  - unfold sendMessage in Hsend. destruct (theRoom s); [|discriminate].
    injection Hsend as _ <-. sent.
  - unfold togglePrivacyMode. destruct (currentRoom s) as [l|]; cbn [snd]; [|same]. fields.
    destruct (isPrivateMode s); fields; [same|].
    unfold distributeEncryptionKey. destruct (theRoom _) as [room|]; [|same].
    destruct (hasKey _); [sent|same].
  - unfold leaveRoom. destruct (theRoom s); [sent|same].
  - destruct data as [b|d|d|d|d|d|d|t]; cbn [handleIncomingData]; try same.
    + unfold ChatManager.handleChatMessage.
      destruct (negb (inRoom s (c_roomId d))); [same|].
      destruct (String.eqb _ _); same.
    + unfold ChatManager.handleInvite. destruct (String.eqb _ _); same.
    + unfold handleJoinRoom. destruct (rooms s !! m_roomId d) as [l|]; [|same].
      destruct (inRoom s (m_roomId d)); same.
    + unfold handleLeaveRoom. destruct (rooms s !! m_roomId d) as [l|]; [|same].
      destruct (inRoom s (m_roomId d)); same.
    + unfold handleRoomUpdate. destruct (rooms s !! ru_roomId d); [same|].
      destruct (ru_isPrivate d); same.
    + unfold handlePrivateKey. destruct (currentRoom s) as [l|]; [|same].
      destruct (inRoom s (k_roomId d)); same.
  - unfold ChatManager.handleUserDetected. destruct (connectedUsers s !! userId); same.
  - unfold cleanupOfflineUsers.
    match goal with |- transmitEffect _ (fold_left _ ?events ?s0) =>
      destruct (notify_all_fields events s0) as (_ & _ & H3 & _) end.
    left. rewrite H3. reflexivity.
  - unfold broadcastRoomUpdate. destruct (theRoom s) as [r|]; [|same].
    destruct (r_isPrivate r); [same|]. right. eexists. split; [reflexivity|].
    cbn [signedBy senderOf]. discriminate.
  - same.
Qed.

Lemma reachable_signed s :
  reachable s -> Forall (signedBy (ChatManager.myUserId s)) (transmitted s).
Proof.
  induction 1 as [userId username|s s' _ IH Hstep]; [constructor|].
  destruct (step_historyEffect s s' Hstep) as [Hid _]. rewrite Hid.
  destruct (step_transmitEffect s s' Hstep) as [->|(d & -> & Hd)]; [exact IH|].
  apply Forall_app. split; [exact IH|]. constructor; [exact Hd|constructor].
Qed.

End Signed.

(** X14.  Every datagram that a manager in use hands to [transmitData] is of
    one of the six types of the manager (chat, invite, join_room,
    leave_room, room_update, private_key), and names the local user where it
    names a sender: in [fromUserId] for chat, invite and private_key, in
    [userId] for join_room and leave_room. *)
Theorem datagrams_signed (s : Manager) (data : Datagram) :
  reachable s -> In data (transmitted s) ->
  (forall b, data <> Announce b) /\ (forall type, data <> Unknown type) /\
  forall sender, senderOf data = Some sender -> sender = ChatManager.myUserId s.
Proof.
  intros Hs Hin. pose proof (reachable_signed s Hs) as Hall.
  rewrite Forall_forall in Hall. apply list_elem_of_In in Hin. specialize (Hall _ Hin).
  destruct data; cbn [signedBy] in Hall; try contradiction;
    (split; [discriminate|]; split; [discriminate|]; exact Hall).
Qed.

Lemma datagrams_signed_witness :
  let s := acceptInvite
             {| i_fromUserId := "A"; i_fromUsername := "Alice"; i_toUserId := "B";
                i_roomId := "room42"; i_roomName := "聊天室 room"; i_isPrivate := false;
                i_encryptionKey := None; i_timestamp := 7 |}
             {| now := 9; random := "x" |} (newManager "B" "Bob") in
  "B"%string = ChatManager.myUserId s.
Proof.
  cbv zeta.
  refine (proj2 (proj2 (datagrams_signed _
            (JoinRoom {| m_userId := "B"; m_username := "Bob"; m_roomId := "room42";
                         m_timestamp := 9 |}) _ _)) "B"%string eq_refl).
  - eapply reachable_step; [apply reachable_new|apply step_acceptInvite].
  - vm_compute. left. reflexivity.
Defined.

Section Conversation.

Ltac fields :=
  cbn [fst snd currentRoom rooms heap isPrivateMode encryptionKey messageHistory
       connectedUsers ChatManager.myUserId myUsername transmitted ui
       set_currentRoom set_rooms set_heap set_isPrivateMode set_encryptionKey
       set_messageHistory set_connectedUsers transmitData notify updateRoom
       addSystemMessage addMessage clearHistory negb].

(** Decryption undoes encryption, for a text that [TextDecoder] gives back. *)
Lemma decrypt_encrypt m k :
  m <> EmptyString -> startsWithBOM m = false ->
  decryptMessage (encryptMessage m k) k = Some m.
Proof.
  intros Hm Hbom. unfold encryptMessage, decryptMessage.
  pose proof (xorWithKey_isBytes (encode m) (encode k)) as He.
  rewrite matchPairs_hex by exact He.
  destruct (xorWithKey (encode m) (encode k)) as [|b bs] eqn:Hx.
  - apply (f_equal (@length Z)) in Hx. rewrite xorWithKey_length, encode_length in Hx.
    destruct m; [contradiction|discriminate].
  - change (map hexPair (b :: bs)) with (hexPair b :: map hexPair bs).
    cbv iota beta.
    change (hexPair b :: map hexPair bs) with (map hexPair (b :: bs)).
    rewrite parse_hex by exact He. rewrite <- Hx.
    rewrite xorWithKey_involutive by apply encode_isBytes.
    rewrite decode_encode by exact Hbom. reflexivity.
Qed.

(** The receiver of an encrypted chat datagram who holds the key files the
    clear text. *)
Lemma receive_encrypted (s : Manager) (data : ChatData) (key content : string) :
  inRoom s (c_roomId data) = true ->
  c_fromUserId data <> ChatManager.myUserId s ->
  c_isEncrypted data = true ->
  encryptionKey s = Some key -> key <> EmptyString ->
  c_content data = encryptMessage content key ->
  content <> EmptyString -> startsWithBOM content = false ->
  let filed := ChatMessage (withContent data content) false in
  ChatManager.handleChatMessage data s = notify (MessageReceived filed) (addMessage filed s).
Proof.
  intros Hin Hfrom Henc Hkey Hne Hcontent Hc Hbom. cbv zeta.
  rewrite handleChatMessage_accept by assumption.
  assert (Hfiled : filedAs s data = ChatMessage (withContent data content) false).
  { unfold filedAs, hasKey, withContent. rewrite Henc, Hkey. cbn [default andb].
    destruct (String.eqb_spec key ""); [contradiction|]. cbn [negb].
    rewrite Hcontent, decrypt_encrypt by assumption. reflexivity. }
  rewrite Hfiled. reflexivity.
Qed.

Lemma hasKey_Some (s : Manager) key :
  encryptionKey s = Some key -> key <> EmptyString -> hasKey s = true.
Proof.
  intros Hkey Hne. unfold hasKey. rewrite Hkey.
  destruct (String.eqb_spec key ""); [contradiction|reflexivity].
Qed.


Lemma inRoom_true (s : Manager) roomId :
  inRoom s roomId = true ->
  exists l room, currentRoom s = Some l /\ heap s !! l = Some room /\ r_id room = roomId.
Proof.
  unfold inRoom, theRoom. destruct (currentRoom s) as [l|]; [|discriminate].
  destruct (heap s !! l) as [room|] eqn:Hroom; [|discriminate].
  intros H. apply String.eqb_eq in H. eauto.
Qed.

Lemma addMessage_last m s :
  exists older, messageHistory (addMessage m s) = older ++ [m].
Proof. rewrite addMessage_history. eexists. reflexivity. Qed.

(** [inviteUser] into the current room of a manager in use. *)
Lemma inviteUser_same (s : Manager) userId env room :
  reachable s -> theRoom s = Some room ->
  inviteUser userId None env s =
  if String.eqb (r_id room) "" then None
  else Some (ChatManager.transmitData
               (Invite {| i_fromUserId := ChatManager.myUserId s;
                          i_fromUsername := myUsername s;
                          i_toUserId := userId;
                          i_roomId := r_id room;
                          i_roomName := r_name room;
                          i_isPrivate := r_isPrivate room;
                          i_encryptionKey :=
                            if r_isPrivate room then r_encryptionKey room else None;
                          i_timestamp := now env |}) s).
Proof.
  intros Hs Hthe. unfold inviteUser. rewrite Hthe.
  change (default ""%string (r_id <$> Some room)) with (r_id room).
  destruct (String.eqb (r_id room) ""); [reflexivity|].
  pose proof Hthe as Hthe'. unfold theRoom in Hthe'.
  destruct (currentRoom s) as [l|] eqn:Hc; [|discriminate].
  destruct (reachable_theRoom s l Hs Hc) as (room' & Hroom & Hthe2 & Hreg & _).
  assert (room' = room) as -> by congruence.
  rewrite Hreg, Hroom. reflexivity.
Qed.

End Conversation.

(** X15.  In a manager in use [sendMessage] throws exactly when there is no
    current room.  Otherwise it hands one chat datagram to [transmitData],
    for the current room and in the name of the local user, encrypted when
    the manager is in private mode and holds a key; it files the message
    in the history with the clear text and [isOwn] set; and it calls no
    callback, so the user interface is not told of an own message. *)
Theorem sendMessage_outcome (s : Manager) (content type : string) (env : Env) :
  reachable s ->
  match sendMessage content type env s with
  | None => currentRoom s = None
  | Some (message, s') =>
      exists room,
        theRoom s = Some room /\
        message = chatFor s room (content, type, env) /\
        transmitted s' = transmitted s ++ [Chat message] /\
        messageHistory s' =
          messageHistory (addMessage (ChatMessage (withContent message content) true) s) /\
        ui s' = ui s /\
        currentRoom s' = currentRoom s
  end.
Proof.
  intros Hs. unfold sendMessage. destruct (theRoom s) as [room|] eqn:Hroom.
  - exists room. repeat split; reflexivity.
  - destruct (currentRoom s) as [l|] eqn:Hc; [|reflexivity].
    destruct (reachable_theRoom s l Hs Hc) as (room & _ & Hthe & _). congruence.
Qed.

Lemma sendMessage_outcome_witness :
  sendMessage "hi" "text" {| now := 5; random := "m" |} (newManager "A" "Alice") = None.
Proof.
  pose proof (sendMessage_outcome (newManager "A" "Alice") "hi" "text"
                {| now := 5; random := "m" |} (reachable_new "A" "Alice")) as H.
  destruct (sendMessage _ _ _ _) as [[message s']|]; [|reflexivity].
  destruct H as (room & Hroom & _). discriminate Hroom.
Defined.

(** X16.  In a manager in use [inviteUser] throws exactly when the target
    room id (the one given or, failing that, the id of the current room) is
    empty or names no entry of [rooms].  Otherwise it hands one invite
    datagram to [transmitData] and changes nothing else: the datagram names
    the target room with its name and privacy flag, and carries the key of
    the room exactly when the room is private. *)
Theorem inviteUser_outcome (s : Manager) (userId : string) (roomId : option string)
    (env : Env) :
  reachable s ->
  let target := orElse (default "" roomId) (default "" (r_id <$> theRoom s)) in
  match inviteUser userId roomId env s with
  | None => target = ""%string \/ rooms s !! target = None
  | Some s' =>
      exists l room,
        target <> ""%string /\ rooms s !! target = Some l /\
        heap s !! l = Some room /\ r_id room = target /\
        s' = ChatManager.transmitData
               (Invite {| i_fromUserId := ChatManager.myUserId s;
                          i_fromUsername := myUsername s;
                          i_toUserId := userId;
                          i_roomId := target;
                          i_roomName := r_name room;
                          i_isPrivate := r_isPrivate room;
                          i_encryptionKey :=
                            if r_isPrivate room then r_encryptionKey room else None;
                          i_timestamp := now env |}) s
  end.
Proof.
  intros Hs. cbv zeta. unfold inviteUser.
  assert (Htarget :
    match roomId with
    | Some given => orElse given (default "" (r_id <$> theRoom s))
    | None => default "" (r_id <$> theRoom s)
    end = orElse (default "" roomId) (default "" (r_id <$> theRoom s)))
    by (destruct roomId; reflexivity).
  rewrite Htarget. clear Htarget.
  set (target := orElse (default "" roomId) (default "" (r_id <$> theRoom s))).
  destruct (String.eqb_spec target "") as [Hempty|Hfull]; [left; exact Hempty|].
  destruct (rooms s !! target) as [l|] eqn:Hl; [|right; reflexivity].
  destruct (proj1 (reachable_registered s Hs) target l Hl) as (room & Hroom & Hid).
  rewrite Hroom. exists l, room. repeat split; assumption.
Qed.

Lemma inviteUser_outcome_witness :
  inviteUser "B" None {| now := 5; random := "m" |} (newManager "A" "Alice") = None.
Proof.
  pose proof (inviteUser_outcome (newManager "A" "Alice") "B" None
                {| now := 5; random := "m" |} (reachable_new "A" "Alice")) as H.
  cbv zeta in H. destruct (inviteUser _ _ _ _) as [s'|]; [|reflexivity].
  destruct H as (l & room & Hne & _). exfalso. apply Hne. reflexivity.
Defined.

(** X17.  Clicking a user on the radar ([ChaosChatApp.inviteUser]) with a
    manager in use: when no room is current a public room is created first,
    under the generated id and with the local user as creator and only
    member; the invitation then goes out for the current room unless the id
    of that room is empty, in which case the toast reports that there is no
    active room. *)
Theorem radar_invite (s : Manager) (userId username : string) (env env' : Env) :
  reachable s ->
  let toast := fst (ChaosChatApp.inviteUser userId username env env' s) in
  let s' := snd (ChaosChatApp.inviteUser userId username env env' s) in
  exists room,
    theRoom s' = Some room /\
    (currentRoom s = None ->
       r_id room = random env /\ r_isPrivate room = false /\
       r_createdBy room = ChatManager.myUserId s /\
       r_members room = {[ ChatManager.myUserId s ]}) /\
    (currentRoom s <> None -> theRoom s = Some room) /\
    if String.eqb (r_id room) ""
    then toast = "邀请失败: 没有活动的聊天室"%string
    else
      toast = ("已邀请 " ++ orElse username "用户" ++ " 加入聊天")%string /\
      exists earlier,
        transmitted s' =
          earlier ++
          [Invite {| i_fromUserId := ChatManager.myUserId s;
                     i_fromUsername := myUsername s;
                     i_toUserId := userId;
                     i_roomId := r_id room;
                     i_roomName := r_name room;
                     i_isPrivate := r_isPrivate room;
                     i_encryptionKey :=
                       if r_isPrivate room then r_encryptionKey room else None;
                     i_timestamp := now env' |}].
Proof.
  intros Hs. cbv zeta. unfold ChaosChatApp.inviteUser.
  set (s1 := match currentRoom s with
             | None => snd (createOrJoinRoom None false "" env s)
             | Some _ => s
             end).
  assert (Hs1 : reachable s1).
  { subst s1. destruct (currentRoom s); [exact Hs|].
    eapply reachable_step; [exact Hs|apply step_createOrJoinRoom]. }
  assert (Hroom : exists room,
    theRoom s1 = Some room /\
    (currentRoom s = None ->
       r_id room = random env /\ r_isPrivate room = false /\
       r_createdBy room = ChatManager.myUserId s /\
       r_members room = {[ ChatManager.myUserId s ]}) /\
    (currentRoom s <> None -> theRoom s = Some room) /\
    ChatManager.myUserId s1 = ChatManager.myUserId s /\ myUsername s1 = myUsername s).
  { subst s1. destruct (currentRoom s) as [l|] eqn:Hc.
    - destruct (reachable_theRoom s l Hs Hc) as (room & _ & Hthe & _).
      exists room. split; [exact Hthe|]. split; [discriminate|]. split; [intros _; exact Hthe|].
      split; reflexivity.
    - destruct (createOrJoinRoom_fields None false "" env s)
        as (_ & Hc' & _ & Hh & _ & _ & _ & _ & Hid & Hname & _).
      eexists. split; [unfold theRoom; rewrite Hc', Hh; apply lookup_insert_eq|].
      split; [intros _; repeat split|]. split; [intros H; contradiction|].
      split; assumption. }
  destruct Hroom as (room & Hthe & Hnew & Hold & Hid & Hname).
  rewrite (inviteUser_same s1 userId env' room Hs1 Hthe), Hthe.
  change (default ""%string (r_id <$> Some room)) with (r_id room).
  exists room. destruct (String.eqb (r_id room) "") eqn:Heq; cbn [fst snd].
  - split; [exact Hthe|]. split; [exact Hnew|]. split; [exact Hold|]. reflexivity.
  - split; [exact Hthe|]. split; [exact Hnew|]. split; [exact Hold|].
    split; [reflexivity|]. eexists. cbn [transmitted ChatManager.transmitData].
    rewrite Hid, Hname. reflexivity.
Qed.

Lemma radar_invite_witness :
  exists room,
    theRoom (snd (ChaosChatApp.inviteUser "B" "Bob" {| now := 1; random := "k9x2" |}
                    {| now := 2; random := "y" |} (newManager "A" "Alice"))) = Some room.
Proof.
  destruct (radar_invite (newManager "A" "Alice") "B" "Bob" {| now := 1; random := "k9x2" |}
              {| now := 2; random := "y" |} (reachable_new "A" "Alice"))
    as (room & Hthe & _).
  exists room. exact Hthe.
Defined.

Section Membership.

Ltac fields :=
  cbn [fst snd currentRoom rooms heap isPrivateMode encryptionKey messageHistory
       connectedUsers ChatManager.myUserId myUsername transmitted ui
       set_currentRoom set_rooms set_heap set_isPrivateMode set_encryptionKey
       set_messageHistory set_connectedUsers transmitData notify updateRoom
       addSystemMessage addMessage clearHistory negb].

(** What [handleJoinRoom] does for a datagram that names the current
    room. *)
Lemma handleJoinRoom_fields d env s l room :
  currentRoom s = Some l -> heap s !! l = Some room ->
  rooms s !! m_roomId d = Some l -> r_id room = m_roomId d ->
  let notice :=
    SystemMessage (random env) (m_username d ++ " 加入了聊天室") (now env) in
  let s' := handleJoinRoom d env s in
  currentRoom s' = Some l /\
  heap s' !! l = Some (room_set_members (r_members room ∪ {[ m_userId d ]}) room) /\
  connectedUsers s' =
    <[m_userId d := {| u_userId := m_userId d; u_username := m_username d;
                       u_lastSeen := now env; u_isOnline := true |}]> (connectedUsers s) /\
  messageHistory s' = messageHistory (addMessage notice s) /\
  ui s' = ui s ++ [UserJoined (m_userId d); MessageReceived notice] /\
  transmitted s' = transmitted s.
Proof.
  intros Hc Hroom Hreg Hid. cbv zeta. unfold handleJoinRoom. rewrite Hreg.
  assert (Hin : inRoom s (m_roomId d) = true).
  { unfold inRoom, theRoom. rewrite Hc, Hroom, Hid. apply String.eqb_refl. }
  rewrite Hin. fields. rewrite lookup_alter_eq, Hroom, <- app_assoc. repeat split; assumption.
Qed.

End Membership.

(** X18.  The invitation handshake.  When user A, in a room with a
    non-empty id, invites user B, the invite datagram makes B's manager
    call [onInviteReceived]; when B accepts, B's current room has the id,
    name and privacy flag of A's room and A as creator, with B as its only
    member, and for a private room B holds A's key; B's join_room datagram
    then adds B to the members of A's current room and enters B as an
    online user in A's [connectedUsers]. *)
Theorem invite_handshake (a b : Manager) (room : Room) (env1 env2 env3 : Env) :
  reachable a -> theRoom a = Some room -> r_id room <> ""%string ->
  exists inv a1 join,
    inviteUser (ChatManager.myUserId b) None env1 a = Some a1 /\
    transmitted a1 = transmitted a ++ [Invite inv] /\
    ui (handleIncomingData (Invite inv) env2 b) = ui b ++ [InviteReceived inv] /\
    let b1 := acceptInvite inv env2 b in
    (exists roomB,
       theRoom b1 = Some roomB /\
       r_id roomB = r_id room /\ r_name roomB = r_name room /\
       r_isPrivate roomB = r_isPrivate room /\ isPrivateMode b1 = r_isPrivate room /\
       r_createdBy roomB = ChatManager.myUserId a /\
       r_members roomB = {[ ChatManager.myUserId b ]} /\
       (r_isPrivate room = true ->
          r_encryptionKey roomB = r_encryptionKey room /\
          encryptionKey b1 = r_encryptionKey room)) /\
    transmitted b1 = transmitted b ++ [JoinRoom join] /\
    let a2 := handleIncomingData (JoinRoom join) env3 a1 in
    exists roomA,
      theRoom a2 = Some roomA /\
      r_members roomA = r_members room ∪ {[ ChatManager.myUserId b ]} /\
      connectedUsers a2 !! ChatManager.myUserId b =
        Some {| u_userId := ChatManager.myUserId b; u_username := myUsername b;
                u_lastSeen := now env3; u_isOnline := true |}.
Proof.
  intros Ha Hthe Hid.
  pose proof Hthe as Hthe'. unfold theRoom in Hthe'.
  destruct (currentRoom a) as [l|] eqn:Hc; [|discriminate].
  destruct (reachable_theRoom a l Ha Hc) as (room' & Hroom & _ & Hreg & _).
  assert (room' = room) as -> by congruence.
  pose proof (inviteUser_same a (ChatManager.myUserId b) env1 room Ha Hthe) as Hinv.
  destruct (String.eqb_spec (r_id room) ""); [contradiction|].
  eexists. eexists. eexists.
  split; [exact Hinv|]. split; [reflexivity|]. split.
  { cbn [handleIncomingData]. unfold ChatManager.handleInvite. cbn [i_toUserId].
    rewrite String.eqb_refl. reflexivity. }
  destruct (acceptInvite_fields
              {| i_fromUserId := ChatManager.myUserId a; i_fromUsername := myUsername a;
                 i_toUserId := ChatManager.myUserId b; i_roomId := r_id room;
                 i_roomName := r_name room; i_isPrivate := r_isPrivate room;
                 i_encryptionKey := if r_isPrivate room then r_encryptionKey room else None;
                 i_timestamp := now env1 |} env2 b)
    as (Hcb & _ & Hhb & Hmb & Hkb & _ & _ & _ & _ & Htb & _).
  cbn [i_roomId i_roomName i_isPrivate i_encryptionKey i_fromUserId] in *.
  cbv zeta. split.
  { eexists. split; [unfold theRoom; rewrite Hcb, Hhb; apply lookup_insert_eq|].
    cbn [r_id r_name r_isPrivate r_createdBy r_members r_encryptionKey].
    do 6 (split; [first [reflexivity|assumption]|]).
    rewrite Hkb. intros ->. split; reflexivity. }
  split; [exact Htb|].
  destruct (handleJoinRoom_fields
              {| m_userId := ChatManager.myUserId b; m_username := myUsername b;
                 m_roomId := r_id room; m_timestamp := now env2 |} env3
              (ChatManager.transmitData
                 (Invite {| i_fromUserId := ChatManager.myUserId a;
                            i_fromUsername := myUsername a;
                            i_toUserId := ChatManager.myUserId b; i_roomId := r_id room;
                            i_roomName := r_name room; i_isPrivate := r_isPrivate room;
                            i_encryptionKey :=
                              if r_isPrivate room then r_encryptionKey room else None;
                            i_timestamp := now env1 |}) a) l room)
    as (Hca & Hha & Hua & _); try assumption; try reflexivity.
  cbn [handleIncomingData]. eexists.
  split; [unfold theRoom; rewrite Hca; exact Hha|]. split; [reflexivity|].
  rewrite Hua. apply lookup_insert_eq.
Qed.

Lemma invite_handshake_witness :
  let a := snd (createOrJoinRoom (Some "room42"%string) false ""
                  {| now := 0; random := "r" |} (newManager "A" "Alice")) in
  let b := newManager "B" "Bob" in
  exists inv a1 join,
    inviteUser "B" None {| now := 1; random := "x" |} a = Some a1 /\
    transmitted a1 = transmitted a ++ [Invite inv] /\
    transmitted (acceptInvite inv {| now := 2; random := "y" |} b) =
      transmitted b ++ [JoinRoom join].
Proof.
  cbv zeta.
  destruct (invite_handshake
              (snd (createOrJoinRoom (Some "room42"%string) false ""
                      {| now := 0; random := "r" |} (newManager "A" "Alice")))
              (newManager "B" "Bob")
              {| r_id := "room42"; r_name := "聊天室 room"; r_isPrivate := false;
                 r_members := {[ "A"%string ]}; r_createdBy := "A"; r_createdAt := 0;
                 r_encryptionKey := None |}
              {| now := 1; random := "x" |} {| now := 2; random := "y" |}
              {| now := 3; random := "z" |})
    as (inv & a1 & join & H1 & H2 & _ & _ & H3 & _).
  - eapply reachable_step; [apply reachable_new|apply step_createOrJoinRoom].
  - vm_compute. reflexivity.
  - discriminate.
  - exists inv, a1, join. split; [exact H1|]. split; [exact H2|exact H3].
Defined.

Section PrivateChat.

(** Sending in private mode with a key. *)
Lemma sendMessage_private (s : Manager) room key content type env :
  theRoom s = Some room -> isPrivateMode s = true ->
  encryptionKey s = Some key -> key <> EmptyString ->
  exists message s',
    sendMessage content type env s = Some (message, s') /\
    c_roomId message = r_id room /\
    c_fromUserId message = ChatManager.myUserId s /\
    c_isEncrypted message = true /\
    c_content message = encryptMessage content key.
Proof.
  intros Hthe Hmode Hkey Hne. unfold sendMessage.
  rewrite Hthe, Hmode, (hasKey_Some s key Hkey Hne), Hkey. cbn [andb default].
  eexists. eexists. split; [reflexivity|]. repeat split.
Qed.

(** Receiving what was sent under the same key. *)
Lemma receive_private (s : Manager) (message : ChatData) key content :
  inRoom s (c_roomId message) = true ->
  c_fromUserId message <> ChatManager.myUserId s ->
  c_isEncrypted message = true ->
  encryptionKey s = Some key -> key <> EmptyString ->
  c_content message = encryptMessage content key ->
  content <> EmptyString -> startsWithBOM content = false ->
  let filed := ChatMessage (withContent message content) false in
  (exists older, messageHistory (ChatManager.handleChatMessage message s) = older ++ [filed]) /\
  ui (ChatManager.handleChatMessage message s) = ui s ++ [MessageReceived filed].
Proof.
  intros Hin Hfrom Henc Hkey Hne Hcontent Hc Hbom. cbv zeta.
  rewrite (receive_encrypted s message key content) by assumption.
  split; [|reflexivity].
  exact (addMessage_last (ChatMessage (withContent message content) false) s).
Qed.

End PrivateChat.

(** X19.  Private chat after an invitation.  When user A, in private mode
    in a room with a non-empty id and holding a non-empty key, invites
    another user B and B accepts, then every text that A sends (not empty,
    not starting with a byte order mark) goes out encrypted under that key,
    not in clear, and B's manager files it in its history and reports it to
    the user interface with the clear text. *)
Theorem private_chat_after_invite (a b : Manager) (room : Room)
    (key content type : string) (env1 env2 env3 : Env) :
  reachable a -> theRoom a = Some room -> r_id room <> ""%string ->
  isPrivateMode a = true -> encryptionKey a = Some key -> key <> ""%string ->
  ChatManager.myUserId a <> ChatManager.myUserId b ->
  content <> ""%string -> startsWithBOM content = false ->
  exists inv a1 message a2,
    inviteUser (ChatManager.myUserId b) None env1 a = Some a1 /\
    transmitted a1 = transmitted a ++ [Invite inv] /\
    sendMessage content type env3 a1 = Some (message, a2) /\
    c_isEncrypted message = true /\
    c_content message = encryptMessage content key /\
    c_content message <> content /\
    let b1 := acceptInvite inv env2 b in
    let b2 := handleIncomingData (Chat message) env3 b1 in
    let filed := ChatMessage (withContent message content) false in
    (exists older, messageHistory b2 = older ++ [filed]) /\
    ui b2 = ui b1 ++ [MessageReceived filed].
Proof.
  intros Ha Hthe Hid Hmode Hkey Hne Hab Hc Hbom.
  pose proof Hthe as Hthe'. unfold theRoom in Hthe'.
  destruct (currentRoom a) as [l|] eqn:Hcur; [|discriminate].
  destruct (reachable_theRoom a l Ha Hcur) as (room' & Hroom & _ & _ & Hflag & Hroomkey).
  assert (room' = room) as -> by congruence.
  rewrite Hmode in Hflag. specialize (Hroomkey Hmode). rewrite Hkey in Hroomkey.
  pose proof (inviteUser_same a (ChatManager.myUserId b) env1 room Ha Hthe) as Hinv.
  destruct (String.eqb_spec (r_id room) ""); [contradiction|].
  rewrite Hflag, Hroomkey in Hinv.
  set (inv := {| i_fromUserId := ChatManager.myUserId a; i_fromUsername := myUsername a;
                 i_toUserId := ChatManager.myUserId b; i_roomId := r_id room;
                 i_roomName := r_name room; i_isPrivate := true;
                 i_encryptionKey := Some key; i_timestamp := now env1 |}) in *.
  destruct (sendMessage_private (ChatManager.transmitData (Invite inv) a) room key
              content type env3 Hthe Hmode Hkey Hne)
    as (message & a2 & Hsend & Hmroom & Hmfrom & Hmenc & Hmcontent).
  exists inv, (ChatManager.transmitData (Invite inv) a), message, a2.
  split; [exact Hinv|]. split; [reflexivity|]. split; [exact Hsend|].
  split; [exact Hmenc|]. split; [exact Hmcontent|].
  split; [rewrite Hmcontent; apply encryptMessage_differs, Hc|].
  destruct (acceptInvite_fields inv env2 b)
    as (Hcb & _ & Hhb & _ & Hkb & _ & _ & Hidb & _).
  cbn [handleIncomingData]. apply (receive_private _ message key content); try assumption.
  - rewrite Hmroom. unfold inRoom, theRoom. rewrite Hcb, Hhb, lookup_insert_eq.
    apply String.eqb_refl.
  - rewrite Hmfrom, Hidb. exact Hab.
Qed.

Lemma private_chat_after_invite_witness :
  let a := snd (createOrJoinRoom (Some "room42"%string) true "k3y"
                  {| now := 0; random := "r" |} (newManager "A" "Alice")) in
  exists inv a1 message a2,
    inviteUser "B" None {| now := 1; random := "x" |} a = Some a1 /\
    sendMessage "hello" "text" {| now := 3; random := "m" |} a1 = Some (message, a2) /\
    c_content message = encryptMessage "hello" "k3y" /\
    ui (handleIncomingData (Chat message) {| now := 3; random := "m" |}
          (acceptInvite inv {| now := 2; random := "y" |} (newManager "B" "Bob"))) =
    ui (acceptInvite inv {| now := 2; random := "y" |} (newManager "B" "Bob")) ++
    [MessageReceived (ChatMessage (withContent message "hello") false)].
Proof.
  cbv zeta.
  destruct (private_chat_after_invite
              (snd (createOrJoinRoom (Some "room42"%string) true "k3y"
                      {| now := 0; random := "r" |} (newManager "A" "Alice")))
              (newManager "B" "Bob")
              {| r_id := "room42"; r_name := "聊天室 room"; r_isPrivate := true;
                 r_members := {[ "A"%string ]}; r_createdBy := "A"; r_createdAt := 0;
                 r_encryptionKey := Some "k3y"%string |}
              "k3y" "hello" "text"
              {| now := 1; random := "x" |} {| now := 2; random := "y" |}
              {| now := 3; random := "m" |})
    as (inv & a1 & message & a2 & H1 & _ & H2 & _ & H3 & _ & _ & H4).
  - eapply reachable_step; [apply reachable_new|apply step_createOrJoinRoom].
  - vm_compute. reflexivity.
  - discriminate.
  - reflexivity.
  - reflexivity.
  - discriminate.
  - discriminate.
  - discriminate.
  - reflexivity.
  - exists inv, a1, message, a2. split; [exact H1|]. split; [exact H2|].
    split; [exact H3|exact H4].
Defined.

(** X20.  Private chat after a toggle.  When user A switches a public room
    to private mode (the key drawn being non-empty), a private_key
    datagram with that key is handed to [transmitData]; a user B whose
    current room has the same id takes the key from it and switches to
    private mode; and every text that A then sends (not empty, not starting
    with a byte order mark) goes out encrypted, not in clear, and is filed
    and reported by B's manager with the clear text. *)
Theorem private_chat_after_toggle (a b : Manager) (room : Room)
    (key content type : string) (env1 env1' env2 env3 : Env) :
  theRoom a = Some room -> isPrivateMode a = false ->
  inRoom b (r_id room) = true ->
  ChatManager.myUserId a <> ChatManager.myUserId b ->
  key <> ""%string -> content <> ""%string -> startsWithBOM content = false ->
  let a1 := snd (togglePrivacyMode key env1 env1' a) in
  exists pk message a2,
    transmitted a1 = transmitted a ++ [PrivateKey pk] /\
    k_encryptionKey pk = key /\ k_roomId pk = r_id room /\
    sendMessage content type env3 a1 = Some (message, a2) /\
    c_isEncrypted message = true /\
    c_content message = encryptMessage content key /\
    c_content message <> content /\
    let b1 := handleIncomingData (PrivateKey pk) env2 b in
    let b2 := handleIncomingData (Chat message) env3 b1 in
    let filed := ChatMessage (withContent message content) false in
    isPrivateMode b1 = true /\ encryptionKey b1 = Some key /\
    (exists older, messageHistory b2 = older ++ [filed]) /\
    ui b2 = ui b1 ++ [MessageReceived filed].
Proof.
  intros Hthe Hmode Hinb Hab Hne Hc Hbom. cbv zeta.
  pose proof Hthe as Hthe'. unfold theRoom in Hthe'.
  destruct (currentRoom a) as [l|] eqn:Hcur; [|discriminate].
  destruct (togglePrivacyMode_fields key env1 env1' a l room Hcur Hthe')
    as (_ & Hc1 & _ & Hroom1 & _ & Hmode1 & Hkey1 & _ & Hid1 & _ & Ht1 & _).
  rewrite Hmode in *. cbn [negb andb] in *.
  destruct (String.eqb_spec key ""); [contradiction|]. cbn [negb] in Ht1.
  assert (Hthe1 : theRoom (snd (togglePrivacyMode key env1 env1' a)) =
                  Some (room_set_encryptionKey (Some key) (room_set_isPrivate true room)))
    by (unfold theRoom; rewrite Hc1; exact Hroom1).
  destruct (sendMessage_private _ _ key content type env3 Hthe1 Hmode1 Hkey1 Hne)
    as (message & a2 & Hsend & Hmroom & Hmfrom & Hmenc & Hmcontent).
  cbn [r_id room_set_encryptionKey room_set_isPrivate] in Hmroom.
  eexists. exists message, a2.
  split; [exact Ht1|]. split; [reflexivity|]. split; [reflexivity|].
  split; [exact Hsend|]. split; [exact Hmenc|]. split; [exact Hmcontent|].
  split; [rewrite Hmcontent; apply encryptMessage_differs, Hc|].
  destruct (inRoom_true b (r_id room) Hinb) as (lb & roomB & Hcb & Hroomb & Hidb).
  destruct (handlePrivateKey_fields
              {| k_roomId := r_id room; k_encryptionKey := key;
                 k_fromUserId := ChatManager.myUserId a; k_timestamp := now env1 |}
              env2 b lb roomB Hcb Hroomb Hinb)
    as (Hcb1 & _ & Hroomb1 & _ & Hmodeb1 & Hkeyb1 & Hmyb1 & _).
  cbn [k_encryptionKey] in *. cbn [handleIncomingData].
  split; [exact Hmodeb1|]. split; [exact Hkeyb1|].
  apply (receive_private _ message key content); try assumption.
  - rewrite Hmroom. unfold inRoom, theRoom. rewrite Hcb1, Hroomb1.
    cbn [r_id room_set_encryptionKey room_set_isPrivate]. rewrite Hidb.
    apply String.eqb_refl.
  - rewrite Hmfrom, Hid1, Hmyb1. exact Hab.
Qed.

Lemma private_chat_after_toggle_witness :
  let a := snd (createOrJoinRoom (Some "room42"%string) false ""
                  {| now := 0; random := "r" |} (newManager "A" "Alice")) in
  let b := snd (createOrJoinRoom (Some "room42"%string) false ""
                  {| now := 0; random := "q" |} (newManager "B" "Bob")) in
  let a1 := snd (togglePrivacyMode "k3y" {| now := 1; random := "x" |}
                   {| now := 1; random := "n" |} a) in
  exists pk message a2,
    transmitted a1 = transmitted a ++ [PrivateKey pk] /\
    sendMessage "hello" "text" {| now := 3; random := "m" |} a1 = Some (message, a2) /\
    encryptionKey (handleIncomingData (PrivateKey pk) {| now := 2; random := "y" |} b)
    = Some "k3y"%string.
Proof.
  cbv zeta.
  destruct (private_chat_after_toggle
              (snd (createOrJoinRoom (Some "room42"%string) false ""
                      {| now := 0; random := "r" |} (newManager "A" "Alice")))
              (snd (createOrJoinRoom (Some "room42"%string) false ""
                      {| now := 0; random := "q" |} (newManager "B" "Bob")))
              {| r_id := "room42"; r_name := "聊天室 room"; r_isPrivate := false;
                 r_members := {[ "A"%string ]}; r_createdBy := "A"; r_createdAt := 0;
                 r_encryptionKey := None |}
              "k3y" "hello" "text"
              {| now := 1; random := "x" |} {| now := 1; random := "n" |}
              {| now := 2; random := "y" |} {| now := 3; random := "m" |})
    as (pk & message & a2 & H1 & _ & _ & H2 & _ & _ & _ & _ & H3 & _).
  - vm_compute. reflexivity.
  - reflexivity.
  - vm_compute. reflexivity.
  - discriminate.
  - discriminate.
  - discriminate.
  - reflexivity.
  - exists pk, message, a2. split; [exact H1|]. split; [exact H2|exact H3].
Defined.

(** X21.  A run of received datagrams none of which concerns the manager
    (chat for another room or of the local user, invitations for others,
    join_room, leave_room and private_key for another room, room_update for
    a private or an already known room, own beacons, unknown types) leaves
    the peer table and the whole state of the manager as they were: nothing
    is filed, no callback is called, nothing is transmitted. *)
Theorem unconcerned_datagrams_ignored (stream : list (Datagram * Env))
    (comm : Comm) (s : Manager) :
  Forall (fun item => unconcerned comm s (fst item) = true) stream ->
  deliverAll stream (comm, s) = (comm, s).
Proof.
  induction 1 as [|[data env] stream Hdata _ IH]; [reflexivity|].
  unfold deliverAll. cbn [fold_left fst snd]. fold (deliverAll stream).
  cbn [fst] in Hdata.
  assert (Hone : deliver data env (comm, s) = (comm, s)); [|rewrite Hone; exact IH].
  unfold deliver, handleReceivedPacket, handleMessage, handleDiscovery, handleHeartbeat,
    UltrasonicComm.handleChatMessage, UltrasonicComm.handleInvite.
  destruct data as [b|d|d|d|d|d|d|t]; cbn [unconcerned] in Hdata;
    cbn [handleIncomingData fst snd]; try reflexivity.
  - apply String.eqb_eq in Hdata.
    destruct (b_kind b); (destruct (decide _); [contradiction|reflexivity]).
  - assert (Hd : ChatManager.handleChatMessage d s = s).
    { unfold ChatManager.handleChatMessage.
      destruct (negb (inRoom s (c_roomId d))); [reflexivity|].
      cbn [orb] in Hdata. rewrite Hdata. reflexivity. }
    rewrite !Hd. reflexivity.
  - assert (Hd : ChatManager.handleInvite d s = s).
    { unfold ChatManager.handleInvite.
      destruct (String.eqb _ _); [discriminate|reflexivity]. }
    rewrite !Hd. reflexivity.
  - unfold handleJoinRoom. destruct (inRoom s (m_roomId d)); [discriminate|].
    destruct (rooms s !! m_roomId d); reflexivity.
  - unfold handleLeaveRoom. destruct (inRoom s (m_roomId d)); [discriminate|].
    destruct (rooms s !! m_roomId d); reflexivity.
  - unfold handleRoomUpdate. destruct (rooms s !! ru_roomId d) eqn:Hknown; [reflexivity|].
    destruct (ru_isPrivate d); [reflexivity|]. cbn [orb] in Hdata.
    apply bool_decide_eq_true in Hdata. destruct Hdata as [? Hsome]. discriminate.
  - unfold handlePrivateKey. destruct (inRoom s (k_roomId d)); [discriminate|].
    destruct (currentRoom s); reflexivity.
Qed.

Lemma unconcerned_datagrams_ignored_witness :
  let comm := {| UltrasonicComm.myUserId := "B"; discoveredUsers := ∅ |} in
  let s := newManager "B" "Bob" in
  let d := {| c_messageId := "m1"; c_roomId := "room42"; c_fromUserId := "A";
              c_fromUsername := "Alice"; c_content := "hello"; c_messageType := "text";
              c_isEncrypted := false; c_timestamp := 1000 |} in
  deliverAll [(Chat d, {| now := 1; random := "x" |});
              (Unknown "ping", {| now := 2; random := "y" |})] (comm, s) = (comm, s).
Proof.
  cbv zeta. apply unconcerned_datagrams_ignored.
  repeat constructor.
Defined.

(** X22.  Leaving the current room hands a leave_room datagram for it to
    [transmitData], clears the current room, the private mode and the key,
    and reports the change; the room stays entered in [rooms], and the
    history and the connected users are kept.  Afterwards [sendMessage]
    throws, [togglePrivacyMode] returns false, chat datagrams are ignored,
    and leaving again (as the callback of the user interface does) is a
    no-op. *)
Theorem leaveRoom_effects (s : Manager) (room : Room) (env env' : Env) :
  theRoom s = Some room ->
  let s' := leaveRoom env s in
  currentRoom s' = None /\ isPrivateMode s' = false /\ encryptionKey s' = None /\
  rooms s' = rooms s /\ heap s' = heap s /\
  messageHistory s' = messageHistory s /\ connectedUsers s' = connectedUsers s /\
  transmitted s' =
    transmitted s ++
    [LeaveRoom {| m_userId := ChatManager.myUserId s; m_username := myUsername s;
                  m_roomId := r_id room; m_timestamp := now env |}] /\
  ui s' = ui s ++ [RoomStateChanged None] /\
  leaveRoom env' s' = s' /\
  (forall content type env0, sendMessage content type env0 s' = None) /\
  (forall key env1 env2, togglePrivacyMode key env1 env2 s' = (false, s')) /\
  (forall data, ChatManager.handleChatMessage data s' = s').
Proof.
  intros Hthe. cbv zeta. unfold leaveRoom at 1 2 3 4 5 6 7 8 9. rewrite Hthe.
  cbn [currentRoom rooms heap isPrivateMode encryptionKey messageHistory connectedUsers
       transmitted ui set_currentRoom set_isPrivateMode set_encryptionKey
       ChatManager.transmitData notify].
  do 9 (split; [reflexivity|]).
  assert (Hnone : theRoom (leaveRoom env s) = None)
    by (unfold leaveRoom; rewrite Hthe; reflexivity).
  split; [unfold leaveRoom at 1; rewrite Hnone; reflexivity|].
  split; [intros; unfold sendMessage; rewrite Hnone; reflexivity|].
  split.
  - intros. unfold togglePrivacyMode.
    assert (Hc : currentRoom (leaveRoom env s) = None)
      by (unfold leaveRoom; rewrite Hthe; reflexivity).
    rewrite Hc. reflexivity.
  - intros data. unfold ChatManager.handleChatMessage, inRoom. rewrite Hnone. reflexivity.
Qed.

Lemma leaveRoom_effects_witness :
  let s := snd (createOrJoinRoom (Some "room42"%string) false ""
                  {| now := 0; random := "r" |} (newManager "A" "Alice")) in
  currentRoom (leaveRoom {| now := 9; random := "z" |} s) = None.
Proof.
  cbv zeta.
  refine (proj1 (leaveRoom_effects _
            {| r_id := "room42"; r_name := "聊天室 room"; r_isPrivate := false;
               r_members := {[ "A"%string ]}; r_createdBy := "A"; r_createdAt := 0;
               r_encryptionKey := None |}
            {| now := 9; random := "z" |} {| now := 9; random := "z" |} _)).
  vm_compute. reflexivity.
Defined.

Section Sweeps.

(** The calls of [onUserLeft] that one [cleanupOfflineUsers] makes. *)
Lemma cleanupOfflineUsers_ui now s :
  exists reports,
    ui (cleanupOfflineUsers now s) = ui s ++ reports /\
    forall uid user, connectedUsers s !! uid = Some user ->
      now - u_lastSeen user > 30000 -> UserLeft uid ∈ reports.
Proof.
  unfold cleanupOfflineUsers. rewrite notify_all_ui. cbn [ui set_connectedUsers].
  eexists. split; [reflexivity|]. intros uid user Huser Hold.
  apply (list_elem_of_fmap_2' _ _ (uid, user)); [|reflexivity].
  apply list_elem_of_filter. split; [apply Z.ltb_lt; cbn [snd]; lia|].
  apply elem_of_map_to_list. exact Huser.
Qed.

End Sweeps.

(** X23.  A connected user not seen for more than 30 seconds is reported
    through [onUserLeft] by every run of [cleanupOfflineUsers], not only by
    the first one, and stays in [connectedUsers], marked offline; when the
    user is detected again, the entry is marked online with the new
    [lastSeen] and its old username, and no callback is called. *)
Theorem offline_user_cycle (s : Manager) (uid : string) (user : User)
    (now1 now2 : Z) (b : Beacon) (env : Env) :
  connectedUsers s !! uid = Some user ->
  now1 - u_lastSeen user > 30000 -> now1 <= now2 ->
  let s1 := cleanupOfflineUsers now1 s in
  let s2 := cleanupOfflineUsers now2 s1 in
  let s3 := ChatManager.handleUserDetected uid b env s2 in
  (exists reports, ui s1 = ui s ++ reports /\ UserLeft uid ∈ reports) /\
  (exists reports, ui s2 = ui s1 ++ reports /\ UserLeft uid ∈ reports) /\
  connectedUsers s2 !! uid = Some (offline user) /\
  ui s3 = ui s2 /\
  connectedUsers s3 !! uid =
    Some {| u_userId := u_userId user; u_username := u_username user;
            u_lastSeen := now env; u_isOnline := true |}.
Proof.
  intros Huser Hold Hlater. cbv zeta.
  assert (Hexp1 : (30000 <? now1 - u_lastSeen user) = true) by (apply Z.ltb_lt; lia).
  assert (Hexp2 : (30000 <? now2 - u_lastSeen user) = true) by (apply Z.ltb_lt; lia).
  assert (Hu1 : connectedUsers (cleanupOfflineUsers now1 s) !! uid = Some (offline user)).
  { rewrite cleanupOfflineUsers_users, lookup_fmap, Huser. cbn. rewrite Hexp1. reflexivity. }
  assert (Hu2 : connectedUsers (cleanupOfflineUsers now2 (cleanupOfflineUsers now1 s)) !! uid
                = Some (offline user)).
  { rewrite cleanupOfflineUsers_users, lookup_fmap, Hu1. cbn. rewrite Hexp2. reflexivity. }
  split; [|split; [|split; [exact Hu2|]]].
  - destruct (cleanupOfflineUsers_ui now1 s) as (reports & Hui & Hin).
    exists reports. split; [exact Hui|]. exact (Hin uid user Huser Hold).
  - destruct (cleanupOfflineUsers_ui now2 (cleanupOfflineUsers now1 s)) as (reports & Hui & Hin).
    exists reports. split; [exact Hui|]. apply (Hin uid (offline user) Hu1).
    cbn [offline u_lastSeen]. lia.
  - unfold ChatManager.handleUserDetected. rewrite Hu2.
    cbn [ui connectedUsers set_connectedUsers offline u_userId u_username].
    split; [reflexivity|]. apply lookup_insert_eq.
Qed.

Lemma offline_user_cycle_witness :
  let alice := {| u_userId := "a1b2c3d4e"; u_username := "Alice";
                  u_lastSeen := 3400; u_isOnline := true |} in
  let s := set_connectedUsers {[ "a1b2c3d4e"%string := alice ]} (newManager "B" "Bob") in
  connectedUsers (cleanupOfflineUsers 38401 (cleanupOfflineUsers 33401 s))
    !! "a1b2c3d4e"%string = Some (offline alice).
Proof.
  cbv zeta.
  refine (proj1 (proj2 (proj2 (offline_user_cycle
            (set_connectedUsers
               {[ "a1b2c3d4e"%string :=
                    {| u_userId := "a1b2c3d4e"; u_username := "Alice";
                       u_lastSeen := 3400; u_isOnline := true |} ]}
               (newManager "B" "Bob"))
            "a1b2c3d4e" _ 33401 38401
            {| b_kind := heartbeat; b_userId := "a1b2c3d4e"; b_username := "Al";
               b_timestamp := 40000 |}
            {| now := 40100; random := "x" |} _ _ _)))).
  - reflexivity.
  - cbn. lia.
  - lia.
Defined.

(** X24.  A room_update datagram makes a room known, never current: for an
    unknown public room [handleRoomUpdate] enters a room object with the
    announced id, name and creator and no members; for a private room or a
    room already known it does nothing, so a second update for the same
    room changes nothing; in every case the current room of a manager in
    use, its mode and its key stay as they were. *)
Theorem room_discovery (s : Manager) (d : RoomUpdateData) :
  reachable s ->
  let s' := handleRoomUpdate d s in
  currentRoom s' = currentRoom s /\ theRoom s' = theRoom s /\
  isPrivateMode s' = isPrivateMode s /\ encryptionKey s' = encryptionKey s /\
  handleRoomUpdate d s' = s' /\
  (ru_isPrivate d = true \/ is_Some (rooms s !! ru_roomId d) -> s' = s) /\
  (ru_isPrivate d = false -> rooms s !! ru_roomId d = None ->
   exists l,
     rooms s' !! ru_roomId d = Some l /\
     heap s' !! l =
       Some {| r_id := ru_roomId d; r_name := ru_roomName d; r_isPrivate := false;
               r_members := ∅; r_createdBy := ru_createdBy d;
               r_createdAt := ru_timestamp d; r_encryptionKey := None |}).
Proof.
  intros Hs. cbv zeta.
  destruct (rooms s !! ru_roomId d) as [l0|] eqn:Hknown.
  - assert (Hsame : handleRoomUpdate d s = s)
      by (unfold handleRoomUpdate; rewrite Hknown; reflexivity).
    rewrite !Hsame. repeat split; try reflexivity; try exact Hsame. discriminate.
  - destruct (ru_isPrivate d) eqn:Hp.
    + assert (Hsame : handleRoomUpdate d s = s)
        by (unfold handleRoomUpdate; rewrite Hknown, Hp; reflexivity).
      rewrite !Hsame. repeat split; try reflexivity; try exact Hsame. discriminate.
    + set (room := {| r_id := ru_roomId d; r_name := ru_roomName d; r_isPrivate := false;
                      r_members := ∅; r_createdBy := ru_createdBy d;
                      r_createdAt := ru_timestamp d; r_encryptionKey := None |}).
      assert (Hnew : handleRoomUpdate d s =
                set_rooms (<[ru_roomId d := fresh (dom (heap s))]> (rooms s))
                  (set_heap (<[fresh (dom (heap s)) := room]> (heap s)) s)).
      { unfold handleRoomUpdate. rewrite Hknown, Hp. reflexivity. }
      rewrite !Hnew.
      cbn [currentRoom isPrivateMode encryptionKey rooms heap set_heap set_rooms].
      split; [reflexivity|]. split.
      { unfold theRoom. cbn [currentRoom heap set_heap set_rooms].
        destruct (currentRoom s) as [l|] eqn:Hc; [|reflexivity].
        destruct (reachable_theRoom s l Hs Hc) as (room0 & Hroom & _).
        apply lookup_insert_ne. intros Heq.
        exact (fresh_heap s l room0 Hroom (eq_sym Heq)). }
      split; [reflexivity|]. split; [reflexivity|]. split.
      { unfold handleRoomUpdate. cbn [rooms set_rooms set_heap].
        rewrite lookup_insert_eq. reflexivity. }
      split.
      { intros [Habs|[? Habs]]; discriminate. }
      intros _ _. eexists. split; [apply lookup_insert_eq|]. apply lookup_insert_eq.
Qed.

Lemma room_discovery_witness :
  let d := {| ru_roomId := "room42"; ru_roomName := "聊天室 room"; ru_memberCount := 1;
              ru_isPrivate := false; ru_createdBy := "A"; ru_timestamp := 0 |} in
  currentRoom (handleRoomUpdate d (newManager "B" "Bob")) =
  currentRoom (newManager "B" "Bob").
Proof.
  cbv zeta.
  refine (proj1 (room_discovery (newManager "B" "Bob") _ (reachable_new "B" "Bob"))).
Defined.

Section Leaving.

Ltac fields :=
  cbn [fst snd currentRoom rooms heap isPrivateMode encryptionKey messageHistory
       connectedUsers ChatManager.myUserId myUsername transmitted ui
       set_currentRoom set_rooms set_heap set_isPrivateMode set_encryptionKey
       set_messageHistory set_connectedUsers transmitData notify updateRoom
       addSystemMessage addMessage clearHistory negb].


End Leaving.



(** X26.  Switching rooms.  When a manager that is in a room creates
    or joins a room with another id, the new room becomes current, with the
    local user as its creator and only member; nothing tells the old room:
    the only datagram handed to [transmitData] is the room_update of a
    public new room, with member count 1; the old room stays entered in
    [rooms]; chat datagrams for the old room are ignored from then on, and
    those of other users for the new room are filed. *)
Theorem room_switch (s : Manager) (old : Room) (roomId : option string)
    (isPrivate : bool) (key : string) (env : Env) :
  theRoom s = Some old ->
  let id := orElse (default "" roomId) (random env) in
  id <> r_id old ->
  let s' := snd (createOrJoinRoom roomId isPrivate key env s) in
  exists room,
    theRoom s' = Some room /\
    r_id room = id /\ r_isPrivate room = isPrivate /\
    r_members room = {[ ChatManager.myUserId s ]} /\
    r_createdBy room = ChatManager.myUserId s /\
    transmitted s' =
      transmitted s ++
      (if isPrivate then []
       else [RoomUpdate {| ru_roomId := id; ru_roomName := r_name room;
                           ru_memberCount := 1; ru_isPrivate := false;
                           ru_createdBy := ChatManager.myUserId s;
                           ru_timestamp := now env |}]) /\
    rooms s' !! r_id old = rooms s !! r_id old /\
    (forall d, c_roomId d = r_id old -> ChatManager.handleChatMessage d s' = s') /\
    (forall d, c_roomId d = id -> c_fromUserId d <> ChatManager.myUserId s ->
       ChatManager.handleChatMessage d s' =
       notify (MessageReceived (filedAs s' d)) (addMessage (filedAs s' d) s')).
Proof.
  intros Hold. cbv zeta. intros Hne.
  destruct (createOrJoinRoom_fields roomId isPrivate key env s)
    as (_ & Hc & Hr & Hh & _ & _ & _ & _ & Hid & _ & Ht & _).
  assert (Hsame :
    match roomId with
    | Some given => if String.eqb given "" then random env else given
    | None => random env
    end = orElse (default "" roomId) (random env))
    by (destruct roomId; reflexivity).
  rewrite Hsame in *. clear Hsame.
  set (id := orElse (default "" roomId) (random env)) in *.
  set (s' := snd (createOrJoinRoom roomId isPrivate key env s)) in *.
  assert (Hthe : theRoom s' =
    Some {| r_id := id; r_name := "聊天室 " ++ substring 0 4 id; r_isPrivate := isPrivate;
            r_members := {[ ChatManager.myUserId s ]};
            r_createdBy := ChatManager.myUserId s; r_createdAt := now env;
            r_encryptionKey := if isPrivate then Some key else None |}).
  { unfold theRoom. rewrite Hc, Hh. apply lookup_insert_eq. }
  eexists. split; [exact Hthe|]. cbn [r_id r_isPrivate r_members r_createdBy r_name].
  do 4 (split; [reflexivity|]). split; [exact Ht|].
  split; [rewrite Hr; apply lookup_insert_ne; exact Hne|]. split.
  - intros d Hd. unfold ChatManager.handleChatMessage, inRoom. rewrite Hthe.
    cbn [r_id]. rewrite Hd.
    destruct (String.eqb_spec id (r_id old)); [contradiction|reflexivity].
  - intros d Hd Hfrom. apply handleChatMessage_accept.
    + unfold inRoom. rewrite Hthe. cbn [r_id]. rewrite Hd. apply String.eqb_refl.
    + rewrite Hid. exact Hfrom.
Qed.

Lemma room_switch_witness :
  let s := snd (createOrJoinRoom (Some "room42"%string) false ""
                  {| now := 0; random := "r" |} (newManager "A" "Alice")) in
  exists room,
    theRoom (snd (createOrJoinRoom (Some "room77"%string) true "k3y"
                    {| now := 4; random := "g" |} s)) = Some room /\
    r_id room = "room77"%string.
Proof.
  cbv zeta.
  destruct (room_switch
              (snd (createOrJoinRoom (Some "room42"%string) false ""
                      {| now := 0; random := "r" |} (newManager "A" "Alice")))
              {| r_id := "room42"; r_name := "聊天室 room"; r_isPrivate := false;
                 r_members := {[ "A"%string ]}; r_createdBy := "A"; r_createdAt := 0;
                 r_encryptionKey := None |}
              (Some "room77"%string) true "k3y" {| now := 4; random := "g" |})
    as (room & Hthe & Hid & _).
  - vm_compute. reflexivity.
  - discriminate.
  - exists room. split; [exact Hthe|exact Hid].
Defined.

(** ** The transmitting side *)

Section JsonSize.

Import Json.

Lemma string_length_app (s1 s2 : string) :
  String.length (s1 ++ s2) = (String.length s1 + String.length s2)%nat.
Proof.
  induction s1 as [|a s1 IH]; [reflexivity|].
  change (S (String.length (s1 ++ s2)) = S (String.length s1 + String.length s2)).
  rewrite IH. reflexivity.
Qed.

Lemma concat_length_sum sep (ms : list string) :
  (list_sum (map String.length ms) <= String.length (String.concat sep ms))%nat.
Proof.
  induction ms as [|m ms IH]; [cbn; lia|].
  destruct ms as [|m' ms]; [cbn; lia|].
  change (String.concat sep (m :: m' :: ms)) with (m ++ sep ++ String.concat sep (m' :: ms))%string.
  rewrite !string_length_app. cbn [map list_sum fold_right] in *. lia.
Qed.

Lemma object_length ms :
  (2 + list_sum (map String.length ms) <= String.length (object ms))%nat.
Proof.
  unfold object. rewrite !string_length_app. pose proof (concat_length_sum "," ms).
  cbn [String.length]. lia.
Qed.

Lemma escape_length ch : (1 <= String.length (escape ch))%nat.
Proof.
  unfold escape. repeat (destruct (_ =? _); [cbn; lia|]).
  destruct (_ <? _); [rewrite string_length_app|]; cbn; lia.
Qed.

Lemma quoteJSONString_length s :
  (String.length s + 2 <= String.length (quoteJSONString s))%nat.
Proof.
  unfold quoteJSONString. cbn [String.length]. rewrite string_length_app. cbn [String.length].
  assert (String.length s <=
          String.length (String.concat "" (map escape (list_ascii_of_string s))))%nat; [|lia].
  induction s as [|a s IH]; [cbn; lia|].
  cbn [list_ascii_of_string map]. pose proof (escape_length a).
  destruct (map escape (list_ascii_of_string s)) as [|e es] eqn:He.
  - destruct s; [cbn in *; lia|discriminate].
  - change (String.concat "" (escape a :: e :: es))
      with (escape a ++ "" ++ String.concat "" (e :: es))%string.
    rewrite !string_length_app. cbn [String.length] in *. lia.
Qed.

Lemma member_length key value :
  (String.length key + 3 + String.length value <= String.length (member key value))%nat.
Proof.
  unfold member. rewrite !string_length_app. pose proof (quoteJSONString_length key).
  cbn [String.length]. lia.
Qed.

(** The text of a datagram is longer than a payload may be. *)
Lemma stringify_long data json :
  stringify data = Some json -> (32 < String.length json)%nat.
Proof.
  destruct data as [b|d|d|d|d|d|d|t]; cbn [stringify]; intros [= <-].
  - unfold stringifyBeacon.
    match goal with |- (_ < String.length (object ?ms))%nat =>
      pose proof (object_length ms) as H end.
    cbn [map list_sum fold_right] in H.
    repeat match type of H with context [String.length (member ?k ?v)] =>
      pose proof (member_length k v); generalize dependent (member k v); intros end.
    pose proof (quoteJSONString_length (b_userId b)).
    pose proof (quoteJSONString_length (b_username b)).
    destruct (b_kind b); cbn [String.length] in *; lia.
  - unfold stringifyChat.
    match goal with |- (_ < String.length (object ?ms))%nat =>
      pose proof (object_length ms) as H end.
    cbn [map list_sum fold_right] in H.
    repeat match type of H with context [String.length (member ?k ?v)] =>
      pose proof (member_length k v); generalize dependent (member k v); intros end.
    cbn [String.length] in *; lia.
  - unfold stringifyInvite.
    match goal with |- (_ < String.length (object (?ms ++ ?extra)))%nat =>
      pose proof (object_length (ms ++ extra)) as H; rewrite map_app, list_sum_app in H end.
    cbn [map list_sum fold_right] in H.
    repeat match type of H with context [String.length (member ?k ?v)] =>
      pose proof (member_length k v); generalize dependent (member k v); intros end.
    cbn [String.length] in *; lia.
  - unfold stringifyMember.
    match goal with |- (_ < String.length (object ?ms))%nat =>
      pose proof (object_length ms) as H end.
    cbn [map list_sum fold_right] in H.
    repeat match type of H with context [String.length (member ?k ?v)] =>
      pose proof (member_length k v); generalize dependent (member k v); intros end.
    cbn [String.length] in *; lia.
  - unfold stringifyMember.
    match goal with |- (_ < String.length (object ?ms))%nat =>
      pose proof (object_length ms) as H end.
    cbn [map list_sum fold_right] in H.
    repeat match type of H with context [String.length (member ?k ?v)] =>
      pose proof (member_length k v); generalize dependent (member k v); intros end.
    cbn [String.length] in *; lia.
  - unfold stringifyRoomUpdate.
    match goal with |- (_ < String.length (object ?ms))%nat =>
      pose proof (object_length ms) as H end.
    cbn [map list_sum fold_right] in H.
    repeat match type of H with context [String.length (member ?k ?v)] =>
      pose proof (member_length k v); generalize dependent (member k v); intros end.
    cbn [String.length] in *; lia.
  - unfold stringifyKey.
    match goal with |- (_ < String.length (object ?ms))%nat =>
      pose proof (object_length ms) as H end.
    cbn [map list_sum fold_right] in H.
    repeat match type of H with context [String.length (member ?k ?v)] =>
      pose proof (member_length k v); generalize dependent (member k v); intros end.
    cbn [String.length] in *; lia.
Qed.

End JsonSize.

(** X27.  The JSON text of every datagram that the application builds
    (heartbeat, discovery, chat, invite, join_room, leave_room, room_update,
    private_key) is longer than the 32 bytes a payload may have, whatever
    its field values: [encodePacket] throws for each of them. *)
Theorem datagrams_oversize (data : Datagram) (json : string) :
  Json.stringify data = Some json ->
  (32 < length (encode json))%nat /\ encodePacket (encode json) = None.
Proof.
  intros Hjson. pose proof (stringify_long data json Hjson) as Hlong.
  rewrite encode_length. split; [exact Hlong|].
  unfold encodePacket. rewrite encode_length.
  destruct (Z.ltb_spec maxPayloadLength (Z.of_nat (String.length json)));
    [reflexivity|unfold maxPayloadLength in *; lia].
Qed.

Lemma datagrams_oversize_witness :
  encodePacket
    (encode (Json.stringifyBeacon
               {| b_kind := heartbeat; b_userId := "a1b2c3d4e"; b_username := "Al";
                  b_timestamp := 1700000000000 |})) = None.
Proof.
  apply (datagrams_oversize
           (Announce {| b_kind := heartbeat; b_userId := "a1b2c3d4e"; b_username := "Al";
                        b_timestamp := 1700000000000 |})).
  reflexivity.
Defined.


(** X29.  Nothing that the chat manager hands to [transmitData] is played:
    for every datagram in the log of a manager in use, [transmitData]
    returns false on its JSON text and leaves the played bursts as they
    were, whatever the state of the transmitter; and the heartbeat and
    discovery beacons that [sendHeartbeat] and [sendDiscovery] build are
    not played either. *)
Theorem nothing_is_aired :
  (forall (s : Manager) (data : Datagram) (r : Transmitter.Radio),
     reachable s -> In data (transmitted s) ->
     exists json,
       Json.stringify data = Some json /\
       fst (Transmitter.transmitData (encode json) r) = false /\
       Transmitter.played (snd (Transmitter.transmitData (encode json) r)) =
         Transmitter.played r) /\
  (forall stored env c r,
     Transmitter.played (Transmitter.sendHeartbeat stored env c r) = Transmitter.played r /\
     Transmitter.played (Transmitter.sendDiscovery stored env c r) = Transmitter.played r).
Proof.
  assert (Hsilent : forall data json r,
            Json.stringify data = Some json ->
            fst (Transmitter.transmitData (encode json) r) = false /\
            Transmitter.played (snd (Transmitter.transmitData (encode json) r)) =
              Transmitter.played r).
  { intros data json r Hjson.
    pose proof (stringify_long data json Hjson) as Hlong.
    unfold Transmitter.transmitData, encodePacket. rewrite encode_length.
    destruct (negb _ || _); [split; reflexivity|].
    destruct (Z.ltb_spec maxPayloadLength (Z.of_nat (String.length json)));
      [|unfold maxPayloadLength in *; lia].
    destruct (Transmitter.contextState r); split; reflexivity. }
  split.
  - intros s data r Hs Hin.
    pose proof (reachable_signed s Hs) as Hall. rewrite Forall_forall in Hall.
    apply list_elem_of_In in Hin. specialize (Hall _ Hin).
    destruct (Json.stringify data) as [json|] eqn:Hjson.
    + exists json. split; [reflexivity|]. exact (Hsilent data json r Hjson).
    + destruct data; try discriminate. contradiction.
  - intros stored env c r. unfold Transmitter.sendHeartbeat, Transmitter.sendDiscovery. split.
    + exact (proj2 (Hsilent (Announce _) _ r eq_refl)).
    + exact (proj2 (Hsilent (Announce _) _ r eq_refl)).
Qed.

Lemma nothing_is_aired_witness :
  let s := snd (createOrJoinRoom (Some "room42"%string) false ""
                  {| now := 0; random := "r" |} (newManager "A" "Alice")) in
  let update := RoomUpdate {| ru_roomId := "room42"; ru_roomName := "聊天室 room";
                              ru_memberCount := 1; ru_isPrivate := false;
                              ru_createdBy := "A"; ru_timestamp := 0 |} in
  let r := {| Transmitter.isInitialized := true; Transmitter.isTransmitting := false;
              Transmitter.contextState := Transmitter.running;
              Transmitter.currentMode := high; Transmitter.statusLog := [];
              Transmitter.played := [] |} in
  exists json,
    Json.stringify update = Some json /\
    fst (Transmitter.transmitData (encode json) r) = false.
Proof.
  cbv zeta.
  destruct (proj1 nothing_is_aired
              (snd (createOrJoinRoom (Some "room42"%string) false ""
                      {| now := 0; random := "r" |} (newManager "A" "Alice")))
              (RoomUpdate {| ru_roomId := "room42"; ru_roomName := "聊天室 room";
                             ru_memberCount := 1; ru_isPrivate := false;
                             ru_createdBy := "A"; ru_timestamp := 0 |})
              {| Transmitter.isInitialized := true; Transmitter.isTransmitting := false;
                 Transmitter.contextState := Transmitter.running;
                 Transmitter.currentMode := high; Transmitter.statusLog := [];
                 Transmitter.played := [] |})
    as (json & Hjson & Hfalse & _).
  - eapply reachable_step; [apply reachable_new|apply step_createOrJoinRoom].
  - vm_compute. left. reflexivity.
  - exists json. split; [exact Hjson|exact Hfalse].
Defined.

(** ** The receiving worklet *)

Section Worklet.

Import UltrasonicProcessor.

Context {Sample : Type}.
Variable goertzel : list Sample -> Z -> option Q.

(** The time stamp of the last message, [last] when there is none. *)
Let latest (last : Q) (messages : list (Z * Q)) : Q :=
  List.last (map snd messages) last.

Lemma spaced_app gap last messages bit t :
  spaced gap last (messages ++ [(bit, t)]) <->
  spaced gap last messages /\ (gap < t - latest last messages)%Q.
Proof.
  revert last. induction messages as [|[b0 t0] messages IH]; intros last.
  - cbn. tauto.
  - cbn [app spaced]. rewrite IH. unfold latest. cbn [map snd].
    rewrite last_cons. tauto.
Qed.

(** What the processor keeps true of itself. *)
Let sound (p : @Processor Sample) : Prop :=
  (960 <= bitDuration p * (8 # 10))%Q /\
  spaced 960 0 (posted p) /\
  lastBitTime p = latest 0 (posted p).

Lemma duration_bound mode :
  (960 <= inject_Z sampleRate / inject_Z (bitRate mode) * (8 # 10))%Q.
Proof. destruct mode; vm_compute; discriminate. Qed.

Lemma interval_bound mode : (expectedInterval mode * 2 <= 960)%Q.
Proof. destruct mode; vm_compute; discriminate. Qed.

Lemma detectFrequency_sound currentFrame (p : @Processor Sample) :
  sound p -> sound (detectFrequency goertzel currentFrame p).
Proof.
  intros (Hdur & Hspaced & Hlast). unfold detectFrequency.
  destruct (_ || _); [|repeat split; assumption].
  destruct (Qle_bool _ _) eqn:Hle; cbn [negb]; [repeat split; assumption|].
  split; [exact Hdur|]. cbn [posted lastBitTime]. split.
  - apply spaced_app. split; [exact Hspaced|]. rewrite <- Hlast.
    apply Qle_lt_trans with (y := (bitDuration p * (8 # 10))%Q); [exact Hdur|].
    apply Qnot_le_lt. intros H. apply Qle_bool_iff in H. congruence.
  - unfold latest. rewrite map_app. cbn [map snd]. rewrite last_last. reflexivity.
Qed.

Lemma sound_same (p p' : @Processor Sample) :
  bitDuration p' = bitDuration p -> posted p' = posted p ->
  lastBitTime p' = lastBitTime p -> sound p -> sound p'.
Proof. unfold sound. intros -> -> ->. exact id. Qed.

Lemma store_sound currentFrame channelData : forall p,
  sound p -> sound (store goertzel currentFrame channelData p).
Proof.
  induction channelData as [|x channelData IH]; intros p Hp; [exact Hp|].
  cbn [store]. apply IH.
  match goal with |- sound (if _ then detectFrequency _ _ ?p1 else _) =>
    assert (Hp1 : sound p1) by (revert Hp; apply sound_same; reflexivity);
    revert Hp1; generalize p1 end.
  intros q Hq. destruct (_ =? _); [apply detectFrequency_sound|]; exact Hq.
Qed.

Lemma handle_sound (p : @Processor Sample) event : sound p -> sound (handle goertzel p event).
Proof.
  intros Hp. destruct event as [mode|currentFrame input]; cbn [handle].
  - destruct Hp as (_ & Hspaced & Hlast). split; [|split; assumption].
    exact (duration_bound mode).
  - unfold process. destruct input; [exact Hp|apply store_sound, Hp].
Qed.

Lemma runProcessor_sound zero events : sound (runProcessor goertzel zero events).
Proof.
  unfold runProcessor.
  assert (Hnew : sound (newProcessor zero)).
  { split; [exact (duration_bound high)|]. split; [exact I|reflexivity]. }
  revert Hnew. generalize (newProcessor zero). induction events as [|e events IH]; intros p Hp.
  - exact Hp.
  - cbn [fold_left]. apply IH, handle_sound, Hp.
Qed.

(** A bit that arrives more than 960 seconds after the one before it finds
    the decoder reset. *)
Lemma feed_spaced mode : forall messages bit last rs,
  spaced 960 last messages ->
  let r := feed mode {| bitBuffer := Some [bit]; UltrasonicComm.lastBitTime := last;
                        received := rs |} messages in
  received r = rs /\ exists bit', bitBuffer r = Some [bit'].
Proof.
  induction messages as [|[b t] messages IH]; intros bit last rs Hsp; cbv zeta.
  - cbn. split; [reflexivity|eexists; reflexivity].
  - destruct Hsp as [Hgap Hsp]. rewrite feed_cons.
    assert (Hlate : Qle_bool (t - last) (expectedInterval mode * 2) = false).
    { destruct (Qle_bool _ _) eqn:Hle; [|reflexivity]. apply Qle_bool_iff in Hle.
      exfalso. apply (Qlt_not_le _ _ Hgap). apply Qle_trans with (1 := Hle).
      apply interval_bound. }
    assert (Hstep : processBit mode
              {| bitBuffer := Some [bit]; UltrasonicComm.lastBitTime := last; received := rs |}
              b t =
              {| bitBuffer := Some [b]; UltrasonicComm.lastBitTime := t; received := rs |}).
    { unfold processBit. cbn [bitBuffer UltrasonicComm.lastBitTime received].
      fold (expectedInterval mode). rewrite Hlate.
      cbn [app]. unfold tryDecodePacket. cbn [length Nat.ltb Nat.leb].
      change ((length packetHeader + 2) * 8)%nat with 80%nat. cbn. rewrite app_nil_r.
      reflexivity. }
    rewrite Hstep. apply IH. exact Hsp.
Qed.

End Worklet.

(** X30.  The worklet compares seconds with samples: it posts a bit only
    when the audio clock (in seconds) is more than 0.8 bit durations (in
    samples: 960 at 40 bit/s, 3840 at 10 bit/s) past the last posted bit.
    So, whatever the microphone delivers and however the processor is
    configured, any two bits it posts are more than 960 seconds apart, the
    first one more than 960 seconds after the start; [processBit], which
    empties its buffer after a gap of two bit periods, therefore never
    holds more than one of these bits, and no packet is ever received from
    them. *)
Theorem worklet_bits_never_frame {Sample : Type}
    (goertzel : list Sample -> Z -> option Q) (zero : Sample)
    (events : list (@UltrasonicProcessor.Event Sample)) (mode : Mode) :
  let p := UltrasonicProcessor.runProcessor goertzel zero events in
  let r := feed mode newReceiver (UltrasonicProcessor.posted p) in
  spaced 960 0 (UltrasonicProcessor.posted p) /\
  received r = [] /\
  forall buffer, bitBuffer r = Some buffer -> (length buffer <= 1)%nat.
Proof.
  cbv zeta. destruct (runProcessor_sound goertzel zero events) as (_ & Hspaced & _).
  split; [exact Hspaced|].
  destruct (UltrasonicProcessor.posted _) as [|[b t] messages].
  - split; [reflexivity|]. intros buffer. discriminate.
  - destruct Hspaced as [_ Hrest]. rewrite feed_cons.
    assert (Hfirst : processBit mode newReceiver b t =
              {| bitBuffer := Some [b]; UltrasonicComm.lastBitTime := t; received := [] |}).
    { unfold processBit, newReceiver. cbn [bitBuffer UltrasonicComm.lastBitTime received].
      fold (expectedInterval mode). rewrite Qle_bool_self. reflexivity. }
    rewrite Hfirst.
    destruct (feed_spaced mode messages b t [] Hrest) as (Hrec & bit' & Hbuf).
    split; [exact Hrec|]. intros buffer. rewrite Hbuf. intros [= <-]. cbn. lia.
Qed.

